(** * A shallow embedding of the CHIP-8 emulator

    The development follows the Python sources:
    - [config.py]    : [QuirkConfig], [EmulatorConfig]
    - [sound.py]     : [Sound]
    - [display.py]   : [Display] (the pygame display has the same
                       [draw_sprite] and [clear])
    - [emulator.py]  : [Chip8]
    - [input.py]     : [InputHandler] without a terminal, [TtyInputHandler]
                       and [Stdin] on a terminal
    - [input_pygame.py], [display_pygame.py] : [PygameInputHandler], the
                       event queue, [PygameSession]
    - [main.py]      : the host frame loop

    Python objects are mutated in place and an exception leaves the
    mutations made so far visible to whoever catches it.  Methods are
    therefore modelled in a state-and-exception monad whose result always
    carries the state reached, also when an exception is raised. *)

From Stdlib Require Import ZArith Lia Bool List.
From stdpp Require Import base tactics option list strings gmap.
Import ListNotations.

Local Open Scope Z_scope.

(** ** Exceptions *)

(** The four [raise RuntimeError(...)] statements of [emulator.py]. *)
Inductive fault : Type :=
| FetchOutOfBounds (pc_at_fault : Z)   (* "PC out of bounds: ..." *)
| StackUnderflow                       (* "Stack underflow on RET" *)
| StackOverflow                        (* "Stack overflow on CALL" *)
| SpriteOutOfBounds.                   (* "Sprite fetch out of memory bounds" *)

(** What an input backend can raise. *)
Inductive host_exn : Type :=
| KeyboardInterrupt
| WaitForKeyUnsupported                (* "wait_for_key not supported (no TTY)" *)
| KeyIndexError.                       (* [self.keys[key]] out of range *)

Inductive exn : Type :=
| RuntimeError (f : fault)
| IndexError                           (* list / array index out of range *)
| OverflowError                        (* array item or [int.to_bytes] out of range *)
| ValueError                           (* [array.array('H', b)] with odd len(b) *)
| ZeroDivisionError                    (* [a % 0] *)
| HostError (h : host_exn).

Inductive result (A : Type) : Type :=
| Ok (a : A)
| Raise (e : exn).
Arguments Ok {A} a.
Arguments Raise {A} e.

(** ** The monad: state passing, the state survives a raise *)

Definition M (S A : Type) : Type := S -> result A * S.

Definition ret {S A} (a : A) : M S A := fun s => (Ok a, s).
Definition raise {S A} (e : exn) : M S A := fun s => (Raise e, s).
Definition bind {S A B} (m : M S A) (k : A -> M S B) : M S B :=
  fun s => match m s with
           | (Ok a, s') => k a s'
           | (Raise e, s') => (Raise e, s')
           end.
Definition get {S} : M S S := fun s => (Ok s, s).
Definition gets {S A} (f : S -> A) : M S A := fun s => (Ok (f s), s).
Definition modify {S} (f : S -> S) : M S unit := fun s => (Ok tt, f s).
(** A pure computation that may raise. *)
Definition lift {S A} (r : result A) : M S A := fun s => (r, s).
(** Run a method of a sub-object [T] stored in [S]. *)
Definition zoom {S T A} (proj : S -> T) (upd : T -> S -> S) (m : M T A) : M S A :=
  fun s => let (r, t) := m (proj s) in (r, upd t s).

Notation "'let*' x ':=' c 'in' k" := (bind c (fun x => k))
  (at level 10, x pattern, c at level 100, k at level 200).
Notation "c1 ';;' c2" := (bind c1 (fun _ => c2))
  (at level 100, c2 at level 200, right associativity).

(** [if c: body] with no else branch. *)
Definition when {S} (c : bool) (body : M S unit) : M S unit :=
  if c then body else ret tt.

(** [for i in range(n): body(i)]; an exception leaves the loop. *)
Fixpoint for_range_from {S} (i : Z) (count : nat) (body : Z -> M S unit) : M S unit :=
  match count with
  | O => ret tt
  | S count' => body i ;; for_range_from (i + 1) count' body
  end.
Definition for_range {S} (n : Z) (body : Z -> M S unit) : M S unit :=
  for_range_from 0 (Z.to_nat n) body.

(** ** Python sequences *)

(** Python indexing: [-len <= i < 0] counts from the end, anything outside
    [-len <= i < len] raises [IndexError]. *)
Definition py_index (len i : Z) : option nat :=
  if (0 <=? i) && (i <? len) then Some (Z.to_nat i)
  else if (- len <=? i) && (i <? 0) then Some (Z.to_nat (i + len))
  else None.

Definition getitem {A} (l : list A) (i : Z) : result A :=
  match py_index (Z.of_nat (length l)) i with
  | Some k => match l !! k with Some v => Ok v | None => Raise IndexError end
  | None => Raise IndexError
  end.

Definition setitem {A} (l : list A) (i : Z) (v : A) : result (list A) :=
  match py_index (Z.of_nat (length l)) i with
  | Some k => Ok (<[k := v]> l)
  | None => Raise IndexError
  end.

(** [array.array] items: typecode ['B'] holds [0 <= v < 2^8], ['H'] holds
    [0 <= v < 2^16]; storing anything else raises [OverflowError].  The
    index is checked before the value is converted. *)
Definition array_setitem (item_bound : Z) (a : list Z) (i v : Z) : result (list Z) :=
  match py_index (Z.of_nat (length a)) i with
  | Some k => if (0 <=? v) && (v <? item_bound) then Ok (<[k := v]> a)
              else Raise OverflowError
  | None => Raise IndexError
  end.

Definition B_bound : Z := 256.
Definition H_bound : Z := 65536.

(** ** constants.py *)

(** Modelled from the spec: [constants.py] is not among the sources; the
    spec fixes memory at 4096 bytes, the stack capacity at 16, sixteen
    general registers and a 64 x 32 display. *)
Definition MEMORY_SIZE : Z := 4096.
Definition STACK_SIZE : Z := 16.
Definition V_COUNT : Z := 16.
Definition SCREEN_WIDTH : Z := 64.
Definition SCREEN_HEIGHT : Z := 32.

(** ** config.py *)

Module QuirkConfig.
Record t : Type := Build {
  shift_legacy : bool;
  load_store_increment_i : bool;
  draw_wrap : bool;
  jump_with_v0_quirk : bool;
}.
Definition default : t := Build false false false false.
End QuirkConfig.

Module EmulatorConfig.
Record t : Type := Build {
  cycles_per_frame : Z;
  scale : Z;
  debug : bool;
  use_pygame : bool;
  use_tk : bool;
  sound_enabled : bool;
  quirks : QuirkConfig.t;
}.
Definition default : t := Build 700 10 false true false true QuirkConfig.default.
End EmulatorConfig.

(** ** sound.py *)

Module Sound.
Record t : Type := Build {
  timer : Z;
  playing : bool;
  enabled : bool;
}.

Definition init (enabled : bool) : t := Build 0 false enabled.

Definition set_timer (value : Z) (self : t) : t :=
  let timer' := Z.land value 0xFF in
  Build timer' (if timer' =? 0 then false else playing self) (enabled self).

(** The terminal bell is output only; the state change is what is kept. *)
Definition update (self : t) : t :=
  if 0 <? timer self then
    let timer' := timer self - 1 in
    Build timer' (if timer' =? 0 then false else true) (enabled self)
  else
    Build (timer self) false (enabled self).

Definition stop (self : t) : t := Build 0 false (enabled self).
End Sound.

(** ** display.py *)

(** Python's [%]: the result has the sign of the divisor, as [Z.modulo]. *)
Definition py_mod (a b : Z) : result Z :=
  if b =? 0 then Raise ZeroDivisionError else Ok (a mod b).

Module Display.
Record t : Type := Build {
  width : Z;
  height : Z;
  pixels : list (list Z);
  draw_flag : bool;
  _first_render : bool;
}.

Definition set_pixels (p : list (list Z)) (self : t) : t :=
  Build (width self) (height self) p (draw_flag self) (_first_render self).
Definition set_draw_flag (b : bool) (self : t) : t :=
  Build (width self) (height self) (pixels self) b (_first_render self).

(** [[[0] * width for _ in range(height)]] *)
Definition blank (width height : Z) : list (list Z) :=
  replicate (Z.to_nat height) (replicate (Z.to_nat width) 0).

Definition init (width height : Z) : t :=
  Build width height (blank width height) false true.

Definition clear (self : t) : t :=
  Build (width self) (height self) (blank (width self) (height self))
        true (_first_render self).

(** The inner loop [for col in range(8)], entered at column [col] with
    [todo] columns left.  [continue] goes on with the next column,
    [break] returns. *)
Fixpoint draw_cols (todo : nat) (col x yy sprite_byte : Z) (wrap collision : bool)
  : M t bool :=
  match todo with
  | O => ret collision
  | S todo' =>
    if Z.land sprite_byte (Z.shiftr 0x80 col) =? 0 then
      draw_cols todo' (col + 1) x yy sprite_byte wrap collision
    else
      let* w := gets width in
      let* xx := lift (if wrap then py_mod (x + col) w else Ok (x + col)) in
      if xx >=? w then ret collision
      else
        let* px := gets pixels in
        let* line := lift (getitem px yy) in
        let* p := lift (getitem line xx) in
        let collision := if p =? 1 then true else collision in
        let* line' := lift (setitem line xx (Z.lxor p 1)) in
        let* px' := lift (setitem px yy line') in
        modify (set_pixels px') ;;
        draw_cols todo' (col + 1) x yy sprite_byte wrap collision
  end.

(** The outer loop [for row in range(height)], entered at [row]. *)
Fixpoint draw_rows (todo : nat) (row x y : Z) (sprite : list Z) (wrap collision : bool)
  : M t bool :=
  match todo with
  | O => ret collision
  | S todo' =>
    let* h := gets height in
    let* yy := lift (if wrap then py_mod (y + row) h else Ok (y + row)) in
    if yy >=? h then ret collision
    else
      let* sprite_byte := lift (getitem sprite row) in
      let* collision := draw_cols 8 0 x yy sprite_byte wrap collision in
      draw_rows todo' (row + 1) x y sprite wrap collision
  end.

Definition draw_sprite (x y : Z) (sprite : list Z) (nrows : Z) (wrap : bool)
  : M t bool :=
  let* collision := draw_rows (Z.to_nat nrows) 0 x y sprite wrap false in
  modify (set_draw_flag true) ;;
  ret collision.

(** [render] prints the frame when [draw_flag] is set; the output is not
    part of the state, the two flags are. *)
Definition render (self : t) : t :=
  if draw_flag self then
    Build (width self) (height self) (pixels self) false false
  else self.
End Display.

(** ** The host: input backend and random source *)

(** [emulator.py] talks to the keyboard through [self.input_handler]
    ([input.py] or [input_pygame.py]) and draws random bytes from
    [self._rand].  Both are taken as an interface: [K] is the state of the
    input handler, [R] the state of the generator.  A backend raises only
    host exceptions. *)
Definition HM (K A : Type) : Type := K -> (host_exn + A) * K.

Class Host (K R : Type) : Type := {
  update_keys : HM K unit;
  is_key_pressed : Z -> HM K bool;
  wait_for_key : HM K Z;
  (** [display.poll_events()] followed by [handle_event] on each event *)
  pump_events : HM K unit;
  (** [self._rand.getrandbits(8)] *)
  getrandbits8 : R -> Z * R;
}.

(** ** emulator.py *)

Record Chip8 {K R : Type} : Type := mkChip8 {
  memory : list Z;          (* array('B'), MEMORY_SIZE items *)
  V : list Z;               (* array('B'), V_COUNT items *)
  stack : list Z;           (* array('H'), STACK_SIZE items *)
  sp : Z;
  pc : Z;
  I : Z;
  delay_timer : Z;
  config : EmulatorConfig.t;
  using_pygame : bool;
  display : Display.t;
  input_handler : K;
  sound : Sound.t;
  debug : bool;
  cycles_per_frame : Z;
  halted : bool;
  _rand : R;
  rom_loaded : bool;
}.
Arguments Chip8 : clear implicits.
Arguments mkChip8 {K R}.

Section Setters.
Context {K R : Type}.
Local Abbreviation Chip8 := (Chip8 K R).

Definition set_memory (a : list Z) (s : Chip8) : Chip8 :=
  mkChip8 a (V s) (stack s) (sp s) (pc s) (I s) (delay_timer s) (config s)
    (using_pygame s) (display s) (input_handler s) (sound s) (debug s)
    (cycles_per_frame s) (halted s) (_rand s) (rom_loaded s).
Definition set_V (a : list Z) (s : Chip8) : Chip8 :=
  mkChip8 (memory s) a (stack s) (sp s) (pc s) (I s) (delay_timer s) (config s)
    (using_pygame s) (display s) (input_handler s) (sound s) (debug s)
    (cycles_per_frame s) (halted s) (_rand s) (rom_loaded s).
Definition set_stack (a : list Z) (s : Chip8) : Chip8 :=
  mkChip8 (memory s) (V s) a (sp s) (pc s) (I s) (delay_timer s) (config s)
    (using_pygame s) (display s) (input_handler s) (sound s) (debug s)
    (cycles_per_frame s) (halted s) (_rand s) (rom_loaded s).
Definition set_sp (v : Z) (s : Chip8) : Chip8 :=
  mkChip8 (memory s) (V s) (stack s) v (pc s) (I s) (delay_timer s) (config s)
    (using_pygame s) (display s) (input_handler s) (sound s) (debug s)
    (cycles_per_frame s) (halted s) (_rand s) (rom_loaded s).
Definition set_pc (v : Z) (s : Chip8) : Chip8 :=
  mkChip8 (memory s) (V s) (stack s) (sp s) v (I s) (delay_timer s) (config s)
    (using_pygame s) (display s) (input_handler s) (sound s) (debug s)
    (cycles_per_frame s) (halted s) (_rand s) (rom_loaded s).
Definition set_I (v : Z) (s : Chip8) : Chip8 :=
  mkChip8 (memory s) (V s) (stack s) (sp s) (pc s) v (delay_timer s) (config s)
    (using_pygame s) (display s) (input_handler s) (sound s) (debug s)
    (cycles_per_frame s) (halted s) (_rand s) (rom_loaded s).
Definition set_delay_timer (v : Z) (s : Chip8) : Chip8 :=
  mkChip8 (memory s) (V s) (stack s) (sp s) (pc s) (I s) v (config s)
    (using_pygame s) (display s) (input_handler s) (sound s) (debug s)
    (cycles_per_frame s) (halted s) (_rand s) (rom_loaded s).
Definition set_config (c : EmulatorConfig.t) (s : Chip8) : Chip8 :=
  mkChip8 (memory s) (V s) (stack s) (sp s) (pc s) (I s) (delay_timer s) c
    (using_pygame s) (display s) (input_handler s) (sound s) (debug s)
    (cycles_per_frame s) (halted s) (_rand s) (rom_loaded s).
Definition set_display (d : Display.t) (s : Chip8) : Chip8 :=
  mkChip8 (memory s) (V s) (stack s) (sp s) (pc s) (I s) (delay_timer s) (config s)
    (using_pygame s) d (input_handler s) (sound s) (debug s)
    (cycles_per_frame s) (halted s) (_rand s) (rom_loaded s).
Definition set_input_handler (k : K) (s : Chip8) : Chip8 :=
  mkChip8 (memory s) (V s) (stack s) (sp s) (pc s) (I s) (delay_timer s) (config s)
    (using_pygame s) (display s) k (sound s) (debug s)
    (cycles_per_frame s) (halted s) (_rand s) (rom_loaded s).
Definition set_sound (x : Sound.t) (s : Chip8) : Chip8 :=
  mkChip8 (memory s) (V s) (stack s) (sp s) (pc s) (I s) (delay_timer s) (config s)
    (using_pygame s) (display s) (input_handler s) x (debug s)
    (cycles_per_frame s) (halted s) (_rand s) (rom_loaded s).
Definition set_halted (b : bool) (s : Chip8) : Chip8 :=
  mkChip8 (memory s) (V s) (stack s) (sp s) (pc s) (I s) (delay_timer s) (config s)
    (using_pygame s) (display s) (input_handler s) (sound s) (debug s)
    (cycles_per_frame s) b (_rand s) (rom_loaded s).
Definition set_rand (r : R) (s : Chip8) : Chip8 :=
  mkChip8 (memory s) (V s) (stack s) (sp s) (pc s) (I s) (delay_timer s) (config s)
    (using_pygame s) (display s) (input_handler s) (sound s) (debug s)
    (cycles_per_frame s) (halted s) r (rom_loaded s).
Definition set_rom_loaded (b : bool) (s : Chip8) : Chip8 :=
  mkChip8 (memory s) (V s) (stack s) (sp s) (pc s) (I s) (delay_timer s) (config s)
    (using_pygame s) (display s) (input_handler s) (sound s) (debug s)
    (cycles_per_frame s) (halted s) (_rand s) b.
End Setters.

Section Engine.
Context {K R : Type} `{!Host K R}.
Local Abbreviation Chip8 := (Chip8 K R).
Local Abbreviation quirks s := (EmulatorConfig.quirks (config s)).

(** Run an input-backend method on [self.input_handler]. *)
Definition on_input {A} (m : HM K A) : M Chip8 A :=
  fun s => match m (input_handler s) with
           | (inr a, k) => (Ok a, set_input_handler k s)
           | (inl h, k) => (Raise (HostError h), set_input_handler k s)
           end.

(** [self.V[i]], [self.V[i] = v] and the same for memory and stack. *)
Definition readV (i : Z) : M Chip8 Z := fun s => (getitem (V s) i, s).
Definition writeV (i v : Z) : M Chip8 unit :=
  fun s => match array_setitem B_bound (V s) i v with
           | Ok a => (Ok tt, set_V a s)
           | Raise e => (Raise e, s)
           end.
Definition readMem (i : Z) : M Chip8 Z := fun s => (getitem (memory s) i, s).
Definition writeMem (i v : Z) : M Chip8 unit :=
  fun s => match array_setitem B_bound (memory s) i v with
           | Ok a => (Ok tt, set_memory a s)
           | Raise e => (Raise e, s)
           end.
Definition readStack (i : Z) : M Chip8 Z := fun s => (getitem (stack s) i, s).
Definition writeStack (i v : Z) : M Chip8 unit :=
  fun s => match array_setitem H_bound (stack s) i v with
           | Ok a => (Ok tt, set_stack a s)
           | Raise e => (Raise e, s)
           end.

(** [[f(i) for i in range(n)]], entered at [i]. *)
Fixpoint list_comp_from {A} (i : Z) (count : nat) (f : Z -> M Chip8 A) : M Chip8 (list A) :=
  match count with
  | O => ret []
  | S count' =>
    let* a := f i in
    let* rest := list_comp_from (i + 1) count' f in
    ret (a :: rest)
  end.

Definition load_fontset (fontset : list Z) : M Chip8 unit :=
  for_range (Z.of_nat (length fontset)) (fun i =>
    let* byte := lift (getitem fontset i) in
    writeMem i byte).

Definition fetch_opcode : M Chip8 Z :=
  let* s := get in
  if (pc s >=? MEMORY_SIZE) || (pc s + 1 >=? MEMORY_SIZE) then
    modify (set_halted true) ;;
    raise (RuntimeError (FetchOutOfBounds (pc s)))
  else
    let* hi := readMem (pc s) in
    let* lo := readMem (pc s + 1) in
    let opcode := Z.lor (Z.shiftl hi 8) lo in
    modify (fun s => set_pc (pc s + 2) s) ;;
    ret opcode.

(** [self._rand.getrandbits(8)] *)
Definition rand_byte : M Chip8 Z :=
  fun s => let (b, r) := getrandbits8 (_rand s) in (Ok b, set_rand r s).

(** [self.pc += 2] *)
Definition skip : M Chip8 unit := modify (fun s => set_pc (pc s + 2) s).

Definition decode_and_execute (opcode : Z) : M Chip8 unit :=
  let nnn := Z.land opcode 0x0FFF in
  let nn := Z.land opcode 0x00FF in
  let n := Z.land opcode 0x000F in
  let x := Z.shiftr (Z.land opcode 0x0F00) 8 in
  let y := Z.shiftr (Z.land opcode 0x00F0) 4 in
  let op := Z.shiftr (Z.land opcode 0xF000) 12 in
  if op =? 0x0 then
    if opcode =? 0x00E0 then
      modify (fun s => set_display (Display.clear (display s)) s)
    else if opcode =? 0x00EE then
      let* s := get in
      if sp s =? 0 then
        modify (set_halted true) ;;
        raise (RuntimeError StackUnderflow)
      else
        modify (fun s => set_sp (sp s - 1) s) ;;
        let* s := get in
        let* ret_addr := readStack (sp s) in
        modify (set_pc ret_addr)
    else ret tt
  else if op =? 0x1 then
    modify (set_pc nnn)
  else if op =? 0x2 then
    let* s := get in
    if sp s >=? STACK_SIZE then
      modify (set_halted true) ;;
      raise (RuntimeError StackOverflow)
    else
      writeStack (sp s) (pc s) ;;
      modify (fun s => set_sp (sp s + 1) s) ;;
      modify (set_pc nnn)
  else if op =? 0x3 then
    let* vx := readV x in
    when (vx =? nn) skip
  else if op =? 0x4 then
    let* vx := readV x in
    when (negb (vx =? nn)) skip
  else if op =? 0x5 then
    if n =? 0 then
      let* vx := readV x in
      let* vy := readV y in
      when (vx =? vy) skip
    else ret tt
  else if op =? 0x6 then
    writeV x nn
  else if op =? 0x7 then
    let* vx := readV x in
    writeV x (Z.land (vx + nn) 0xFF)
  else if op =? 0x8 then
    if n =? 0x0 then
      let* vy := readV y in
      writeV x vy
    else if n =? 0x1 then
      let* vx := readV x in
      let* vy := readV y in
      writeV x (Z.lor vx vy)
    else if n =? 0x2 then
      let* vx := readV x in
      let* vy := readV y in
      writeV x (Z.land vx vy)
    else if n =? 0x3 then
      let* vx := readV x in
      let* vy := readV y in
      writeV x (Z.lxor vx vy)
    else if n =? 0x4 then
      let* vx := readV x in
      let* vy := readV y in
      let sum_val := vx + vy in
      writeV x (Z.land sum_val 0xFF) ;;
      writeV 0xF (if sum_val >? 0xFF then 1 else 0)
    else if n =? 0x5 then
      let* vx := readV x in
      let* vy := readV y in
      writeV 0xF (if vx >? vy then 1 else 0) ;;
      let* vx := readV x in
      let* vy := readV y in
      writeV x (Z.land (vx - vy) 0xFF)
    else if n =? 0x6 then
      let* s := get in
      let* source := if QuirkConfig.shift_legacy (quirks s) then readV y else readV x in
      writeV 0xF (Z.land source 0x1) ;;
      writeV x (Z.land (Z.shiftr source 1) 0xFF)
    else if n =? 0x7 then
      let* vy := readV y in
      let* vx := readV x in
      writeV 0xF (if vy >? vx then 1 else 0) ;;
      let* vy := readV y in
      let* vx := readV x in
      writeV x (Z.land (vy - vx) 0xFF)
    else if n =? 0xE then
      let* s := get in
      let* source := if QuirkConfig.shift_legacy (quirks s) then readV y else readV x in
      writeV 0xF (Z.shiftr (Z.land source 0x80) 7) ;;
      writeV x (Z.land (Z.shiftl source 1) 0xFF)
    else ret tt
  else if op =? 0x9 then
    if n =? 0 then
      let* vx := readV x in
      let* vy := readV y in
      when (negb (vx =? vy)) skip
    else ret tt
  else if op =? 0xA then
    modify (set_I nnn)
  else if op =? 0xB then
    let* v0 := readV 0 in
    modify (set_pc (nnn + v0))
  else if op =? 0xC then
    let* byte := rand_byte in
    writeV x (Z.land byte nn)
  else if op =? 0xD then
    let* x_pos := readV x in
    let* y_pos := readV y in
    let* s := get in
    if I s + n >? MEMORY_SIZE then
      modify (set_halted true) ;;
      raise (RuntimeError SpriteOutOfBounds)
    else
      let* sprite := list_comp_from 0 (Z.to_nat n) (fun i => readMem (I s + i)) in
      let* collision :=
        zoom display set_display
             (Display.draw_sprite x_pos y_pos sprite n
                                  (QuirkConfig.draw_wrap (quirks s))) in
      writeV 0xF (if collision then 1 else 0)
  else if op =? 0xE then
    if nn =? 0x9E then
      let* vx := readV x in
      let* pressed := on_input (is_key_pressed vx) in
      when pressed skip
    else if nn =? 0xA1 then
      let* vx := readV x in
      let* pressed := on_input (is_key_pressed vx) in
      when (negb pressed) skip
    else ret tt
  else if op =? 0xF then
    if nn =? 0x07 then
      let* s := get in
      writeV x (delay_timer s)
    else if nn =? 0x0A then
      let* key := on_input wait_for_key in
      writeV x key
    else if nn =? 0x15 then
      let* vx := readV x in
      modify (set_delay_timer vx)
    else if nn =? 0x18 then
      let* vx := readV x in
      modify (fun s => set_sound (Sound.set_timer vx (sound s)) s)
    else if nn =? 0x1E then
      let* vx := readV x in
      modify (fun s => set_I (I s + vx) s)
    else if nn =? 0x29 then
      let* vx := readV x in
      modify (set_I (vx * 5))
    else if nn =? 0x33 then
      let* val := readV x in
      let* s := get in
      writeMem (I s) (val / 100) ;;
      writeMem (I s + 1) ((val / 10) mod 10) ;;
      writeMem (I s + 2) (val mod 10)
    else if nn =? 0x55 then
      for_range (x + 1) (fun i =>
        let* vi := readV i in
        let* s := get in
        writeMem (I s + i) vi) ;;
      let* s := get in
      when (QuirkConfig.load_store_increment_i (quirks s))
           (modify (fun s => set_I (I s + (x + 1)) s))
    else if nn =? 0x65 then
      for_range (x + 1) (fun i =>
        let* s := get in
        let* b := readMem (I s + i) in
        writeV i b) ;;
      let* s := get in
      when (QuirkConfig.load_store_increment_i (quirks s))
           (modify (fun s => set_I (I s + (x + 1)) s))
    else ret tt
  else ret tt.

Definition update_timers : M Chip8 unit :=
  let* s := get in
  when (delay_timer s >? 0) (modify (fun s => set_delay_timer (delay_timer s - 1) s)) ;;
  modify (fun s => set_sound (Sound.update (sound s)) s).

Definition render : M Chip8 unit :=
  modify (fun s => set_display (Display.render (display s)) s).

Definition step : M Chip8 unit :=
  let* s := get in
  if halted s then ret tt
  else
    on_input update_keys ;;
    let* opcode := fetch_opcode in
    decode_and_execute opcode.

(** [for _ in range(self.cycles_per_frame): if self.halted: break; self.step()] *)
Fixpoint run_steps (todo : nat) : M Chip8 unit :=
  match todo with
  | O => ret tt
  | S todo' =>
    let* s := get in
    if halted s then ret tt
    else step ;; run_steps todo'
  end.

Definition run_frame : M Chip8 unit :=
  let* s := get in
  if halted s then
    update_timers ;;
    render
  else
    when (using_pygame s) (on_input pump_events) ;;
    let* s := get in
    run_steps (Z.to_nat (cycles_per_frame s)) ;;
    update_timers ;;
    render.

(** *** Snapshots *)

(** [v.to_bytes(len, 'big')] *)
Fixpoint be_bytes (len : nat) (v : Z) : list Z :=
  match len with
  | O => []
  | S len' => be_bytes len' (v / 256) ++ [v mod 256]
  end.
Definition to_bytes (len : nat) (v : Z) : result (list Z) :=
  if (0 <=? v) && (v <? 256 ^ Z.of_nat len) then Ok (be_bytes len v)
  else Raise OverflowError.

(** [int.from_bytes(b, 'big')] *)
Definition from_bytes (b : list Z) : Z :=
  fold_left (fun acc byte => acc * 256 + byte) b 0.

(** [array('H').tobytes()] and [array.array('H', b)] use the byte order
    of the host. *)
Variable host_big_endian : bool.

Definition H_tobytes (a : list Z) : list Z :=
  flat_map (fun w => if host_big_endian then [w / 256; w mod 256]
                     else [w mod 256; w / 256]) a.

Fixpoint H_frombytes (b : list Z) : result (list Z) :=
  match b with
  | [] => Ok []
  | [_] => Raise ValueError
  | b0 :: b1 :: rest =>
    match H_frombytes rest with
    | Ok a => Ok ((if host_big_endian then b0 * 256 + b1 else b1 * 256 + b0) :: a)
    | Raise e => Raise e
    end
  end.

(** [save_state]: the engine is only read; the second component is what
    has been written to the file, also when a later write raised. *)
Definition save_state (s : Chip8) : result unit * list Z :=
  let f := memory s ++ V s ++ H_tobytes (stack s) in
  match to_bytes 2 (pc s) with
  | Raise e => (Raise e, f)
  | Ok b =>
    let f := f ++ b in
    match to_bytes 2 (I s) with
    | Raise e => (Raise e, f)
    | Ok b =>
      let f := f ++ b in
      match to_bytes 1 (sp s) with
      | Raise e => (Raise e, f)
      | Ok b =>
        let f := f ++ b in
        match to_bytes 1 (delay_timer s) with
        | Raise e => (Raise e, f)
        | Ok b =>
          let f := f ++ b in
          match to_bytes 1 (Sound.timer (sound s)) with
          | Raise e => (Raise e, f)
          | Ok b => (Ok tt, f ++ b)
          end
        end
      end
    end
  end.

(** [f.read(n)]: at most [n] bytes, and the rest of the file. *)
Definition read (n : Z) (f : list Z) : list Z * list Z :=
  (take (Z.to_nat n) f, drop (Z.to_nat n) f).

Definition load_state (file : list Z) : M Chip8 unit :=
  let '(b, f) := read MEMORY_SIZE file in
  modify (set_memory b) ;;
  let '(b, f) := read V_COUNT f in
  modify (set_V b) ;;
  let '(b, f) := read (STACK_SIZE * 2) f in
  let* a := lift (H_frombytes b) in
  modify (set_stack a) ;;
  let '(b, f) := read 2 f in
  modify (set_pc (from_bytes b)) ;;
  let '(b, f) := read 2 f in
  modify (set_I (from_bytes b)) ;;
  let '(b, f) := read 1 f in
  modify (set_sp (from_bytes b)) ;;
  let '(b, f) := read 1 f in
  modify (set_delay_timer (from_bytes b)) ;;
  let '(timer_byte, f) := read 1 f in
  when (negb (Nat.eqb (length timer_byte) 0))
       (modify (fun s => set_sound (Sound.set_timer (from_bytes timer_byte) (sound s)) s)).

(** *** Reset and ROM loading *)

Definition reset : M Chip8 unit :=
  for_range V_COUNT (fun i => writeV i 0) ;;
  modify (set_sp 0) ;;
  modify (set_pc 0x200) ;;
  modify (set_I 0) ;;
  modify (set_delay_timer 0) ;;
  modify (fun s => set_sound (Sound.set_timer 0 (sound s)) s) ;;
  modify (set_halted false).

(** [rom] is the content of the ROM file. *)
Definition load_rom (rom : list Z) : M Chip8 unit :=
  let max_len := MEMORY_SIZE - 0x200 in
  if Z.of_nat (length rom) >? max_len then raise ValueError
  else
    for_range (Z.of_nat (length rom)) (fun i =>
      let* byte := lift (getitem rom i) in
      writeMem (0x200 + i) byte) ;;
    modify (set_pc 0x200) ;;
    modify (set_halted false) ;;
    modify (set_rom_loaded true).

(** *** Construction *)

(** [Chip8.__init__].  Which backends come up depends on the machine:
    [tk_there] says whether [display_tk] could be imported, [pygame_up]
    whether the pygame window opened; [input] and [rand] are the fresh
    backend states.  Every display backend is built with
    [SCREEN_WIDTH] x [SCREEN_HEIGHT].  [fontset] is [FONTSET] of
    [constants.py]. *)
Definition new (cycles : Z) (cfg : option EmulatorConfig.t) (fontset : list Z)
           (tk_there pygame_up : bool) (input : K) (rand : R)
  : result unit * Chip8 :=
  let config := match cfg with
                | Some c => c
                | None => EmulatorConfig.Build cycles 10 false true false true
                                               QuirkConfig.default
                end in
  let using_pygame :=
    if EmulatorConfig.use_tk config && tk_there then false
    else if EmulatorConfig.use_pygame config then pygame_up
    else false in
  load_fontset fontset
    (mkChip8 (replicate (Z.to_nat MEMORY_SIZE) 0)
             (replicate (Z.to_nat V_COUNT) 0)
             (replicate (Z.to_nat STACK_SIZE) 0)
             0 0x200 0 0 config using_pygame
             (Display.init SCREEN_WIDTH SCREEN_HEIGHT)
             input
             (Sound.init (EmulatorConfig.sound_enabled config))
             (EmulatorConfig.debug config)
             (EmulatorConfig.cycles_per_frame config)
             false rand false).

(** ** main.py: the host frame loop *)

(** How [main] ends.  [while True] is cut at [frames] calls of
    [run_frame]; the clock only decides when a frame is due. *)
Inductive exit : Type :=
| StillRunning
| Stopped                 (* KeyboardInterrupt: "Emulation stopped.", return 0 *)
| Uncaught (e : exn).     (* any other exception leaves [main] *)

Fixpoint main_loop (frames : nat) (s : Chip8) : exit * Chip8 :=
  match frames with
  | O => (StillRunning, s)
  | S frames' =>
    match run_frame s with
    | (Ok _, s') => main_loop frames' s'
    | (Raise (HostError KeyboardInterrupt), s') =>
      (Stopped, set_sound (Sound.stop (sound s')) s')
    | (Raise e, s') => (Uncaught e, s')
    end
  end.
End Engine.

(** ** A concrete host *)

(** [input.py] when [sys.stdin.isatty()] is false: nothing is read from
    the terminal, [update_keys] returns at once and [wait_for_key] raises. *)
Module InputHandler.
Record t : Type := Build { keys : list bool }.

Definition init : t := Build (replicate 16 false).

Definition update_keys : HM t unit := fun self => (inr tt, self).

Definition is_key_pressed (key : Z) : HM t bool :=
  fun self => match getitem (keys self) key with
              | Ok b => (inr b, self)
              | Raise _ => (inl KeyIndexError, self)
              end.

Definition wait_for_key : HM t Z := fun self => (inl WaitForKeyUnsupported, self).
End InputHandler.

(** A generator whose outputs were recorded: each draw takes the next
    recorded value, masked to the 8 bits [getrandbits(8)] returns. *)
Module Tape.
Definition t : Type := list Z.
Definition getrandbits8 (self : t) : Z * t :=
  match self with
  | [] => (0, [])
  | b :: rest => (Z.land b 0xFF, rest)
  end.
End Tape.

#[export] Instance console_host : Host InputHandler.t Tape.t := {
  update_keys := InputHandler.update_keys;
  is_key_pressed := InputHandler.is_key_pressed;
  wait_for_key := InputHandler.wait_for_key;
  (* the console display has no [poll_events] *)
  pump_events := fun self => (inr tt, self);
  getrandbits8 := Tape.getrandbits8;
}.

(** [constants.py] is not among the sources and the specification does not
    list the font bytes, so [new] takes the table as a parameter.  The
    examples use the customary CHIP-8 font, sixteen glyphs of five bytes
    each (which Fx29's [I = Vx * 5] presupposes); no statement depends on
    its bytes. *)
Definition customary_font : list Z :=
  [0xF0; 0x90; 0x90; 0x90; 0xF0;   0x20; 0x60; 0x20; 0x20; 0x70;
   0xF0; 0x10; 0xF0; 0x80; 0xF0;   0xF0; 0x10; 0xF0; 0x10; 0xF0;
   0x90; 0x90; 0xF0; 0x10; 0x10;   0xF0; 0x80; 0xF0; 0x10; 0xF0;
   0xF0; 0x80; 0xF0; 0x90; 0xF0;   0xF0; 0x10; 0x20; 0x40; 0x40;
   0xF0; 0x90; 0xF0; 0x90; 0xF0;   0xF0; 0x90; 0xF0; 0x10; 0xF0;
   0xF0; 0x90; 0xF0; 0x90; 0x90;   0xE0; 0x90; 0xE0; 0x90; 0xE0;
   0xF0; 0x80; 0x80; 0x80; 0xF0;   0xE0; 0x90; 0x90; 0x90; 0xE0;
   0xF0; 0x80; 0xF0; 0x80; 0xF0;   0xF0; 0x80; 0xF0; 0x80; 0x80].

(** The machine right after [Chip8(cycles_per_frame=700)] where neither Tk
    nor pygame came up: console display, terminal input. *)
Definition fresh : Chip8 InputHandler.t Tape.t :=
  snd (new 700 None customary_font false false InputHandler.init []).

(** [fresh] with some registers and I set. *)
Definition with_regs (v : list Z) (i : Z) (s : Chip8 InputHandler.t Tape.t)
  : Chip8 InputHandler.t Tape.t := set_I i (set_V v s).

(** ** Reading an opcode *)

(** The fields [decode_and_execute] extracts, named for the statements
    below. *)
Definition op_class (opcode : Z) : Z := Z.shiftr (Z.land opcode 0xF000) 12.
Definition x_field (opcode : Z) : Z := Z.shiftr (Z.land opcode 0x0F00) 8.
Definition y_field (opcode : Z) : Z := Z.shiftr (Z.land opcode 0x00F0) 4.
Definition nnn_field (opcode : Z) : Z := Z.land opcode 0x0FFF.
Definition nn_field (opcode : Z) : Z := Z.land opcode 0x00FF.
Definition n_field (opcode : Z) : Z := Z.land opcode 0x000F.

(** Register [i] of a machine whose register file is complete. *)
Definition reg {K R} (s : Chip8 K R) (i : Z) : Z := V s !!! Z.to_nat i.

(** The same machine with the [jump_with_v0_quirk] switch set to [b]. *)
Definition set_jump_quirk {K R} (b : bool) (s : Chip8 K R) : Chip8 K R :=
  let c := config s in
  let q := EmulatorConfig.quirks c in
  set_config
    (EmulatorConfig.Build
       (EmulatorConfig.cycles_per_frame c) (EmulatorConfig.scale c)
       (EmulatorConfig.debug c) (EmulatorConfig.use_pygame c)
       (EmulatorConfig.use_tk c) (EmulatorConfig.sound_enabled c)
       (QuirkConfig.Build (QuirkConfig.shift_legacy q)
                          (QuirkConfig.load_store_increment_i q)
                          (QuirkConfig.draw_wrap q) b))
    s.

(** A register file given by the entries that are not zero. *)
Definition regs (entries : list (nat * Z)) : list Z :=
  fold_right (fun '(i, v) acc => <[i := v]> acc) (replicate 16 0) entries.

(** ** What an instruction does to the control state *)

(** An outcome is a fatal fault when it is one of the four
    [RuntimeError]s of [emulator.py]. *)
Definition is_fault {A} (r : result A) : bool :=
  match r with
  | Raise (RuntimeError _) => true
  | _ => false
  end.

(** No run of [m] ends in a fatal fault. *)
Definition no_fault {S A} (m : M S A) : Prop :=
  forall s, is_fault (fst (m s)) = false.

(** [latches m]: a run of [m] either leaves [halted] as it was and does
    not end in a fatal fault, or ends in a fatal fault with [halted] set. *)
Definition latch_step {K R A} (s : Chip8 K R) (out : result A * Chip8 K R) : Prop :=
  (halted (snd out) = halted s /\ is_fault (fst out) = false)
  \/ (halted (snd out) = true /\ is_fault (fst out) = true).

Definition latches {K R A} (m : M (Chip8 K R) A) : Prop :=
  forall s, latch_step s (m s).

(** [tame m]: [m] latches and leaves the stack pointer alone. *)
Definition tame {K R A} (m : M (Chip8 K R) A) : Prop :=
  forall s, sp (snd (m s)) = sp s /\ latch_step s (m s).

(** The stack pointer is within the stack, or one past its top. *)
Definition sp_ok {K R} (s : Chip8 K R) : Prop := 0 <= sp s <= STACK_SIZE.

(** [m] leaves the stack pointer within the stack, however it ends. *)
Definition keeps_sp_ok {K R A} (m : M (Chip8 K R) A) : Prop :=
  forall s, sp_ok s -> sp_ok (snd (m s)).

(** The machine after [calls], a list of opcodes, were executed in turn;
    the run ends at the first exception. *)
Fixpoint execute_all {K R} `{!Host K R} (opcodes : list Z) : M (Chip8 K R) unit :=
  match opcodes with
  | [] => ret tt
  | opcode :: rest => decode_and_execute opcode ;; execute_all rest
  end.

(** What one instruction may do to the stack pointer: nothing, pop one
    entry of a stack that is not empty, or push one on a stack that is not
    full. *)
Definition sp_step {K R A} (s : Chip8 K R) (out : result A * Chip8 K R) : Prop :=
  sp (snd out) = sp s
  \/ (sp s <> 0 /\ sp (snd out) = sp s - 1)
  \/ (sp s < STACK_SIZE /\ sp (snd out) = sp s + 1).

(** ** The two halves of a frame *)

(** The instruction half of [run_frame]: the event poll and the
    [cycles_per_frame] steps. *)
Definition instruction_phase {K R} `{!Host K R} : M (Chip8 K R) unit :=
  let* s := get in
  when (using_pygame s) (on_input pump_events) ;;
  let* s := get in
  run_steps (Z.to_nat (cycles_per_frame s)).

(** One tick of both timers followed by one [render]. *)
Definition ticked_and_presented {K R} (s : Chip8 K R) : Chip8 K R :=
  let s1 := if delay_timer s >? 0 then set_delay_timer (delay_timer s - 1) s else s in
  let s2 := set_sound (Sound.update (sound s1)) s1 in
  set_display (Display.render (display s2)) s2.

(** A machine about to fail: the ROM is the single instruction 00EE, a
    return with nothing on the stack; the delay timer is at 10, the sound
    timer at 5 and the cleared screen waits to be presented. *)
Definition about_to_underflow : Chip8 InputHandler.t Tape.t :=
  let s := snd (load_rom [0x00; 0xEE] fresh) in
  let s := set_display (Display.clear (display s)) s in
  let s := set_sound (Sound.set_timer 5 (sound s)) s in
  set_delay_timer 10 s.

(** ** What a snapshot holds *)

Definition in_range (bound v : Z) : bool := (0 <=? v) && (v <? bound).

(** An [array.array] of [len] items below [bound]. *)
Definition is_array (bound len : Z) (a : list Z) : bool :=
  (Z.of_nat (length a) =? len) && forallb (in_range bound) a.

(** The three arrays are as [__init__] types them. *)
Definition arrays_typed {K R} (s : Chip8 K R) : bool :=
  is_array B_bound MEMORY_SIZE (memory s)
  && is_array B_bound V_COUNT (V s)
  && is_array H_bound STACK_SIZE (stack s).

(** PC, SP and the two timers fit the widths [save_state] gives them. *)
Definition scalars_fit {K R} (s : Chip8 K R) : bool :=
  in_range 65536 (pc s) && in_range 256 (sp s)
  && in_range 256 (delay_timer s) && in_range 256 (Sound.timer (sound s)).




(** ** Sprite drawing, as the specification words it *)

(** The pixel grid has [height] lines of [width] pixels. *)
Definition grid_ok (d : Display.t) : bool :=
  (0 <? Display.width d) && (0 <? Display.height d)
  && (Z.of_nat (length (Display.pixels d)) =? Display.height d)
  && forallb (fun line => Z.of_nat (length line) =? Display.width d) (Display.pixels d).

Definition pixel (px : list (list Z)) (yy xx : Z) : Z :=
  (px !!! Z.to_nat yy) !!! Z.to_nat xx.

(** XOR the pixel at line [yy], column [xx]. *)
Definition toggle (px : list (list Z)) (yy xx : Z) : list (list Z) :=
  <[Z.to_nat yy := <[Z.to_nat xx := Z.lxor (pixel px yy xx) 1]> (px !!! Z.to_nat yy)]> px.

(** The items of [l] before the first one at which [stop] holds. *)
Fixpoint stop_at {A} (stop : A -> bool) (l : list A) : list A :=
  match l with
  | [] => []
  | a :: l' => if stop a then [] else a :: stop_at stop l'
  end.

(** The sprite rows that are processed, each with the line it targets:
    line [(y + row) mod height] when wrapping, else line [y + row], and
    the first row with [y + row >= height] ends the sprite. *)
Definition rows_drawn (h y : Z) (wrap : bool) (rows : list Z) : list (Z * Z) :=
  if wrap then (fun row => (row, (y + row) mod h)) <$> rows
  else (fun row => (row, y + row)) <$> stop_at (fun row => y + row >=? h) rows.

(** Bit [col] of a sprite byte, counted from the most significant. *)
Definition bit_from_msb (sprite_byte col : Z) : bool := Z.testbit sprite_byte (7 - col).

(** The columns a sprite byte sets, most significant bit first, zero bits
    skipped: column [(x + col) mod width] when wrapping, else column
    [x + col], and the first set bit with [x + col >= width] ends the row. *)
Definition columns_drawn (w x sprite_byte : Z) (wrap : bool) (cols : list Z) : list Z :=
  let set_bits := List.filter (bit_from_msb sprite_byte) cols in
  if wrap then (fun col => (x + col) mod w) <$> set_bits
  else (fun col => x + col) <$> stop_at (fun col => x + col >=? w) set_bits.

(** The pixels a draw call touches, in the order it touches them. *)
Definition targets_from (w h x y : Z) (sprite : list Z) (wrap : bool) (rows : list Z)
  : list (Z * Z) :=
  '(row, yy) ← rows_drawn h y wrap rows;
  (fun xx => (yy, xx)) <$> columns_drawn w x (sprite !!! Z.to_nat row) wrap (seqZ 0 8).

Definition targets (d : Display.t) (x y : Z) (sprite : list Z) (nrows : Z) (wrap : bool)
  : list (Z * Z) :=
  targets_from (Display.width d) (Display.height d) x y sprite wrap (seqZ 0 nrows).

(** One touch: a collision is recorded when the pixel is already set, and
    the pixel is XORed. *)
Definition plot (st : bool * list (list Z)) (t : Z * Z) : bool * list (list Z) :=
  (if pixel (snd st) (fst t) (snd t) =? 1 then true else fst st,
   toggle (snd st) (fst t) (snd t)).

Definition plot_all (ts : list (Z * Z)) (st : bool * list (list Z))
  : bool * list (list Z) :=
  fold_left plot ts st.

(** The draw call of the specification: collision flag and pixel grid
    after all touches, starting with no collision. *)
Definition draw_spec (d : Display.t) (x y : Z) (sprite : list Z) (nrows : Z) (wrap : bool)
  : bool * list (list Z) :=
  plot_all (targets d x y sprite nrows wrap) (false, Display.pixels d).

(** ** Grids and touches, for the proofs about drawing *)

(** [px] has [h] lines of [w] pixels. *)
Definition shaped (w h : Z) (px : list (list Z)) : Prop :=
  Z.of_nat (length px) = h
  /\ forall i line, px !! i = Some line -> Z.of_nat (length line) = w.

(** [t] is a pixel of the [w] x [h] grid. *)
Definition on_grid (w h : Z) (t : Z * Z) : Prop :=
  0 <= fst t < h /\ 0 <= snd t < w.

(** [t] is touched an odd number of times in [ts]. *)
Fixpoint flips (ts : list (Z * Z)) (t : Z * Z) : bool :=
  match ts with
  | [] => false
  | t' :: ts' => xorb (bool_decide (t' = t)) (flips ts' t)
  end.

(** The draw call touches at least one pixel. *)
Definition touches_a_pixel (d : Display.t) (x y : Z) (sprite : list Z) (nrows : Z)
           (wrap : bool) : bool :=
  match targets d x y sprite nrows wrap with
  | [] => false
  | _ :: _ => true
  end.

(** [m] does not consult the [jump_with_v0_quirk] switch: run with the
    switch set to [b], it ends as it does without, the switch carried
    along. *)
Definition blind_to_jump_quirk {K R A} (m : M (Chip8 K R) A) : Prop :=
  forall b s, m (set_jump_quirk b s) = (fst (m s), set_jump_quirk b (snd (m s))).

(** ** sound.py: the bell *)

(** [update] prints the terminal bell when the timer runs, no period is
    marked as playing and the sound is enabled. *)
Definition rings (self : Sound.t) : bool :=
  (0 <? Sound.timer self) && negb (Sound.playing self) && Sound.enabled self.

(** The number of bells printed by [n] calls of [update] in a row. *)
Fixpoint bells (n : nat) (self : Sound.t) : nat :=
  match n with
  | O => 0%nat
  | S n' => ((if rings self then 1 else 0) + bells n' (Sound.update self))%nat
  end.

(** The timer is a byte, and a period is marked as playing only while the
    timer runs. *)
Definition sound_ok (self : Sound.t) : Prop :=
  0 <= Sound.timer self < 256
  /\ (Sound.playing self = true -> 0 < Sound.timer self).

(** ** The machine as the engine keeps it *)

(** Typed arrays, scalars that fit their snapshot widths, a stack pointer
    within the stack, an index register that is not negative and a display
    grid of the declared size. *)
Definition well_formed {K R} (s : Chip8 K R) : Prop :=
  arrays_typed s = true
  /\ scalars_fit s = true
  /\ sp_ok s
  /\ 0 <= I s
  /\ grid_ok (display s) = true.

(** [well_formed] without the stack pointer, the program counter being at
    most [b]. *)
Definition ok_upto {K R} (b : Z) (s : Chip8 K R) : Prop :=
  arrays_typed s = true
  /\ 0 <= delay_timer s < 256
  /\ 0 <= Sound.timer (sound s) < 256
  /\ 0 <= I s
  /\ grid_ok (display s) = true
  /\ 0 <= pc s <= b.

(** From [ok_upto b], [m] keeps [ok_upto b] however it ends, and a value
    it returns satisfies [post]. *)
Definition yields {K R A} (b : Z) (post : A -> Prop) (m : M (Chip8 K R) A) : Prop :=
  forall s, ok_upto b s ->
            ok_upto b (snd (m s)) /\ forall a, fst (m s) = Ok a -> post a.

(** From [ok_upto b], [m] ends in [ok_upto b'], however it ends. *)
Definition ends {K R A} (b b' : Z) (m : M (Chip8 K R) A) : Prop :=
  forall s, ok_upto b s -> ok_upto b' (snd (m s)).

(** An opcode that matches no branch of [decode_and_execute]. *)
Definition unrecognised (opcode : Z) : bool :=
  let op := op_class opcode in
  let n := n_field opcode in
  let nn := nn_field opcode in
  ((op =? 0x0) && negb (opcode =? 0x00E0) && negb (opcode =? 0x00EE))
  || (((op =? 0x5) || (op =? 0x9)) && negb (n =? 0))
  || ((op =? 0x8) && negb (n <=? 7) && negb (n =? 0xE))
  || ((op =? 0xE) && negb (nn =? 0x9E) && negb (nn =? 0xA1))
  || ((op =? 0xF)
      && negb (existsb (Z.eqb nn) [0x07; 0x0A; 0x15; 0x18; 0x1E; 0x29; 0x33; 0x55; 0x65])).

(** ** Snapshot files of any length *)

(** The [len] bytes of a file from offset [off] on, fewer when the file
    ends before. *)
Definition file_slice (off len : Z) (file : list Z) : list Z :=
  take (Z.to_nat len) (drop (Z.to_nat off) file).

(** ** input_pygame.py *)

(** A pygame event, as far as the emulator looks at it: its type and, for
    key events, [pygame.key.name(event.key)]. *)
Inductive pygame_event : Type :=
| KEYDOWN (name : string)
| KEYUP (name : string)
| QUIT
| OtherEvent.

Module PygameInputHandler.
Record t : Type := Build {
  keymap : gmap string Z;
  keys : list bool;
}.

Definition init (keymap : gmap string Z) : t := Build keymap (replicate 16 false).

(** [self.keys[code] = b] *)
Definition set_key (code : Z) (b : bool) (self : t) : result t :=
  match setitem (keys self) code b with
  | Ok ks => Ok (Build (keymap self) ks)
  | Raise e => Raise e
  end.

Definition handle_event (event : pygame_event) (self : t) : result t :=
  match event with
  | KEYDOWN name =>
    match keymap self !! name with
    | Some code => set_key code true self
    | None => Ok self
    end
  | KEYUP name =>
    match keymap self !! name with
    | Some code => set_key code false self
    | None => Ok self
    end
  | _ => Ok self
  end.

Definition update_keys (self : t) : t := self.

Definition is_key_pressed (key : Z) (self : t) : result bool := getitem (keys self) key.

(** [wait_for_key] takes the events [pygame.event.wait()] delivers, one
    after the other.  The result is [None] while no delivered event ends
    the wait; otherwise it carries the events not yet taken. *)
Fixpoint wait_for_key (events : list pygame_event) (self : t)
  : option (result Z * t * list pygame_event) :=
  match events with
  | [] => None
  | QUIT :: rest => Some (Raise (HostError KeyboardInterrupt), self, rest)
  | KEYDOWN name :: rest =>
    match keymap self !! name with
    | Some code =>
      match set_key code true self with
      | Ok self' => Some (Ok code, self', rest)
      | Raise e => Some (Raise e, self, rest)
      end
    | None => wait_for_key rest self
    end
  | _ :: rest => wait_for_key rest self
  end.
End PygameInputHandler.

(** ** display_pygame.py: the event queue *)

Module PygameDisplay.
(** [poll_events]; [pending] is what [pygame.event.get()] returns. *)
Definition poll_events (pending : list pygame_event) : result (list pygame_event) :=
  if existsb (fun event => match event with QUIT => true | _ => false end) pending
  then Raise (HostError KeyboardInterrupt)
  else Ok pending.
End PygameDisplay.

(** [for ev in events: handler(ev)] of [run_frame]. *)
Fixpoint handle_events (events : list pygame_event) (self : PygameInputHandler.t)
  : result unit * PygameInputHandler.t :=
  match events with
  | [] => (Ok tt, self)
  | event :: rest =>
    match PygameInputHandler.handle_event event self with
    | Ok self' => handle_events rest self'
    | Raise e => (Raise e, self)
    end
  end.

(** The event section of [run_frame] with the pygame backend. *)
Definition poll_and_route (pending : list pygame_event) (self : PygameInputHandler.t)
  : result unit * PygameInputHandler.t :=
  match PygameDisplay.poll_events pending with
  | Raise e => (Raise e, self)
  | Ok events => handle_events events self
  end.

(** ** input.py on a terminal *)

(** The escape character, ['\x1b']. *)
Definition ESC : string := String (Ascii.ascii_of_nat 27) EmptyString.

(** [sys.stdin] on a terminal, as [select] and [read(1)] see it.  Characters
    are strings of length one, as [sys.stdin.read(1)] returns them.
    Python's text layer keeps the characters it has taken from the terminal
    and not yet handed out; the terminal keeps what it has ready, one item
    for each read it would answer at once, with the characters that read
    returns (none at an end of input).  A terminal that has hung up answers
    every read at once and without end; [pending] being a list, that
    terminal is not described. *)
Module Stdin.
Record t : Type := Build {
  buffered : list string;
  pending : list (list string);
}.

(** [select.select([sys.stdin], [], [], 0)[0]] is not empty: the terminal
    has a read ready.  What Python has buffered is not looked at. *)
Definition select (f : t) : bool :=
  match pending f with
  | [] => false
  | _ :: _ => true
  end.

(** The first character of what a read of the terminal returned (the empty
    string at an end of input), and the characters after it. *)
Definition first_of (chunk : list string) : string * list string :=
  match chunk with
  | [] => (EmptyString, [])
  | key :: rest => (key, rest)
  end.

(** [sys.stdin.read(1)]: the first buffered character; when none is
    buffered the terminal is read once, everything that read returns is
    buffered and its first character is handed out.  [None] where the call
    would wait for the terminal. *)
Definition read1 (f : t) : option (string * t) :=
  match buffered f with
  | key :: rest => Some (key, Build rest (pending f))
  | [] =>
    match pending f with
    | chunk :: later =>
      let (key, rest) := first_of chunk in Some (key, Build rest later)
    | [] => None
    end
  end.


End Stdin.

(** [input.py] when [sys.stdin.isatty()] holds. *)
Module TtyInputHandler.
Record t : Type := Build {
  keymap : gmap string Z;
  keys : list bool;
}.

Definition init (keymap : gmap string Z) : t := Build keymap (replicate 16 false).

(** The body of the loop of [update_keys] once [key] is read: a mapped key
    is marked, ESC raises, any other character is ignored. *)
Definition on_key (key : string) (self : t) : result t :=
  match keymap self !! key with
  | Some code =>
    match setitem (keys self) code true with
    | Ok ks => Ok (Build (keymap self) ks)
    | Raise e => Raise e
    end
  | None =>
    if String.eqb key ESC then Raise (HostError KeyboardInterrupt)
    else Ok self
  end.

(** The loop of [update_keys], from what the terminal has ready and what
    Python has buffered.  With nothing ready [select] ends the loop.  With
    a read ready, [read(1)] hands out the buffered characters one by one,
    [select] staying true; once none is buffered it takes that read from
    the terminal, hands out its first character and buffers the rest.  The
    result carries [sys.stdin] as the call leaves it. *)
Fixpoint update_keys_from (pending : list (list string))
  : list string -> t -> result unit * t * Stdin.t :=
  match pending with
  | [] => fun buffered self => (Ok tt, self, Stdin.Build buffered [])
  | chunk :: later =>
    fix from_buffer (buffered : list string) (self : t) {struct buffered}
      : result unit * t * Stdin.t :=
      match buffered with
      | key :: rest =>
        match on_key key self with
        | Ok self' => from_buffer rest self'
        | Raise e => (Raise e, self, Stdin.Build rest (chunk :: later))
        end
      | [] =>
        let (key, rest) := Stdin.first_of chunk in
        match on_key key self with
        | Ok self' => update_keys_from later rest self'
        | Raise e => (Raise e, self, Stdin.Build rest later)
        end
      end
  end.

(** [update_keys] *)
Definition update_keys (stdin : Stdin.t) (self : t) : result unit * t * Stdin.t :=
  update_keys_from (Stdin.pending stdin) (Stdin.buffered stdin) self.

Definition is_key_pressed (key : Z) (self : t) : result bool := getitem (keys self) key.

(** [wait_for_key]; [typed] are the characters [read(1)] hands out from now
    on, those Python has buffered first.  The result is [None] while none
    of them ends the wait. *)
Fixpoint wait_for_key (typed : list string) (self : t)
  : option (result Z * t * list string) :=
  match typed with
  | [] => None
  | key :: rest =>
    match keymap self !! key with
    | Some code =>
      match setitem (keys self) code true with
      | Ok ks => Some (Ok code, Build (keymap self) ks, rest)
      | Raise e => Some (Raise e, self, rest)
      end
    | None =>
      if String.eqb key ESC then Some (Raise (HostError KeyboardInterrupt), self, rest)
      else wait_for_key rest self
    end
  end.

End TtyInputHandler.

(** Every key code of the map is one of the sixteen keys. *)
Definition keymap_ok (keymap : gmap string Z) : Prop :=
  map_Forall (fun _ code => 0 <= code < 16) keymap.

(** The event is a press or a release of a key mapped to [code]. *)
Definition concerns (keymap : gmap string Z) (code : Z) (event : pygame_event) : bool :=
  match event with
  | KEYDOWN name | KEYUP name => bool_decide (keymap !! name = Some code)
  | _ => false
  end.

(** The event ends a [wait_for_key]: the window is closed, or a mapped key
    goes down. *)
Definition ends_the_wait (keymap : gmap string Z) (event : pygame_event) : bool :=
  match event with
  | QUIT => true
  | KEYDOWN name => bool_decide (is_Some (keymap !! name))
  | _ => false
  end.

(** [KEYMAP] of [constants.py] is not among the sources; the examples use
    the customary layout, no statement depends on it. *)
Definition customary_keymap : gmap string Z :=
  list_to_map
    [("1", 0x1); ("2", 0x2); ("3", 0x3); ("4", 0xC);
     ("q", 0x4); ("w", 0x5); ("e", 0x6); ("r", 0xD);
     ("a", 0x7); ("s", 0x8); ("d", 0x9); ("f", 0xE);
     ("z", 0xA); ("x", 0x0); ("c", 0xB); ("v", 0xF)]%string.

(** ** A session with the pygame backend *)

(** The input backend of a pygame session: the handler, and the events
    still to come, one batch for each call of [pygame.event.get()].  The
    recording ends where the window is closed: a wait that finds no key in
    what is left ends as a QUIT does. *)
Module PygameSession.
Record t : Type := Build {
  handler : PygameInputHandler.t;
  batches : list (list pygame_event);
}.

Definition init (keymap : gmap string Z) (batches : list (list pygame_event)) : t :=
  Build (PygameInputHandler.init keymap) batches.

(** The exceptions of the handler, seen from the engine. *)
Definition to_host {A} (r : result A) : host_exn + A :=
  match r with
  | Ok a => inr a
  | Raise (HostError h) => inl h
  | Raise _ => inl KeyIndexError
  end.

Definition update_keys : HM t unit := fun self => (inr tt, self).

Definition is_key_pressed (key : Z) : HM t bool :=
  fun self => (to_host (PygameInputHandler.is_key_pressed key (handler self)), self).

Definition wait_for_key : HM t Z :=
  fun self =>
    match PygameInputHandler.wait_for_key (concat (batches self)) (handler self) with
    | Some (r, handler', rest) => (to_host r, Build handler' [rest])
    | None => (inl KeyboardInterrupt, Build (handler self) [])
    end.

(** [display.poll_events()], then [handle_event] on each event. *)
Definition pump_events : HM t unit :=
  fun self =>
    match batches self with
    | [] => (inr tt, self)
    | pending :: later =>
      let (r, handler') := poll_and_route pending (handler self) in
      (to_host r, Build handler' later)
    end.
End PygameSession.

#[export] Instance pygame_host : Host PygameSession.t Tape.t := {
  update_keys := PygameSession.update_keys;
  is_key_pressed := PygameSession.is_key_pressed;
  wait_for_key := PygameSession.wait_for_key;
  pump_events := PygameSession.pump_events;
  getrandbits8 := Tape.getrandbits8;
}.

(** The machine right after [Chip8(cycles_per_frame=700)] where the pygame
    window opened, with the events of the session to come. *)
Definition fresh_pygame (batches : list (list pygame_event))
  : Chip8 PygameSession.t Tape.t :=
  snd (new 700 None customary_font false true
           (PygameSession.init customary_keymap batches) []).

(** ** Machines for the examples *)

(** The fresh console machine with the two-byte program 602A (V0 := 0x2A)
    loaded. *)
Definition loaded : Chip8 InputHandler.t Tape.t := snd (load_rom [0x60; 0x2A] fresh).

(** The fresh console machine with V0 = 254, V1 = 2, V2 = 100 and I at
    0x300. *)
Definition primed : Chip8 InputHandler.t Tape.t :=
  with_regs (regs [(0%nat, 254); (1%nat, 2); (2%nat, 100)]) 0x300 fresh.

(** The console machine a stack underflow has halted: [about_to_underflow]
    after the frame that faults. *)
Definition underflowed : Chip8 InputHandler.t Tape.t :=
  snd (run_frame about_to_underflow).

(** The fresh console machine with I beyond 16 bits. *)
Definition overgrown : Chip8 InputHandler.t Tape.t := set_I 70000 fresh.

(** A pygame handler with the key of code 4 down. *)
Definition q_down : PygameInputHandler.t :=
  PygameInputHandler.Build customary_keymap (<[4%nat := true]> (replicate 16 false)).

(** A terminal handler with the key of code 4 marked. *)
Definition q_marked : TtyInputHandler.t :=
  TtyInputHandler.Build customary_keymap (<[4%nat := true]> (replicate 16 false)).

(** q, p, ESC and w typed in one burst, nothing of it read yet. *)
Definition burst : Stdin.t := Stdin.Build [] [["q"; "p"; ESC; "w"]%string].

(** The rest of that burst in Python's buffer, and an x typed since. *)
Definition burst_then_x : Stdin.t :=
  Stdin.Build ["p"; ESC; "w"]%string [["x"]%string].

(* ===================================================================== *)
(** * Properties *)
(* ===================================================================== *)

(** ** Python sequences *)

Lemma py_index_in_range (len i : Z) :
  0 <= i < len -> py_index len i = Some (Z.to_nat i).
Proof.
  intros Hi. unfold py_index.
  destruct (Z.leb_spec 0 i); [|lia].
  destruct (Z.ltb_spec i len); [|lia]. reflexivity.
Qed.

Lemma py_index_too_big (len i : Z) :
  0 <= len <= i -> py_index len i = None.
Proof.
  intros Hi. unfold py_index.
  destruct (Z.ltb_spec i len); [lia|].
  destruct (Z.ltb_spec i 0); [lia|].
  by rewrite !andb_false_r.
Qed.

Lemma getitem_lookup {A} `{Inhabited A} (l : list A) (i : Z) :
  0 <= i < Z.of_nat (length l) -> getitem l i = Ok (l !!! Z.to_nat i).
Proof.
  intros Hi. unfold getitem. rewrite py_index_in_range by done.
  destruct (l !! Z.to_nat i) eqn:E.
  - by rewrite (list_lookup_total_correct _ _ _ E).
  - apply lookup_ge_None in E. lia.
Qed.

Lemma getitem_too_big {A} (l : list A) (i : Z) :
  Z.of_nat (length l) <= i -> getitem l i = Raise IndexError.
Proof. intros Hi. unfold getitem. by rewrite py_index_too_big by lia. Qed.

Lemma setitem_in_range {A} (l : list A) (i : Z) (v : A) :
  0 <= i < Z.of_nat (length l) -> setitem l i v = Ok (<[Z.to_nat i := v]> l).
Proof. intros Hi. unfold setitem. by rewrite py_index_in_range. Qed.

Lemma array_setitem_in_range (bound : Z) (a : list Z) (i v : Z) :
  0 <= i < Z.of_nat (length a) -> 0 <= v < bound ->
  array_setitem bound a i v = Ok (<[Z.to_nat i := v]> a).
Proof.
  intros Hi Hv. unfold array_setitem. rewrite py_index_in_range by done.
  destruct (Z.leb_spec 0 v); [|lia].
  destruct (Z.ltb_spec v bound); [|lia]. reflexivity.
Qed.

(** ** Runs that cannot end in a fatal fault *)

Lemma getitem_no_fault {A} (l : list A) (i : Z) : is_fault (getitem l i) = false.
Proof. unfold getitem. by repeat case_match. Qed.

Lemma setitem_no_fault {A} (l : list A) (i : Z) (v : A) :
  is_fault (setitem l i v) = false.
Proof. unfold setitem. by repeat case_match. Qed.

Lemma array_setitem_no_fault (bound : Z) (a : list Z) (i v : Z) :
  is_fault (array_setitem bound a i v) = false.
Proof. unfold array_setitem. by repeat case_match. Qed.

Lemma py_mod_no_fault (a b : Z) : is_fault (py_mod a b) = false.
Proof. unfold py_mod. by case_match. Qed.

Section NoFault.
Context {S : Type}.

Lemma no_fault_ret {A} (a : A) : no_fault (S := S) (ret a).
Proof. by intros s. Qed.

Lemma no_fault_gets {A} (f : S -> A) : no_fault (gets f).
Proof. by intros s. Qed.

Lemma no_fault_modify (f : S -> S) : no_fault (modify f).
Proof. by intros s. Qed.

Lemma no_fault_lift {A} (r : result A) :
  is_fault r = false -> no_fault (S := S) (lift r).
Proof. by intros Hr s. Qed.

Lemma no_fault_bind {A B} (m : M S A) (k : A -> M S B) :
  no_fault m -> (forall a, no_fault (k a)) -> no_fault (bind m k).
Proof.
  intros Hm Hk s. unfold bind. specialize (Hm s).
  destruct (m s) as [[a|e] s']; [apply Hk|exact Hm].
Qed.
End NoFault.

Lemma draw_cols_no_fault (todo : nat) (col x yy sprite_byte : Z) (wrap collision : bool) :
  no_fault (Display.draw_cols todo col x yy sprite_byte wrap collision).
Proof.
  revert col collision.
  induction todo as [|todo IH]; intros col collision; cbn [Display.draw_cols].
  - apply no_fault_ret.
  - case_match; [apply IH|].
    apply no_fault_bind; [apply no_fault_gets|intros w].
    apply no_fault_bind.
    { apply no_fault_lift. destruct wrap; [apply py_mod_no_fault|done]. }
    intros xx. case_match; [apply no_fault_ret|].
    apply no_fault_bind; [apply no_fault_gets|intros px].
    apply no_fault_bind; [apply no_fault_lift, getitem_no_fault|intros line].
    apply no_fault_bind; [apply no_fault_lift, getitem_no_fault|intros p].
    apply no_fault_bind; [apply no_fault_lift, setitem_no_fault|intros line'].
    apply no_fault_bind; [apply no_fault_lift, setitem_no_fault|intros px'].
    apply no_fault_bind; [apply no_fault_modify|intros _]. apply IH.
Qed.

Lemma draw_rows_no_fault (todo : nat) (row x y : Z) (sprite : list Z) (wrap collision : bool) :
  no_fault (Display.draw_rows todo row x y sprite wrap collision).
Proof.
  revert row collision.
  induction todo as [|todo IH]; intros row collision; cbn [Display.draw_rows].
  - apply no_fault_ret.
  - apply no_fault_bind; [apply no_fault_gets|intros h].
    apply no_fault_bind.
    { apply no_fault_lift. destruct wrap; [apply py_mod_no_fault|done]. }
    intros yy. case_match; [apply no_fault_ret|].
    apply no_fault_bind; [apply no_fault_lift, getitem_no_fault|intros b].
    apply no_fault_bind; [apply draw_cols_no_fault|intros c]. apply IH.
Qed.

Lemma draw_sprite_no_fault (x y : Z) (sprite : list Z) (nrows : Z) (wrap : bool) :
  no_fault (Display.draw_sprite x y sprite nrows wrap).
Proof.
  unfold Display.draw_sprite.
  apply no_fault_bind; [apply draw_rows_no_fault|intros c].
  apply no_fault_bind; [apply no_fault_modify|intros _]. apply no_fault_ret.
Qed.

(** ** Dispatch *)

(** Decide the comparisons of the cascade whose two sides are numerals. *)
Ltac closed_eqb :=
  repeat match goal with
  | |- context [Z.eqb (Zpos ?a) (Zpos ?b)] =>
      let v := eval vm_compute in (Z.eqb (Zpos a) (Zpos b)) in
      change (Z.eqb (Zpos a) (Zpos b)) with v
  | |- context [Z.eqb (Zpos ?a) Z0] => change (Z.eqb (Zpos a) Z0) with false
  | |- context [Z.eqb Z0 (Zpos ?a)] => change (Z.eqb Z0 (Zpos a)) with false
  | |- context [Z.eqb Z0 Z0] => change (Z.eqb Z0 Z0) with true
  end; cbv iota.

Lemma x_field_range (opcode : Z) : 0 <= x_field opcode < 16.
Proof.
  unfold x_field. rewrite Z.shiftr_land.
  change (Z.shiftr 3840 8) with (Z.ones 4). rewrite Z.land_ones by lia.
  apply Z.mod_pos_bound. lia.
Qed.

Lemma y_field_range (opcode : Z) : 0 <= y_field opcode < 16.
Proof.
  unfold y_field. rewrite Z.shiftr_land.
  change (Z.shiftr 240 4) with (Z.ones 4). rewrite Z.land_ones by lia.
  apply Z.mod_pos_bound. lia.
Qed.

Lemma n_field_range (opcode : Z) : 0 <= n_field opcode < 16.
Proof.
  unfold n_field. change 15 with (Z.ones 4). rewrite Z.land_ones by lia.
  apply Z.mod_pos_bound. lia.
Qed.

Lemma nn_field_range (opcode : Z) : 0 <= nn_field opcode < 256.
Proof.
  unfold nn_field. change 255 with (Z.ones 8). rewrite Z.land_ones by lia.
  apply Z.mod_pos_bound. lia.
Qed.

Lemma nnn_field_range (opcode : Z) : 0 <= nnn_field opcode < 4096.
Proof.
  unfold nnn_field. change 4095 with (Z.ones 12). rewrite Z.land_ones by lia.
  apply Z.mod_pos_bound. lia.
Qed.

Lemma land_255_range (v : Z) : 0 <= Z.land v 0xFF < 256.
Proof.
  change 255 with (Z.ones 8). rewrite Z.land_ones by lia. apply Z.mod_pos_bound. lia.
Qed.

Section EngineFacts.
Context {K R : Type} `{!Host K R}.
Implicit Types s : Chip8 K R.

Lemma readV_ok s (i : Z) :
  length (V s) = 16%nat -> 0 <= i < 16 -> readV i s = (Ok (reg s i), s).
Proof.
  intros HV Hi. unfold readV, reg. by rewrite getitem_lookup by (rewrite HV; lia).
Qed.

(** *** The jump quirk switch *)

Lemma blind_ret {A} (a : A) : blind_to_jump_quirk (K := K) (R := R) (ret a).
Proof. by intros b s. Qed.

Lemma blind_raise {A} (e : exn) : blind_to_jump_quirk (K := K) (R := R) (A := A) (raise e).
Proof. by intros b s. Qed.

Lemma blind_lift {A} (r : result A) : blind_to_jump_quirk (K := K) (R := R) (lift r).
Proof. by intros b s. Qed.

Lemma blind_bind {A B} (m : M (Chip8 K R) A) (k : A -> M (Chip8 K R) B) :
  blind_to_jump_quirk m -> (forall a, blind_to_jump_quirk (k a)) ->
  blind_to_jump_quirk (bind m k).
Proof.
  intros Hm Hk b s. unfold bind. rewrite Hm.
  destruct (m s) as [[a|e] s1]; cbn [fst snd]; [apply Hk|done].
Qed.

(** What is read from the state after [get] does not involve the switch. *)
Lemma blind_get_bind {B} (k : Chip8 K R -> M (Chip8 K R) B) :
  (forall s0, blind_to_jump_quirk (k s0)) ->
  (forall b s0, k (set_jump_quirk b s0) = k s0) ->
  blind_to_jump_quirk (bind get k).
Proof.
  intros Hk Hsame b s. unfold bind, get. rewrite Hsame. apply Hk.
Qed.

Lemma blind_modify (f : Chip8 K R -> Chip8 K R) :
  (forall b s, f (set_jump_quirk b s) = set_jump_quirk b (f s)) ->
  blind_to_jump_quirk (modify f).
Proof. intros Hf b s. unfold modify. by rewrite Hf. Qed.

Lemma blind_when (c : bool) (body : M (Chip8 K R) unit) :
  blind_to_jump_quirk body -> blind_to_jump_quirk (when c body).
Proof. intros Hb. destruct c; [done|apply blind_ret]. Qed.

Lemma blind_readV (i : Z) : blind_to_jump_quirk (K := K) (R := R) (readV i).
Proof. by intros b s. Qed.
Lemma blind_readMem (i : Z) : blind_to_jump_quirk (K := K) (R := R) (readMem i).
Proof. by intros b s. Qed.
Lemma blind_readStack (i : Z) : blind_to_jump_quirk (K := K) (R := R) (readStack i).
Proof. by intros b s. Qed.
Lemma blind_writeV (i v : Z) : blind_to_jump_quirk (K := K) (R := R) (writeV i v).
Proof.
  intros b s. unfold writeV. cbn [V set_jump_quirk set_config].
  by destruct (array_setitem B_bound (V s) i v).
Qed.
Lemma blind_writeMem (i v : Z) : blind_to_jump_quirk (K := K) (R := R) (writeMem i v).
Proof.
  intros b s. unfold writeMem. cbn [memory set_jump_quirk set_config].
  by destruct (array_setitem B_bound (memory s) i v).
Qed.
Lemma blind_writeStack (i v : Z) : blind_to_jump_quirk (K := K) (R := R) (writeStack i v).
Proof.
  intros b s. unfold writeStack. cbn [stack set_jump_quirk set_config].
  by destruct (array_setitem H_bound (stack s) i v).
Qed.
Lemma blind_on_input {A} (m : HM K A) : blind_to_jump_quirk (R := R) (on_input m).
Proof.
  intros b s. unfold on_input. cbn [input_handler set_jump_quirk set_config].
  by destruct (m (input_handler s)) as [[h|a] k].
Qed.
Lemma blind_rand_byte : blind_to_jump_quirk (K := K) (R := R) rand_byte.
Proof.
  intros b s. unfold rand_byte. cbn [_rand set_jump_quirk set_config].
  by destruct (getrandbits8 (_rand s)).
Qed.
Lemma blind_on_display {A} (m : M Display.t A) :
  blind_to_jump_quirk (K := K) (R := R) (zoom display set_display m).
Proof.
  intros b s. unfold zoom. cbn [display set_jump_quirk set_config].
  by destruct (m (display s)).
Qed.
Lemma blind_for_range_from (i : Z) (count : nat) (body : Z -> M (Chip8 K R) unit) :
  (forall j, blind_to_jump_quirk (body j)) -> blind_to_jump_quirk (for_range_from i count body).
Proof.
  intros Hb. revert i. induction count as [|count IH]; intros i; cbn [for_range_from].
  - apply blind_ret.
  - apply blind_bind; [apply Hb|intros _; apply IH].
Qed.
Lemma blind_list_comp_from {A} (i : Z) (count : nat) (f : Z -> M (Chip8 K R) A) :
  (forall j, blind_to_jump_quirk (f j)) -> blind_to_jump_quirk (list_comp_from i count f).
Proof.
  intros Hf. revert i. induction count as [|count IH]; intros i; cbn [list_comp_from].
  - apply blind_ret.
  - apply blind_bind; [apply Hf|intros a].
    apply blind_bind; [apply IH|intros rest]. apply blind_ret.
Qed.

Ltac blind_walk :=
  repeat lazymatch goal with
  | |- blind_to_jump_quirk (if ?c then _ else _) => destruct c
  | |- blind_to_jump_quirk (bind get _) =>
      apply blind_get_bind; [intros ?|intros ? ?; reflexivity]
  | |- blind_to_jump_quirk (bind _ _) => apply blind_bind; [|intros ?]
  | |- blind_to_jump_quirk (ret _) => apply blind_ret
  | |- blind_to_jump_quirk (raise _) => apply blind_raise
  | |- blind_to_jump_quirk (when _ _) => apply blind_when
  | |- blind_to_jump_quirk (readV _) => apply blind_readV
  | |- blind_to_jump_quirk (writeV _ _) => apply blind_writeV
  | |- blind_to_jump_quirk (readMem _) => apply blind_readMem
  | |- blind_to_jump_quirk (writeMem _ _) => apply blind_writeMem
  | |- blind_to_jump_quirk (readStack _) => apply blind_readStack
  | |- blind_to_jump_quirk (writeStack _ _) => apply blind_writeStack
  | |- blind_to_jump_quirk (on_input _) => apply blind_on_input
  | |- blind_to_jump_quirk rand_byte => apply blind_rand_byte
  | |- blind_to_jump_quirk (zoom display set_display _) => apply blind_on_display
  | |- blind_to_jump_quirk (for_range _ _) => unfold for_range
  | |- blind_to_jump_quirk (for_range_from _ _ _) => apply blind_for_range_from; intros ?
  | |- blind_to_jump_quirk (list_comp_from _ _ _) => apply blind_list_comp_from; intros ?
  | |- blind_to_jump_quirk (modify _) => apply blind_modify; intros ? ?; reflexivity
  end.

Lemma fetch_opcode_blind : blind_to_jump_quirk (K := K) (R := R) fetch_opcode.
Proof. unfold fetch_opcode. blind_walk. Qed.

Lemma decode_and_execute_blind (opcode : Z) :
  blind_to_jump_quirk (K := K) (R := R) (decode_and_execute opcode).
Proof. unfold decode_and_execute, skip. cbv zeta. blind_walk. Qed.

Lemma step_blind : blind_to_jump_quirk (K := K) (R := R) step.
Proof.
  unfold step. blind_walk.
  - apply fetch_opcode_blind.
  - apply decode_and_execute_blind.
Qed.

(** C10. For every machine state, whatever its quirk configuration,
    Bnnn sets PC to nnn + V0 and changes nothing else; setting the
    [jump_with_v0_quirk] switch either way gives the same run of the
    instruction, the switch itself carried along untouched.  No
    instruction at all consults the switch, nor does [step]. *)
Theorem Bnnn_adds_V0_whatever_the_quirk s (opcode : Z) (b : bool) :
  op_class opcode = 0xB ->
  length (V s) = 16%nat ->
  decode_and_execute opcode s
    = (Ok tt, set_pc (nnn_field opcode + reg s 0) s)
  /\ decode_and_execute opcode (set_jump_quirk b s)
    = (Ok tt, set_jump_quirk b (set_pc (nnn_field opcode + reg s 0) s))
  /\ (forall any : Z, blind_to_jump_quirk (K := K) (R := R) (decode_and_execute any))
  /\ blind_to_jump_quirk (K := K) (R := R) step.
Proof.
  intros Hop HV. unfold op_class in Hop.
  assert (Hrun : decode_and_execute opcode s
                 = (Ok tt, set_pc (nnn_field opcode + reg s 0) s)).
  { unfold decode_and_execute; cbv zeta; rewrite Hop; closed_eqb.
    unfold bind; rewrite readV_ok by (done || lia); reflexivity. }
  split; [exact Hrun|]. split.
  - rewrite decode_and_execute_blind, Hrun. reflexivity.
  - split; [apply decode_and_execute_blind|apply step_blind].
Qed.

(** C8 (amended). For every value of Vx, Fx29 sets I to Vx * 5 and
    changes nothing else; that is the glyph address of the low nibble of
    Vx exactly when Vx is at most 15. *)
Theorem Fx29_sets_I_to_five_times_Vx s (opcode : Z) :
  op_class opcode = 0xF ->
  nn_field opcode = 0x29 ->
  length (V s) = 16%nat ->
  decode_and_execute opcode s
    = (Ok tt, set_I (reg s (x_field opcode) * 5) s)
  /\ (0 <= reg s (x_field opcode) < 256 ->
      (reg s (x_field opcode) * 5 = (reg s (x_field opcode) mod 16) * 5
       <-> reg s (x_field opcode) <= 15)).
Proof.
  intros Hop Hnn HV. unfold op_class in Hop. unfold nn_field in Hnn.
  split.
  - unfold decode_and_execute; cbv zeta; rewrite Hop, Hnn; closed_eqb.
    unfold bind. fold (x_field opcode).
    rewrite readV_ok by (done || apply x_field_range). reflexivity.
  - intros Hb. split; intros Hx.
    + pose proof (Z.mod_pos_bound (reg s (x_field opcode)) 16). lia.
    + rewrite Z.mod_small by lia. done.
Qed.

(** *** The ALU group and VF *)

Lemma writeV_ok s (i v : Z) :
  length (V s) = 16%nat -> 0 <= i < 16 -> 0 <= v < 256 ->
  writeV i v s = (Ok tt, set_V (<[Z.to_nat i := v]> (V s)) s).
Proof.
  intros HV Hi Hv. unfold writeV.
  by rewrite array_setitem_in_range by (unfold B_bound; lia).
Qed.

(** 8xy4 writes the sum first and the carry last. *)
Lemma add_writes_the_flag_last s (opcode : Z) :
  op_class opcode = 0x8 -> n_field opcode = 0x4 ->
  length (V s) = 16%nat ->
  let vx := reg s (x_field opcode) in
  let vy := reg s (y_field opcode) in
  decode_and_execute opcode s
  = (Ok tt,
     set_V (<[15%nat := if vx + vy >? 0xFF then 1 else 0]>
              (<[Z.to_nat (x_field opcode) := Z.land (vx + vy) 0xFF]> (V s))) s).
Proof.
  intros Hop Hn HV vx vy. unfold op_class in Hop. unfold n_field in Hn.
  pose proof (x_field_range opcode) as Hx. pose proof (y_field_range opcode) as Hy.
  unfold decode_and_execute; cbv zeta; rewrite Hop, Hn; closed_eqb.
  fold (x_field opcode) (y_field opcode).
  unfold bind. rewrite !readV_ok by done.
  rewrite writeV_ok by (done || apply land_255_range).
  rewrite writeV_ok; [reflexivity| |lia|].
  - cbn [V set_V]. by rewrite length_insert.
  - destruct (_ >? _); lia.
Qed.

(** 8xy5 writes the flag first and the difference last; the difference
    is taken from the registers as the flag write left them. *)
Lemma sub_writes_the_flag_first s (opcode : Z) :
  op_class opcode = 0x8 -> n_field opcode = 0x5 ->
  length (V s) = 16%nat ->
  let flagged :=
    set_V (<[15%nat := if reg s (x_field opcode) >? reg s (y_field opcode) then 1 else 0]>
             (V s)) s in
  decode_and_execute opcode s
  = (Ok tt,
     set_V (<[Z.to_nat (x_field opcode) :=
                Z.land (reg flagged (x_field opcode) - reg flagged (y_field opcode)) 0xFF]>
              (V flagged)) s).
Proof.
  intros Hop Hn HV flagged. unfold op_class in Hop. unfold n_field in Hn.
  pose proof (x_field_range opcode) as Hx. pose proof (y_field_range opcode) as Hy.
  unfold decode_and_execute; cbv zeta; rewrite Hop, Hn; closed_eqb.
  fold (x_field opcode) (y_field opcode).
  unfold bind. rewrite !readV_ok by done.
  rewrite writeV_ok; [|done|lia|by destruct (_ >? _)].
  fold flagged.
  assert (length (V flagged) = 16%nat) as HV'.
  { unfold flagged. cbn [V set_V]. by rewrite length_insert. }
  rewrite !readV_ok by done.
  rewrite writeV_ok by (done || apply land_255_range). reflexivity.
Qed.
(** 8xy7 writes the flag first and the difference last. *)
Lemma subn_writes_the_flag_first s (opcode : Z) :
  op_class opcode = 0x8 -> n_field opcode = 0x7 ->
  length (V s) = 16%nat ->
  let flagged :=
    set_V (<[15%nat := if reg s (y_field opcode) >? reg s (x_field opcode) then 1 else 0]>
             (V s)) s in
  decode_and_execute opcode s
  = (Ok tt,
     set_V (<[Z.to_nat (x_field opcode) :=
                Z.land (reg flagged (y_field opcode) - reg flagged (x_field opcode)) 0xFF]>
              (V flagged)) s).
Proof.
  intros Hop Hn HV flagged. unfold op_class in Hop. unfold n_field in Hn.
  pose proof (x_field_range opcode) as Hx. pose proof (y_field_range opcode) as Hy.
  unfold decode_and_execute; cbv zeta; rewrite Hop, Hn; closed_eqb.
  fold (x_field opcode) (y_field opcode).
  unfold bind. rewrite !readV_ok by done.
  rewrite writeV_ok; [|done|lia|by destruct (_ >? _)].
  fold flagged.
  assert (length (V flagged) = 16%nat) as HV'.
  { unfold flagged. cbn [V set_V]. by rewrite length_insert. }
  rewrite !readV_ok by done.
  rewrite writeV_ok by (done || apply land_255_range). reflexivity.
Qed.

(** 8xy6 and 8xyE read their source once, write the bit shifted out to
    VF first and the shifted value to Vx last. *)
Lemma shifts_write_the_flag_first s (opcode : Z) :
  op_class opcode = 0x8 ->
  length (V s) = 16%nat ->
  let source :=
    reg s (if QuirkConfig.shift_legacy (EmulatorConfig.quirks (config s))
           then y_field opcode else x_field opcode) in
  (n_field opcode = 0x6 ->
   decode_and_execute opcode s
   = (Ok tt,
      set_V (<[Z.to_nat (x_field opcode) := Z.land (Z.shiftr source 1) 0xFF]>
               (<[15%nat := Z.land source 0x1]> (V s))) s))
  /\ (n_field opcode = 0xE ->
      decode_and_execute opcode s
      = (Ok tt,
         set_V (<[Z.to_nat (x_field opcode) := Z.land (Z.shiftl source 1) 0xFF]>
                  (<[15%nat := Z.shiftr (Z.land source 0x80) 7]> (V s))) s)).
Proof.
  intros Hop HV source. unfold op_class in Hop.
  pose proof (x_field_range opcode) as Hx. pose proof (y_field_range opcode) as Hy.
  assert (Hread : (if QuirkConfig.shift_legacy (EmulatorConfig.quirks (config s))
                   then readV (y_field opcode) else readV (x_field opcode)) s
                  = (Ok source, s)).
  { unfold source. destruct (QuirkConfig.shift_legacy _); by rewrite readV_ok. }
  assert (Hlow : 0 <= Z.land source 1 < 256).
  { change 1 with (Z.ones 1). rewrite Z.land_ones by lia.
    pose proof (Z.mod_pos_bound source (2 ^ 1)). lia. }
  assert (Hhigh : 0 <= Z.shiftr (Z.land source 128) 7 < 256).
  { rewrite Z.shiftr_land. change (Z.shiftr 128 7) with (Z.ones 1).
    rewrite Z.land_ones by lia. pose proof (Z.mod_pos_bound (Z.shiftr source 7) (2 ^ 1)). lia. }
  split; intros Hn; unfold n_field in Hn;
    unfold decode_and_execute; cbv zeta; rewrite Hop, Hn; closed_eqb;
    fold (x_field opcode) (y_field opcode);
    unfold bind at 1; unfold get at 1; cbv beta iota;
    unfold bind at 1; rewrite Hread; unfold bind;
    (rewrite writeV_ok by (done || lia));
    (rewrite writeV_ok;
     [reflexivity|cbn [V set_V]; by rewrite length_insert|lia|apply land_255_range]).
Qed.

(** *** Memory through I *)

(** Dxyn refuses a sprite that does not lie within memory before it
    reads any of it. *)
Lemma sprite_fetch_is_checked s (opcode : Z) :
  op_class opcode = 0xD ->
  length (V s) = 16%nat ->
  I s + n_field opcode > MEMORY_SIZE ->
  decode_and_execute opcode s
  = (Raise (RuntimeError SpriteOutOfBounds), set_halted true s).
Proof.
  intros Hop HV Hout. unfold op_class in Hop.
  unfold decode_and_execute; cbv zeta; rewrite Hop; closed_eqb.
  fold (x_field opcode) (y_field opcode) (n_field opcode).
  unfold bind at 1. rewrite readV_ok by (done || apply x_field_range).
  unfold bind at 1. rewrite readV_ok by (done || apply y_field_range).
  unfold bind at 1. unfold get at 1. cbv beta iota.
  destruct (Z.gtb_spec (I s + n_field opcode) MEMORY_SIZE); [reflexivity|lia].
Qed.

(** Fx55 with I on the last byte of memory and more than one register to
    store: V0 is stored, the store of V1 raises, nothing is undone. *)
Lemma store_runs_off_the_end s (opcode : Z) :
  op_class opcode = 0xF -> nn_field opcode = 0x55 ->
  1 <= x_field opcode ->
  length (V s) = 16%nat -> 0 <= reg s 0 < 256 ->
  length (memory s) = Z.to_nat MEMORY_SIZE ->
  I s = MEMORY_SIZE - 1 ->
  decode_and_execute opcode s
  = (Raise IndexError, set_memory (<[4095%nat := reg s 0]> (memory s)) s)
  /\ halted (set_memory (<[4095%nat := reg s 0]> (memory s)) s) = halted s.
Proof.
  intros Hop Hnn Hx HV Hv0 Hmem HI. split; [|reflexivity].
  unfold op_class in Hop. unfold nn_field in Hnn. unfold MEMORY_SIZE in *.
  pose proof (x_field_range opcode) as Hxr.
  unfold decode_and_execute; cbv zeta; rewrite Hop, Hnn; closed_eqb.
  fold (x_field opcode). unfold for_range.
  destruct (Z.to_nat (x_field opcode + 1)) as [|[|count]] eqn:Hcount; [lia|lia|].
  cbn [for_range_from]. unfold bind at 1 2 3.
  rewrite readV_ok by (done || lia). unfold bind at 1. unfold get at 1. cbv beta iota.
  unfold writeMem at 1. rewrite HI.
  rewrite array_setitem_in_range by (unfold B_bound; lia).
  unfold bind at 1 2. rewrite readV_ok by (done || lia).
  unfold bind at 1. unfold get at 1. cbv beta iota.
  unfold writeMem at 1. cbn [I memory set_memory]. rewrite HI.
  unfold array_setitem. rewrite py_index_too_big by (rewrite length_insert; lia).
  reflexivity.
Qed.

(** *** Call and return *)

Lemma call_pushes s (opcode : Z) :
  op_class opcode = 0x2 ->
  length (stack s) = 16%nat ->
  0 <= sp s < STACK_SIZE ->
  0 <= pc s < 65536 ->
  decode_and_execute opcode s
    = (Ok tt, set_pc (nnn_field opcode)
                (set_sp (sp s + 1)
                   (set_stack (<[Z.to_nat (sp s) := pc s]> (stack s)) s))).
Proof.
  intros Hop Hlen Hsp Hpc. unfold op_class in Hop.
  unfold decode_and_execute; cbv zeta; rewrite Hop; closed_eqb.
  unfold bind, get. cbv beta iota. unfold STACK_SIZE in *.
  destruct (Z.geb_spec (sp s) 16) as [|_]; [lia|].
  unfold writeStack, H_bound.
  rewrite array_setitem_in_range by (rewrite ?Hlen; lia).
  reflexivity.
Qed.

Lemma call_overflows s (opcode : Z) :
  op_class opcode = 0x2 ->
  STACK_SIZE <= sp s ->
  decode_and_execute opcode s
    = (Raise (RuntimeError StackOverflow), set_halted true s).
Proof.
  intros Hop Hsp. unfold op_class in Hop.
  unfold decode_and_execute; cbv zeta; rewrite Hop; closed_eqb.
  unfold bind, get. cbv beta iota. unfold STACK_SIZE in *.
  destruct (Z.geb_spec (sp s) 16); [reflexivity|lia].
Qed.

Lemma return_underflows s :
  sp s = 0 ->
  decode_and_execute 0x00EE s
    = (Raise (RuntimeError StackUnderflow), set_halted true s).
Proof.
  intros Hsp. unfold decode_and_execute; cbv zeta.
  change (Z.shiftr (Z.land 238 61440) 12) with 0. closed_eqb.
  unfold bind, get. cbv beta iota. rewrite Hsp. reflexivity.
Qed.

Lemma return_pops s :
  length (stack s) = 16%nat ->
  0 < sp s <= STACK_SIZE ->
  decode_and_execute 0x00EE s
    = (Ok tt, set_pc (stack s !!! Z.to_nat (sp s - 1)) (set_sp (sp s - 1) s)).
Proof.
  intros Hlen Hsp. unfold STACK_SIZE in *.
  unfold decode_and_execute; cbv zeta.
  change (Z.shiftr (Z.land 238 61440) 12) with 0. closed_eqb.
  unfold bind, get. cbv beta iota.
  destruct (Z.eqb_spec (sp s) 0); [lia|].
  unfold modify, readStack. cbn [sp stack set_sp].
  rewrite getitem_lookup by (rewrite Hlen; lia). reflexivity.
Qed.

(** *** The halted latch and the stack pointer *)

Lemma tame_ret {A} (a : A) : tame (K := K) (R := R) (ret a).
Proof. intros s. split; [done|by left]. Qed.

Lemma tame_get : tame (K := K) (R := R) get.
Proof. intros s. split; [done|by left]. Qed.

Lemma tame_lift {A} (r : result A) :
  is_fault r = false -> tame (K := K) (R := R) (lift r).
Proof. intros Hr s. split; [done|by left]. Qed.

Lemma tame_raise {A} (e : exn) :
  is_fault (A := A) (Raise e) = false -> tame (K := K) (R := R) (A := A) (raise e).
Proof. intros Hr s. split; [done|by left]. Qed.

Lemma tame_modify (f : Chip8 K R -> Chip8 K R) :
  (forall s, sp (f s) = sp s /\ halted (f s) = halted s) -> tame (modify f).
Proof. intros Hf s. destruct (Hf s). split; [done|by left]. Qed.

Lemma tame_bind {A B} (m : M (Chip8 K R) A) (k : A -> M (Chip8 K R) B) :
  tame m -> (forall a, tame (k a)) -> tame (bind m k).
Proof.
  intros Hm Hk s. unfold bind. specialize (Hm s).
  destruct (m s) as [[a|e] s1]; [|exact Hm].
  destruct Hm as [Hsp [[Hh _]|[_ Hf]]]; [|discriminate Hf].
  cbn in Hsp, Hh. specialize (Hk a s1). unfold latch_step in *.
  rewrite <- Hsp, <- Hh. exact Hk.
Qed.

Lemma tame_when (c : bool) (body : M (Chip8 K R) unit) :
  tame body -> tame (when c body).
Proof. intros Hb. destruct c; [exact Hb|apply tame_ret]. Qed.

(** [self.halted = True] followed by [raise RuntimeError(...)]. *)
Lemma tame_halt_and_raise {A} (f : fault) :
  tame (K := K) (R := R) (A := A) (modify (set_halted true) ;; raise (RuntimeError f)).
Proof. intros s. split; [done|by right]. Qed.

Lemma tame_readV (i : Z) : tame (K := K) (R := R) (readV i).
Proof.
  intros s. split; [done|left]. split; [done|apply getitem_no_fault].
Qed.

Lemma tame_readMem (i : Z) : tame (K := K) (R := R) (readMem i).
Proof.
  intros s. split; [done|left]. split; [done|apply getitem_no_fault].
Qed.

Lemma tame_writeV (i v : Z) : tame (K := K) (R := R) (writeV i v).
Proof.
  intros s. unfold writeV, latch_step.
  pose proof (array_setitem_no_fault B_bound (V s) i v) as Hn.
  destruct (array_setitem B_bound (V s) i v); cbn; auto.
Qed.

Lemma tame_writeMem (i v : Z) : tame (K := K) (R := R) (writeMem i v).
Proof.
  intros s. unfold writeMem, latch_step.
  pose proof (array_setitem_no_fault B_bound (memory s) i v) as Hn.
  destruct (array_setitem B_bound (memory s) i v); cbn; auto.
Qed.

Lemma tame_on_input {A} (m : HM K A) : tame (R := R) (on_input m).
Proof.
  intros s. unfold on_input, latch_step.
  destruct (m (input_handler s)) as [[h|a] k]; cbn; auto.
Qed.

Lemma tame_rand_byte : tame (K := K) (R := R) rand_byte.
Proof.
  intros s. unfold rand_byte, latch_step.
  destruct (getrandbits8 (_rand s)); cbn; auto.
Qed.

Lemma tame_on_display {A} (m : M Display.t A) :
  no_fault m -> tame (K := K) (R := R) (zoom display set_display m).
Proof.
  intros Hm s. unfold zoom, latch_step. specialize (Hm (display s)).
  destruct (m (display s)) as [r d]; cbn in *; auto.
Qed.

Lemma tame_for_range_from (i : Z) (count : nat) (body : Z -> M (Chip8 K R) unit) :
  (forall j, tame (body j)) -> tame (for_range_from i count body).
Proof.
  intros Hb. revert i. induction count as [|count IH]; intros i; cbn.
  - apply tame_ret.
  - apply tame_bind; [apply Hb|intros _; apply IH].
Qed.

Lemma tame_list_comp_from {A} (i : Z) (count : nat) (f : Z -> M (Chip8 K R) A) :
  (forall j, tame (f j)) -> tame (list_comp_from i count f).
Proof.
  intros Hf. revert i. induction count as [|count IH]; intros i; cbn.
  - apply tame_ret.
  - apply tame_bind; [apply Hf|intros a].
    apply tame_bind; [apply IH|intros rest]. apply tame_ret.
Qed.

(** Walk through an action built from the pieces above. *)
Ltac tame_walk :=
  repeat first
    [ apply tame_halt_and_raise
    | apply tame_bind; [|intros ?]
    | apply tame_ret | apply tame_get | apply tame_when
    | apply tame_readV | apply tame_writeV
    | apply tame_readMem | apply tame_writeMem
    | apply tame_on_input | apply tame_rand_byte
    | apply tame_on_display, draw_sprite_no_fault
    | apply tame_for_range_from; intros ?
    | apply tame_list_comp_from; intros ?
    | apply tame_modify; intros ?; split; reflexivity
    | match goal with |- tame (if ?c then _ else _) => destruct c end ].

Lemma fetch_opcode_tame : tame (K := K) (R := R) fetch_opcode.
Proof. unfold fetch_opcode. tame_walk. Qed.

Lemma tame_control_step {A} (m : M (Chip8 K R) A) s :
  tame m -> latch_step s (m s) /\ sp_step s (m s).
Proof. intros Hm. destruct (Hm s) as [Hsp Hl]. split; [done|by left]. Qed.

(** What any instruction does to [halted] and to the stack pointer. *)
Lemma decode_and_execute_control (opcode : Z) s :
  latch_step s (decode_and_execute opcode s)
  /\ sp_step s (decode_and_execute opcode s).
Proof.
  unfold decode_and_execute; cbv zeta.
  repeat lazymatch goal with
  | |- latch_step _ ((if ?c then _ else _) _) /\ _ => destruct c eqn:?
  end;
  try (apply tame_control_step; unfold skip; tame_walk; fail).
  - (* 00EE *)
    unfold bind, get; cbv beta iota.
    destruct (Z.eqb_spec (sp s) 0) as [Hz|Hnz].
    + split; [by right|by left].
    + unfold modify, readStack, latch_step, sp_step. cbn [sp stack set_sp].
      pose proof (getitem_no_fault (stack s) (sp s - 1)) as Hn.
      destruct (getitem (stack s) (sp s - 1)); cbn; auto.
  - (* 2nnn *)
    unfold bind, get; cbv beta iota. unfold STACK_SIZE.
    destruct (Z.geb_spec (sp s) 16) as [Hfull|Hroom].
    + split; [by right|by left].
    + unfold writeStack, latch_step, sp_step, STACK_SIZE.
      pose proof (array_setitem_no_fault H_bound (stack s) (sp s) (pc s)) as Hn.
      destruct (array_setitem H_bound (stack s) (sp s) (pc s)); cbn; auto.
Qed.

Lemma keeps_sp_ok_of_tame {A} (m : M (Chip8 K R) A) : tame m -> keeps_sp_ok m.
Proof. intros Hm s Hok. destruct (Hm s) as [Hsp _]. unfold sp_ok in *. by rewrite Hsp. Qed.

Lemma keeps_sp_ok_bind {A B} (m : M (Chip8 K R) A) (k : A -> M (Chip8 K R) B) :
  keeps_sp_ok m -> (forall a, keeps_sp_ok (k a)) -> keeps_sp_ok (bind m k).
Proof.
  intros Hm Hk s Hok. unfold bind. specialize (Hm s Hok).
  destruct (m s) as [[a|e] s1]; [by apply Hk|exact Hm].
Qed.

Lemma decode_and_execute_keeps_sp_ok (opcode : Z) :
  keeps_sp_ok (K := K) (R := R) (decode_and_execute opcode).
Proof.
  intros s Hok. unfold sp_ok in *.
  destruct (decode_and_execute_control opcode s) as [_ Hstep].
  unfold sp_step in Hstep. lia.
Qed.

Lemma step_keeps_sp_ok : keeps_sp_ok (K := K) (R := R) step.
Proof.
  unfold step. apply keeps_sp_ok_bind; [apply keeps_sp_ok_of_tame, tame_get|intros s0].
  destruct (halted s0); [apply keeps_sp_ok_of_tame, tame_ret|].
  apply keeps_sp_ok_bind; [apply keeps_sp_ok_of_tame, tame_on_input|intros _].
  apply keeps_sp_ok_bind; [apply keeps_sp_ok_of_tame, fetch_opcode_tame|intros opcode].
  apply decode_and_execute_keeps_sp_ok.
Qed.

Lemma run_steps_keeps_sp_ok (todo : nat) : keeps_sp_ok (K := K) (R := R) (run_steps todo).
Proof.
  induction todo as [|todo IH]; cbn [run_steps].
  - apply keeps_sp_ok_of_tame, tame_ret.
  - apply keeps_sp_ok_bind; [apply keeps_sp_ok_of_tame, tame_get|intros s0].
    destruct (halted s0); [apply keeps_sp_ok_of_tame, tame_ret|].
    apply keeps_sp_ok_bind; [apply step_keeps_sp_ok|intros _; apply IH].
Qed.

Lemma run_frame_keeps_sp_ok : keeps_sp_ok (K := K) (R := R) run_frame.
Proof.
  assert (Htail : keeps_sp_ok (K := K) (R := R) (update_timers ;; render)).
  { apply keeps_sp_ok_of_tame. unfold update_timers, render. tame_walk. }
  unfold run_frame. apply keeps_sp_ok_bind; [apply keeps_sp_ok_of_tame, tame_get|intros s0].
  destruct (halted s0); [exact Htail|].
  apply keeps_sp_ok_bind.
  { apply keeps_sp_ok_of_tame, tame_when, tame_on_input. }
  intros _. apply keeps_sp_ok_bind; [apply keeps_sp_ok_of_tame, tame_get|intros s1].
  apply keeps_sp_ok_bind; [apply run_steps_keeps_sp_ok|intros _]. exact Htail.
Qed.

(** Calls nest as long as there is room: [n] calls on a stack with [n]
    free entries all succeed. *)
Lemma calls_nest (calls : list Z) s :
  Forall (fun c => op_class c = 0x2) calls ->
  length (stack s) = 16%nat ->
  0 <= sp s ->
  sp s + Z.of_nat (length calls) <= STACK_SIZE ->
  0 <= pc s < 65536 ->
  exists s', execute_all calls s = (Ok tt, s')
             /\ sp s' = sp s + Z.of_nat (length calls)
             /\ halted s' = halted s
             /\ length (stack s') = 16%nat
             /\ 0 <= pc s' < 65536.
Proof.
  intros Hcalls. revert s.
  induction Hcalls as [|c calls Hc _ IH]; intros s Hlen Hsp0 Hroom Hpc.
  - exists s. cbn. repeat split; try done; lia.
  - cbn [length execute_all] in *. unfold bind.
    rewrite call_pushes by (done || lia).
    pose proof (nnn_field_range c) as Hn.
    destruct (IH (set_pc (nnn_field c)
                    (set_sp (sp s + 1)
                       (set_stack (<[Z.to_nat (sp s) := pc s]> (stack s)) s))))
      as (s' & Hrun & Hsp' & Hh & Hlen' & Hpc');
      cbn [stack sp pc set_pc set_sp set_stack]; try lia.
    { by rewrite length_insert. }
    exists s'. cbn [stack sp pc halted set_pc set_sp set_stack] in *.
    repeat split; try done; lia.
Qed.

(** C5. A call with room on the stack stores the current PC at the
    stack pointer, advances the pointer and jumps; a call on a full stack
    (pointer at 16) raises StackOverflow and sets halted; a return on an
    empty stack raises StackUnderflow and sets halted, any other return
    takes PC from the top entry and lowers the pointer.  So sixteen
    nested calls succeed and the seventeenth overflows, and no
    instruction, step or frame moves the stack pointer out of 0..16. *)
Theorem call_and_return_guard_the_stack s (opcode : Z) :
  length (stack s) = 16%nat ->
  0 <= pc s < 65536 ->
  (op_class opcode = 0x2 -> 0 <= sp s < STACK_SIZE ->
     decode_and_execute opcode s
     = (Ok tt, set_pc (nnn_field opcode)
                 (set_sp (sp s + 1)
                    (set_stack (<[Z.to_nat (sp s) := pc s]> (stack s)) s))))
  /\ (op_class opcode = 0x2 -> sp s = STACK_SIZE ->
     decode_and_execute opcode s
     = (Raise (RuntimeError StackOverflow), set_halted true s))
  /\ (sp s = 0 ->
     decode_and_execute 0x00EE s
     = (Raise (RuntimeError StackUnderflow), set_halted true s))
  /\ (0 < sp s <= STACK_SIZE ->
     decode_and_execute 0x00EE s
     = (Ok tt, set_pc (stack s !!! Z.to_nat (sp s - 1)) (set_sp (sp s - 1) s)))
  /\ (forall calls : list Z,
       Forall (fun c => op_class c = 0x2) calls ->
       length calls = 16%nat ->
       sp s = 0 ->
       exists s16,
         execute_all calls s = (Ok tt, s16)
         /\ sp s16 = STACK_SIZE
         /\ halted s16 = halted s
         /\ (op_class opcode = 0x2 ->
             decode_and_execute opcode s16
             = (Raise (RuntimeError StackOverflow), set_halted true s16)))
  /\ (sp_ok s ->
      sp_ok (snd (decode_and_execute opcode s))
      /\ sp_ok (snd (step s))
      /\ sp_ok (snd (run_frame s))).
Proof.
  intros Hlen Hpc. repeat apply conj.
  - intros Hop Hsp. by apply call_pushes.
  - intros Hop Hsp. apply call_overflows; [done|lia].
  - apply return_underflows.
  - by apply return_pops.
  - intros calls Hcalls Hn Hsp.
    destruct (calls_nest calls s Hcalls Hlen) as (s16 & Hrun & Hsp16 & Hh & _);
      [lia|rewrite Hn, Hsp; unfold STACK_SIZE; lia|done|].
    exists s16. rewrite Hn, Hsp in Hsp16. repeat split; try done.
    intros Hop. apply call_overflows; [done|]. rewrite Hsp16. unfold STACK_SIZE. lia.
  - intros Hok. split; [|split].
    + by apply decode_and_execute_keeps_sp_ok.
    + by apply step_keeps_sp_ok.
    + by apply run_frame_keeps_sp_ok.
Qed.

(** *** Scheduling: [step], [run_frame] *)

Lemma latches_of_tame {A} (m : M (Chip8 K R) A) : tame m -> latches m.
Proof. intros Hm s. apply Hm. Qed.

Lemma latches_bind {A B} (m : M (Chip8 K R) A) (k : A -> M (Chip8 K R) B) :
  latches m -> (forall a, latches (k a)) -> latches (bind m k).
Proof.
  intros Hm Hk s. unfold bind. specialize (Hm s).
  destruct (m s) as [[a|e] s1]; [|exact Hm].
  destruct Hm as [[Hh _]|[_ Hf]]; [|discriminate Hf].
  cbn in Hh. specialize (Hk a s1). unfold latch_step in *.
  rewrite <- Hh. exact Hk.
Qed.

Lemma decode_and_execute_latches (opcode : Z) :
  latches (K := K) (R := R) (decode_and_execute opcode).
Proof. intros s. apply decode_and_execute_control. Qed.

Lemma update_timers_tame : tame (K := K) (R := R) update_timers.
Proof. unfold update_timers. tame_walk. Qed.

Lemma render_tame : tame (K := K) (R := R) render.
Proof. unfold render. tame_walk. Qed.

Lemma step_latches : latches (K := K) (R := R) step.
Proof.
  unfold step. apply latches_bind; [apply latches_of_tame, tame_get|intros s0].
  destruct (halted s0); [apply latches_of_tame, tame_ret|].
  apply latches_bind; [apply latches_of_tame, tame_on_input|intros _].
  apply latches_bind; [apply latches_of_tame, fetch_opcode_tame|intros opcode].
  apply decode_and_execute_latches.
Qed.

Lemma run_steps_latches (todo : nat) : latches (K := K) (R := R) (run_steps todo).
Proof.
  induction todo as [|todo IH]; cbn [run_steps].
  - apply latches_of_tame, tame_ret.
  - apply latches_bind; [apply latches_of_tame, tame_get|intros s0].
    destruct (halted s0); [apply latches_of_tame, tame_ret|].
    apply latches_bind; [apply step_latches|intros _; apply IH].
Qed.

Lemma run_frame_latches : latches (K := K) (R := R) run_frame.
Proof.
  unfold run_frame. apply latches_bind; [apply latches_of_tame, tame_get|intros s0].
  destruct (halted s0).
  - apply latches_of_tame. apply tame_bind; [apply update_timers_tame|intros _].
    apply render_tame.
  - apply latches_bind.
    { apply latches_of_tame, tame_when, tame_on_input. }
    intros _. apply latches_bind; [apply latches_of_tame, tame_get|intros s1].
    apply latches_bind; [apply run_steps_latches|intros _].
    apply latches_of_tame. apply tame_bind; [apply update_timers_tame|intros _].
    apply render_tame.
Qed.

Lemma step_when_halted s : halted s = true -> step s = (Ok tt, s).
Proof. intros Hh. unfold step, bind, get. cbv beta iota. by rewrite Hh. Qed.

(** *** Loading and resetting *)

Lemma load_fontset_keeps_halted (fontset : list Z) s :
  halted (snd (load_fontset fontset s)) = halted s.
Proof.
  unfold load_fontset, for_range.
  generalize (Z.to_nat (Z.of_nat (length fontset))). intros count.
  generalize 0. revert s.
  induction count as [|count IH]; intros s i; cbn [for_range_from]; [done|].
  unfold bind at 1 2, lift at 1.
  destruct (getitem fontset i) as [b|e]; [|done].
  unfold writeMem at 1.
  destruct (array_setitem B_bound (memory s) i b) as [a|e]; [|done].
  by rewrite IH.
Qed.

Lemma new_not_halted (cycles : Z) (cfg : option EmulatorConfig.t) (fontset : list Z)
      (tk_there pygame_up : bool) (input : K) (rand : R) :
  halted (snd (new cycles cfg fontset tk_there pygame_up input rand)) = false.
Proof. unfold new. by rewrite load_fontset_keeps_halted. Qed.

(** Copying bytes into memory that has room for them. *)
Lemma copy_into_memory (src : list Z) (base : Z) (count : nat) (i : Z) s :
  Forall (fun b => 0 <= b < 256) src ->
  0 <= i -> i + Z.of_nat count <= Z.of_nat (length src) ->
  0 <= base -> base + i + Z.of_nat count <= Z.of_nat (length (memory s)) ->
  exists mem,
    for_range_from i count
      (fun i => let* byte := lift (getitem src i) in writeMem (base + i) byte) s
    = (Ok tt, set_memory mem s)
    /\ length mem = length (memory s).
Proof.
  intros Hsrc. revert i s.
  induction count as [|count IH]; intros i s Hi Hsrclen Hbase Hroom;
    cbn [for_range_from].
  - exists (memory s). split; [by destruct s|done].
  - unfold bind at 1 2. unfold lift at 1.
    rewrite getitem_lookup by lia.
    assert (Hb : 0 <= src !!! Z.to_nat i < 256).
    { apply (Forall_lookup_1 (fun b => 0 <= b < 256) src (Z.to_nat i)); [exact Hsrc|].
      apply list_lookup_lookup_total_lt. lia. }
    unfold writeMem at 1.
    rewrite array_setitem_in_range by (unfold B_bound; lia).
    destruct (IH (i + 1) (set_memory (<[Z.to_nat (base + i) := src !!! Z.to_nat i]> (memory s)) s))
      as (mem & Hrun & Hlen); cbn [memory set_memory]; rewrite ?length_insert; try lia.
    exists mem. split; [|rewrite Hlen; cbn [memory set_memory]; by rewrite length_insert].
    rewrite Hrun. reflexivity.
Qed.

Lemma load_rom_clears_halted (rom : list Z) s :
  Forall (fun b => 0 <= b < 256) rom ->
  Z.of_nat (length rom) <= MEMORY_SIZE - 0x200 ->
  length (memory s) = Z.to_nat MEMORY_SIZE ->
  exists s', load_rom rom s = (Ok tt, s') /\ halted s' = false /\ pc s' = 0x200.
Proof.
  intros Hrom Hfit Hmem. unfold load_rom. cbv zeta.
  destruct (Z.gtb_spec (Z.of_nat (length rom)) (MEMORY_SIZE - 512)) as [|_]; [lia|].
  unfold for_range. rewrite Nat2Z.id. unfold bind at 1.
  destruct (copy_into_memory rom 512 (length rom) 0 s Hrom) as (mem & Hrun & _);
    try (unfold MEMORY_SIZE in *; lia).
  rewrite Hrun. eexists. split; [reflexivity|]. split; reflexivity.
Qed.

(** [for i in range(V_COUNT): self.V[i] = 0] on a complete register file. *)
Lemma clear_registers (count : nat) (i : Z) s :
  0 <= i -> i + Z.of_nat count <= Z.of_nat (length (V s)) ->
  exists v,
    for_range_from i count (fun i => writeV i 0) s = (Ok tt, set_V v s)
    /\ length v = length (V s).
Proof.
  revert i s. induction count as [|count IH]; intros i s Hi Hroom; cbn [for_range_from].
  - exists (V s). split; [by destruct s|done].
  - unfold bind at 1. unfold writeV at 1.
    rewrite array_setitem_in_range by (unfold B_bound; lia).
    destruct (IH (i + 1) (set_V (<[Z.to_nat i := 0]> (V s)) s))
      as (v & Hrun & Hlen); cbn [V set_V]; rewrite ?length_insert; try lia.
    exists v. split; [|rewrite Hlen; cbn [V set_V]; by rewrite length_insert].
    rewrite Hrun. reflexivity.
Qed.

Lemma reset_clears_halted s :
  length (V s) = Z.to_nat V_COUNT ->
  exists s', reset s = (Ok tt, s') /\ halted s' = false /\ sp s' = 0 /\ pc s' = 0x200.
Proof.
  intros HV. unfold reset, for_range. unfold bind at 1.
  destruct (clear_registers (Z.to_nat V_COUNT) 0 s) as (v & Hrun & _); [lia|lia|].
  rewrite Hrun. eexists. split; [reflexivity|]. repeat split; reflexivity.
Qed.

Lemma load_state_keeps_halted (big : bool) (file : list Z) s :
  halted (snd (load_state big file s)) = halted s.
Proof.
  unfold load_state, read. cbv beta iota zeta.
  unfold bind, modify, lift, when.
  destruct (H_frombytes big _) as [a|e]; [|reflexivity].
  destruct (negb _); reflexivity.
Qed.

(** C9 (amended). The halted flag is false after construction.
    Fetching, executing, stepping and running a frame either leave it as
    it was and end without a fatal fault, or end in one of the four fatal
    faults with the flag set; so a set flag stays set.  Ticking timers,
    rendering and loading a snapshot leave it as it was.  A halted
    [step] does nothing at all.  Only [reset] and [load_rom] put the flag
    back to false. *)
Theorem halted_is_a_latch s (opcode : Z) (big : bool) (file rom : list Z) :
  (forall cycles cfg fontset tk_there pygame_up (input : K) (rand : R),
      halted (snd (new cycles cfg fontset tk_there pygame_up input rand)) = false)
  /\ latch_step s (fetch_opcode s)
  /\ latch_step s (decode_and_execute opcode s)
  /\ latch_step s (step s)
  /\ latch_step s (run_frame s)
  /\ halted (snd (update_timers s)) = halted s
  /\ halted (snd (render s)) = halted s
  /\ halted (snd (load_state big file s)) = halted s
  /\ (halted s = true -> step s = (Ok tt, s))
  /\ (length (V s) = Z.to_nat V_COUNT ->
      exists s', reset s = (Ok tt, s') /\ halted s' = false)
  /\ (Forall (fun b => 0 <= b < 256) rom ->
      Z.of_nat (length rom) <= MEMORY_SIZE - 0x200 ->
      length (memory s) = Z.to_nat MEMORY_SIZE ->
      exists s', load_rom rom s = (Ok tt, s') /\ halted s' = false).
Proof.
  repeat apply conj.
  - apply new_not_halted.
  - apply fetch_opcode_tame.
  - apply decode_and_execute_latches.
  - apply step_latches.
  - apply run_frame_latches.
  - destruct (update_timers_tame s) as [_ [[Hh _]|[_ Hf]]]; [done|].
    exfalso. revert Hf. unfold update_timers, bind, get, when, modify.
    cbv beta iota. by destruct (delay_timer s >? 0).
  - reflexivity.
  - apply load_state_keeps_halted.
  - apply step_when_halted.
  - intros HV. destruct (reset_clears_halted s HV) as (s' & Hr & Hh & _). eauto.
  - intros Hrom Hfit Hmem.
    destruct (load_rom_clears_halted rom s Hrom Hfit Hmem) as (s' & Hr & Hh & _).
    eauto.
Qed.

(** *** A frame *)

Lemma update_timers_then_render s :
  (update_timers ;; render) s = (Ok tt, ticked_and_presented s).
Proof.
  unfold update_timers, render, bind, get, when, modify, ticked_and_presented.
  cbv beta iota zeta. by destruct (delay_timer s >? 0).
Qed.

(** What a frame does, case by case.  A frame entered while halted
    executes nothing, ticks both timers once and presents once.  A frame
    entered running does its instruction phase; if that phase ends normally
    the frame ticks both timers once, presents once and returns; if it ends
    in an exception the frame ends there with that exception, no timer
    ticked and nothing presented.  After a fatal fault the engine is
    halted: a further call of [run_frame] would tick and present. *)
Theorem run_frame_ticks_and_presents_when_it_returns s :
  (halted s = true -> run_frame s = (Ok tt, ticked_and_presented s))
  /\ (halted s = false ->
      forall s', instruction_phase s = (Ok tt, s') ->
                 run_frame s = (Ok tt, ticked_and_presented s'))
  /\ (halted s = false ->
      forall e s', instruction_phase s = (Raise e, s') ->
                   run_frame s = (Raise e, s'))
  /\ (is_fault (fst (run_frame s)) = true ->
      run_frame (snd (run_frame s))
      = (Ok tt, ticked_and_presented (snd (run_frame s))))
  /\ (delay_timer (ticked_and_presented s)
      = (if delay_timer s >? 0 then delay_timer s - 1 else delay_timer s)
      /\ sound (ticked_and_presented s) = Sound.update (sound s)
      /\ display (ticked_and_presented s) = Display.render (display s)).
Proof.
  assert (Hhalted : forall t : Chip8 K R,
             halted t = true -> run_frame t = (Ok tt, ticked_and_presented t)).
  { intros t Ht. unfold run_frame. unfold bind at 1. unfold get at 1.
    cbv beta iota. rewrite Ht. apply update_timers_then_render. }
  repeat apply conj.
  - apply Hhalted.
  - intros Hrun s' Hphase. unfold run_frame, instruction_phase in *.
    unfold bind at 1. unfold get at 1. cbv beta iota. rewrite Hrun.
    unfold bind at 1 in Hphase. unfold get at 1 in Hphase.
    cbv beta iota in Hphase.
    unfold bind at 1. unfold bind at 1 in Hphase.
    destruct (when (using_pygame s) (on_input pump_events) s) as [[[]|e] s1];
      [|discriminate Hphase].
    unfold bind at 1. unfold get at 1. cbv beta iota.
    unfold bind at 1 in Hphase. unfold get at 1 in Hphase. cbv beta iota in Hphase.
    unfold bind at 1. rewrite Hphase. apply update_timers_then_render.
  - intros Hrun e s' Hphase. unfold run_frame, instruction_phase in *.
    unfold bind at 1. unfold get at 1. cbv beta iota. rewrite Hrun.
    unfold bind at 1 in Hphase. unfold get at 1 in Hphase.
    cbv beta iota in Hphase.
    unfold bind at 1. unfold bind at 1 in Hphase.
    destruct (when (using_pygame s) (on_input pump_events) s) as [[[]|e1] s1];
      [|exact Hphase].
    unfold bind at 1. unfold get at 1. cbv beta iota.
    unfold bind at 1 in Hphase. unfold get at 1 in Hphase. cbv beta iota in Hphase.
    unfold bind at 1. rewrite Hphase. reflexivity.
  - intros Hf. apply Hhalted.
    destruct (run_frame_latches s) as [[_ Hn]|[Hh _]]; [congruence|done].
  - unfold ticked_and_presented. by destruct (delay_timer s >? 0).
  - unfold ticked_and_presented. by destruct (delay_timer s >? 0).
  - unfold ticked_and_presented. by destruct (delay_timer s >? 0).
Qed.
End EngineFacts.

(** C8, the input at which the claim fails: with V0 = 31 the claim asks
    for I = (31 mod 16) * 5 = 75, the code sets I = 155. *)
Lemma Fx29_takes_the_whole_byte :
  let s := set_V (regs [(0%nat, 31)]) fresh in
  (31 mod 16) * 5 = 75 /\
  decode_and_execute 0xF029 s = (Ok tt, set_I 155 s).
Proof. split; reflexivity. Qed.

(** C5 at work: on the fresh machine the call 2345 stores PC = 0x200 in
    stack entry 0 and jumps to 0x345, and a return is an underflow. *)
Lemma call_and_return_on_the_fresh_machine :
  decode_and_execute 0x2345 fresh
  = (Ok tt, set_pc 0x345 (set_sp 1 (set_stack (<[0%nat := 0x200]> (stack fresh)) fresh)))
  /\ decode_and_execute 0x00EE fresh
    = (Raise (RuntimeError StackUnderflow), set_halted true fresh).
Proof.
  destruct (call_and_return_guard_the_stack fresh 0x2345 eq_refl
              (conj (proj1 (Z.leb_le 0 (pc fresh)) eq_refl)
                    (proj1 (Z.ltb_lt (pc fresh) 65536) eq_refl)))
    as (Hcall & _ & Hret & _).
  split.
  - apply Hcall; [reflexivity|].
    exact (conj (proj1 (Z.leb_le 0 (sp fresh)) eq_refl)
                (proj1 (Z.ltb_lt (sp fresh) STACK_SIZE) eq_refl)).
  - apply Hret. reflexivity.
Defined.

(** C9, the input at which the claim fails: the machine halted by a stack
    underflow runs again after [load_rom], which is neither a reset nor a
    construction. *)
Lemma load_rom_restarts_a_halted_machine :
  let s := snd (decode_and_execute 0x00EE fresh) in
  halted s = true
  /\ fst (load_rom [0x00; 0xE0] s) = Ok tt
  /\ halted (snd (load_rom [0x00; 0xE0] s)) = false.
Proof. vm_compute. repeat split. Qed.

(** C9 at work: a halted machine does not step. *)
Lemma halted_machine_does_not_step :
  step (set_halted true fresh) = (Ok tt, set_halted true fresh).
Proof.
  destruct (halted_is_a_latch (set_halted true fresh) 0 false [] [])
    as (_ & _ & _ & _ & _ & _ & _ & _ & Hstep & _).
  apply Hstep. reflexivity.
Defined.

(** C3, an input at which the code departs from the claim.  The frame in
    which the return underflows ends in that fault, the machine halted,
    with the delay timer still at 10, the sound timer still at 5 and the
    screen still waiting for its present: [step] raises through the loop of
    [run_frame], past [update_timers] and [render].  [main] catches only
    KeyboardInterrupt, so the fault ends its loop: the branch of
    [run_frame] that ticks and presents on a halted machine is never
    reached from it. *)
Lemma faulting_frame_neither_ticks_nor_presents :
  let out := run_frame about_to_underflow in
  halted about_to_underflow = false
  /\ delay_timer about_to_underflow = 10
  /\ Sound.timer (sound about_to_underflow) = 5
  /\ Display.draw_flag (display about_to_underflow) = true
  /\ fst out = Raise (RuntimeError StackUnderflow)
  /\ halted (snd out) = true
  /\ delay_timer (snd out) = 10
  /\ Sound.timer (sound (snd out)) = 5
  /\ Display.draw_flag (display (snd out)) = true
  /\ fst (main_loop 3 about_to_underflow) = Uncaught (RuntimeError StackUnderflow).
Proof. vm_compute. repeat split. Qed.

(** Had the caller gone on after the fault: the next frame is entered
    halted; it ticks the delay timer to 9, the sound timer to 4 and
    presents. *)
Lemma frame_after_the_fault_ticks_and_presents :
  let s := snd (run_frame about_to_underflow) in
  run_frame s = (Ok tt, ticked_and_presented s)
  /\ delay_timer (ticked_and_presented s) = 9
  /\ Sound.timer (sound (ticked_and_presented s)) = 4
  /\ Display.draw_flag (display (ticked_and_presented s)) = false.
Proof.
  split.
  - destruct (run_frame_ticks_and_presents_when_it_returns
                (snd (run_frame about_to_underflow))) as (Hhalted & _).
    apply Hhalted. vm_compute. reflexivity.
  - vm_compute. repeat split.
Defined.

(** C1, inputs at which the code departs from the claim.  8xy5, 8xy6, 8xy7
    and 8xyE write VF first and the result second (8xy4 writes the result
    first and VF last).  With x = F the result lands on the flag; with
    y = F the subtraction reads the flag where it should read the operand. *)
Theorem flag_is_written_before_the_result :
  (* 8F15, VF = 5, V1 = 3: the flag is 1 (5 > 3); VF ends as (1 - 3) & 0xFF *)
  V (snd (decode_and_execute 0x8F15 (set_V (regs [(15%nat, 5); (1%nat, 3)]) fresh)))
  = regs [(15%nat, 254); (1%nat, 3)]
  (* 81F5, V1 = 5, VF = 3: the flag is 1; V1 ends as 5 - 1, not 5 - 3 *)
  /\ V (snd (decode_and_execute 0x81F5 (set_V (regs [(15%nat, 3); (1%nat, 5)]) fresh)))
    = regs [(15%nat, 1); (1%nat, 4)]
  (* 8F17, VF = 3, V1 = 5: the flag is 1 (5 > 3); VF ends as 5 - 1 *)
  /\ V (snd (decode_and_execute 0x8F17 (set_V (regs [(15%nat, 3); (1%nat, 5)]) fresh)))
    = regs [(15%nat, 4); (1%nat, 5)]
  (* 8F06, VF = 5: the bit shifted out is 1; VF ends as 5 >> 1 *)
  /\ V (snd (decode_and_execute 0x8F06 (set_V (regs [(15%nat, 5)]) fresh)))
    = regs [(15%nat, 2)]
  (* 8F0E, VF = 0x81: the bit shifted out is 1; VF ends as (0x81 << 1) & 0xFF *)
  /\ V (snd (decode_and_execute 0x8F0E (set_V (regs [(15%nat, 0x81)]) fresh)))
    = regs [(15%nat, 2)]
  (* 8F14, VF = 200, V1 = 100: the sum is 300; VF ends as the carry, 1 *)
  /\ V (snd (decode_and_execute 0x8F14 (set_V (regs [(15%nat, 200); (1%nat, 100)]) fresh)))
    = regs [(15%nat, 1); (1%nat, 100)].
Proof. repeat apply conj; vm_compute; reflexivity. Qed.

(** C2, inputs at which the code departs from the claim.  Dxyn checks the
    sprite range first and halts; Fx33, Fx55 and Fx65 check nothing: each
    access is made in turn, the first one past the end of memory raises
    IndexError, what was transferred before stays and halted stays false. *)
Theorem load_store_transfer_until_the_end_of_memory :
  (* F155, I = 4095, V0 = 7, V1 = 9: memory[4095] = 7, then memory[4096] *)
  (let s := with_regs (regs [(0%nat, 7); (1%nat, 9)]) 4095 fresh in
   decode_and_execute 0xF155 s
   = (Raise IndexError, set_memory (<[4095%nat := 7]> (memory s)) s))
  (* F033, I = 4095, V0 = 123: memory[4095] = 1, then memory[4096] *)
  /\ (let s := with_regs (regs [(0%nat, 123)]) 4095 fresh in
     decode_and_execute 0xF033 s
     = (Raise IndexError, set_memory (<[4095%nat := 1]> (memory s)) s))
  (* F165, I = 4095, memory[4095] = 0xAB: V0 = 0xAB, then memory[4096] *)
  /\ (let s := set_I 4095 (set_memory (<[4095%nat := 0xAB]> (memory fresh)) fresh) in
     decode_and_execute 0xF165 s
     = (Raise IndexError, set_V (regs [(0%nat, 0xAB)]) s))
  (* D001, I = 4096: refused before any read, and halted *)
  /\ (let s := set_I 4096 fresh in
     decode_and_execute 0xD001 s
     = (Raise (RuntimeError SpriteOutOfBounds), set_halted true s)).
Proof. repeat apply conj; vm_compute; reflexivity. Qed.

(** ** Snapshots *)

Lemma in_range_spec (bound v : Z) : in_range bound v = true <-> 0 <= v < bound.
Proof. unfold in_range. rewrite andb_true_iff, Z.leb_le, Z.ltb_lt. tauto. Qed.

Lemma to_bytes_fits (len : nat) (v : Z) :
  0 <= v < 256 ^ Z.of_nat len -> to_bytes len v = Ok (be_bytes len v).
Proof.
  intros Hv. unfold to_bytes.
  destruct (Z.leb_spec 0 v); [|lia].
  destruct (Z.ltb_spec v (256 ^ Z.of_nat len)); [|lia]. reflexivity.
Qed.

Lemma to_bytes_overflows (len : nat) (v : Z) :
  ~ 0 <= v < 256 ^ Z.of_nat len -> to_bytes len v = Raise OverflowError.
Proof.
  intros Hv. unfold to_bytes.
  destruct (Z.leb_spec 0 v); [|reflexivity].
  destruct (Z.ltb_spec v (256 ^ Z.of_nat len)); [lia|reflexivity].
Qed.


Lemma from_bytes_2 (v : Z) : 0 <= v < 65536 -> from_bytes (be_bytes 2 v) = v.
Proof.
  intros Hv. cbn. rewrite (Z.mod_small (v / 256)).
  - pose proof (Z.div_mod v 256). lia.
  - split; [apply Z.div_pos; lia|apply Z.div_lt_upper_bound; lia].
Qed.


Lemma H_tobytes_length (big : bool) (a : list Z) :
  length (H_tobytes big a) = (2 * length a)%nat.
Proof.
  unfold H_tobytes. induction a as [|w a IH]; [done|].
  cbn [flat_map]. rewrite length_app, IH. destruct big; cbn; lia.
Qed.


(** Words survive the trip through bytes, in either byte order. *)
Lemma H_frombytes_tobytes (big : bool) (a : list Z) :
  H_frombytes big (H_tobytes big a) = Ok a.
Proof.
  unfold H_tobytes. induction a as [|w a IH]; [done|].
  cbn [flat_map].
  pose proof (Z.div_mod w 256).
  destruct big; cbn [app H_frombytes]; rewrite IH; f_equal; f_equal; lia.
Qed.

Lemma read_app (n : Z) (a rest : list Z) :
  Z.to_nat n = length a -> read n (a ++ rest) = (a, rest).
Proof.
  intros Hn. unfold read. by rewrite take_app_length', drop_app_length'.
Qed.

Lemma read_all (n : Z) (a : list Z) :
  Z.to_nat n = length a -> read n a = (a, []).
Proof.
  intros Hn. unfold read. by rewrite take_ge, drop_ge by lia.
Qed.

Lemma is_array_spec (bound len : Z) (a : list Z) :
  is_array bound len a = true ->
  Z.of_nat (length a) = len /\ forallb (in_range bound) a = true.
Proof. unfold is_array. rewrite andb_true_iff, Z.eqb_eq. tauto. Qed.

Section Snapshot.
Context {K R : Type}.
Implicit Types s t : Chip8 K R.


End Snapshot.



(** ** Sprite drawing *)

Lemma land_pow2_eqb (a k : Z) :
  0 <= k -> (Z.land a (2 ^ k) =? 0) = negb (Z.testbit a k).
Proof.
  intros Hk. destruct (Z.testbit a k) eqn:Hbit; cbn [negb].
  - apply Z.eqb_neq. intros H0.
    assert (Z.testbit (Z.land a (2 ^ k)) k = true) as Ht.
    { by rewrite Z.land_spec, Hbit, Z.pow2_bits_true. }
    rewrite H0, Z.bits_0 in Ht. discriminate.
  - apply Z.eqb_eq, Z.bits_inj'. intros n Hn.
    rewrite Z.land_spec, Z.bits_0, Z.pow2_bits_eqb by done.
    destruct (Z.eqb_spec k n) as [->|]; [by rewrite Hbit|apply andb_false_r].
Qed.

Lemma sprite_bit_test (sprite_byte col : Z) :
  0 <= col < 8 ->
  (Z.land sprite_byte (Z.shiftr 0x80 col) =? 0) = negb (bit_from_msb sprite_byte col).
Proof.
  intros Hcol. unfold bit_from_msb. rewrite <- land_pow2_eqb by lia. f_equal. f_equal.
  change 128 with (2 ^ 7). rewrite Z.shiftr_div_pow2 by lia.
  rewrite <- Z.pow_sub_r by lia. reflexivity.
Qed.

Lemma grid_ok_spec (d : Display.t) :
  grid_ok d = true ->
  0 < Display.width d /\ 0 < Display.height d
  /\ Z.of_nat (length (Display.pixels d)) = Display.height d
  /\ forall i line, Display.pixels d !! i = Some line -> Z.of_nat (length line) = Display.width d.
Proof.
  unfold grid_ok. rewrite !andb_true_iff, !Z.ltb_lt, Z.eqb_eq, forallb_forall.
  intros [[[Hw Hh] Hlen] Hall]. repeat split; try done.
  intros i line Hline. apply Z.eqb_eq, Hall, list_elem_of_In, list_elem_of_lookup. eauto.
Qed.

Lemma grid_ok_intro (d : Display.t) :
  0 < Display.width d -> 0 < Display.height d ->
  Z.of_nat (length (Display.pixels d)) = Display.height d ->
  (forall i line, Display.pixels d !! i = Some line -> Z.of_nat (length line) = Display.width d) ->
  grid_ok d = true.
Proof.
  intros Hw Hh Hlen Hall. unfold grid_ok.
  rewrite !andb_true_iff, !Z.ltb_lt, Z.eqb_eq, forallb_forall. repeat split; try done.
  intros line Hin. apply list_elem_of_In, list_elem_of_lookup in Hin as [i Hi].
  apply Z.eqb_eq. eauto.
Qed.

(** Toggling a pixel inside the grid keeps the grid's shape. *)
Lemma grid_ok_toggle (d : Display.t) (yy xx : Z) :
  grid_ok d = true ->
  grid_ok (Display.set_pixels (toggle (Display.pixels d) yy xx) d) = true.
Proof.
  intros Hd. apply grid_ok_spec in Hd as (Hw & Hh & Hlen & Hall).
  apply grid_ok_intro; cbn [Display.width Display.height Display.pixels Display.set_pixels];
    try done.
  - unfold toggle. by rewrite length_insert.
  - intros i line. unfold toggle.
    destruct (decide (i = Z.to_nat yy)) as [->|Hne].
    + intros Hl. apply list_lookup_insert_Some in Hl as [(_ & <- & Hlt)|[? _]]; [|done].
      rewrite length_insert. apply (Hall (Z.to_nat yy)).
      by apply list_lookup_lookup_total_lt.
    + rewrite list_lookup_insert_ne by done. apply Hall.
Qed.

Lemma plot_all_cons (t : Z * Z) (ts : list (Z * Z)) st :
  plot_all (t :: ts) st = plot_all ts (plot st t).
Proof. reflexivity. Qed.

Lemma plot_all_app (ts1 ts2 : list (Z * Z)) st :
  plot_all (ts1 ++ ts2) st = plot_all ts2 (plot_all ts1 st).
Proof. apply fold_left_app. Qed.

Lemma grid_ok_plot_all (d : Display.t) (ts : list (Z * Z)) (c : bool) :
  grid_ok d = true ->
  grid_ok (Display.set_pixels (snd (plot_all ts (c, Display.pixels d))) d) = true.
Proof.
  revert c d. induction ts as [|[yy xx] ts IH]; intros c d Hd.
  - by destruct d.
  - rewrite plot_all_cons. unfold plot at 1. cbn [fst snd].
    apply (grid_ok_toggle d yy xx) in Hd.
    apply (IH (if pixel (Display.pixels d) yy xx =? 1 then true else c)) in Hd.
    exact Hd.
Qed.

Lemma set_pixels_same (d : Display.t) : Display.set_pixels (Display.pixels d) d = d.
Proof. by destruct d. Qed.

(** One touch of the code is one [plot]. *)
Lemma touch_is_plot (d : Display.t) (yy xx : Z) (c : bool) (k : bool -> M Display.t bool) :
  grid_ok d = true ->
  0 <= yy < Display.height d -> 0 <= xx < Display.width d ->
  (let* px := gets Display.pixels in
   let* line := lift (getitem px yy) in
   let* p := lift (getitem line xx) in
   let collision := if p =? 1 then true else c in
   let* line' := lift (setitem line xx (Z.lxor p 1)) in
   let* px' := lift (setitem px yy line') in
   modify (Display.set_pixels px') ;;
   k collision) d
  = k (fst (plot (c, Display.pixels d) (yy, xx)))
      (Display.set_pixels (snd (plot (c, Display.pixels d) (yy, xx))) d).
Proof.
  intros Hd Hyy Hxx. apply grid_ok_spec in Hd as (Hw & Hh & Hlen & Hall).
  unfold bind, gets, lift, modify.
  rewrite getitem_lookup by lia.
  assert (Z.of_nat (length (Display.pixels d !!! Z.to_nat yy)) = Display.width d) as Hline.
  { apply (Hall (Z.to_nat yy)). apply list_lookup_lookup_total_lt. lia. }
  rewrite getitem_lookup by lia.
  rewrite setitem_in_range by lia.
  rewrite setitem_in_range by lia.
  reflexivity.
Qed.

Lemma seqZ_step (i : Z) (n : nat) : seqZ i (Z.of_nat (S n)) = i :: seqZ (i + 1) (Z.of_nat n).
Proof.
  rewrite seqZ_cons by lia. f_equal. f_equal; lia.
Qed.

Lemma draw_cols_spec (todo : nat) (col x yy sprite_byte : Z) (wrap c : bool) (d : Display.t) :
  grid_ok d = true ->
  0 <= x -> 0 <= yy < Display.height d ->
  0 <= col -> col + Z.of_nat todo <= 8 ->
  Display.draw_cols todo col x yy sprite_byte wrap c d
  = let out := plot_all ((fun xx => (yy, xx)) <$>
                           columns_drawn (Display.width d) x sprite_byte wrap
                                         (seqZ col (Z.of_nat todo)))
                        (c, Display.pixels d) in
    (Ok (fst out), Display.set_pixels (snd out) d).
Proof.
  revert col c d. induction todo as [|todo IH]; intros col c d Hd Hx Hyy Hcol Htodo.
  - assert (seqZ col (Z.of_nat 0) = []) as -> by reflexivity.
    unfold columns_drawn. cbn [Display.draw_cols List.filter stop_at].
    destruct wrap; cbn [fmap list_fmap plot_all fold_left fst snd];
      by rewrite set_pixels_same.
  - rewrite seqZ_step. cbn [Display.draw_cols].
    rewrite sprite_bit_test by lia.
    unfold columns_drawn in *. cbn [List.filter].
    destruct (bit_from_msb sprite_byte col) eqn:Hbit; cbn [negb].
    2:{ apply IH; try done; lia. }
    pose proof (grid_ok_spec d Hd) as (Hw & Hh & _).
    unfold bind at 1. unfold gets at 1. unfold bind at 1. unfold lift at 1.
    destruct wrap.
    + unfold py_mod. destruct (Z.eqb_spec (Display.width d) 0) as [|_]; [lia|].
      pose proof (Z.mod_pos_bound (x + col) (Display.width d) Hw) as Hxx.
      destruct (Z.geb_spec ((x + col) mod Display.width d) (Display.width d)) as [|_]; [lia|].
      rewrite touch_is_plot by done.
      rewrite IH by (first [by apply grid_ok_toggle | done | lia]).
      cbn [fmap list_fmap]. reflexivity.
    + cbn [stop_at].
      destruct (Z.geb_spec (x + col) (Display.width d)) as [Hclip|Hin].
      * cbn [fmap list_fmap plot_all fold_left fst snd]. by rewrite set_pixels_same.
      * rewrite touch_is_plot by (done || lia).
        rewrite IH by (first [by apply grid_ok_toggle | done | lia]).
        cbn [fmap list_fmap]. reflexivity.
Qed.

Lemma draw_rows_spec (todo : nat) (row x y : Z) (sprite : list Z) (wrap c : bool) (d : Display.t) :
  grid_ok d = true ->
  0 <= x -> 0 <= y -> 0 <= row ->
  row + Z.of_nat todo <= Z.of_nat (length sprite) ->
  Display.draw_rows todo row x y sprite wrap c d
  = let out := plot_all (targets_from (Display.width d) (Display.height d) x y sprite wrap
                                      (seqZ row (Z.of_nat todo)))
                        (c, Display.pixels d) in
    (Ok (fst out), Display.set_pixels (snd out) d).
Proof.
  revert row c d. induction todo as [|todo IH]; intros row c d Hd Hx Hy Hrow Htodo.
  - assert (seqZ row (Z.of_nat 0) = []) as -> by reflexivity.
    unfold targets_from, rows_drawn. cbn [Display.draw_rows stop_at].
    destruct wrap; cbn [fmap list_fmap mbind list_bind plot_all fold_left fst snd];
      by rewrite set_pixels_same.
  - rewrite seqZ_step. cbn [Display.draw_rows].
    pose proof (grid_ok_spec d Hd) as (Hw & Hh & _).
    unfold bind at 1. unfold gets at 1. unfold bind at 1. unfold lift at 1.
    unfold targets_from, rows_drawn in *.
    assert (Hstep : forall yy,
               0 <= yy < Display.height d ->
               (let* sprite_byte := lift (getitem sprite row) in
                let* collision := Display.draw_cols 8 0 x yy sprite_byte wrap c in
                Display.draw_rows todo (row + 1) x y sprite wrap collision) d
               = let out := plot_all
                              (((fun xx => (yy, xx)) <$>
                                  columns_drawn (Display.width d) x
                                                (sprite !!! Z.to_nat row) wrap (seqZ 0 8))
                               ++ ((if wrap
                                    then (fun row => (row, (y + row) mod Display.height d))
                                           <$> seqZ (row + 1) (Z.of_nat todo)
                                    else (fun row => (row, y + row))
                                           <$> stop_at (fun row => y + row >=? Display.height d)
                                                       (seqZ (row + 1) (Z.of_nat todo)))
                                   ≫= (fun '(row, yy) =>
                                          (fun xx => (yy, xx)) <$>
                                            columns_drawn (Display.width d) x
                                              (sprite !!! Z.to_nat row) wrap (seqZ 0 8))))
                              (c, Display.pixels d) in
                 (Ok (fst out), Display.set_pixels (snd out) d)).
    { intros yy Hyy. unfold bind at 1. unfold lift at 1.
      rewrite getitem_lookup by lia. unfold bind at 1.
      rewrite (draw_cols_spec 8 0) by (done || lia).
      change (Z.of_nat 8) with 8. cbv beta iota zeta.
      rewrite IH by (first [by apply grid_ok_plot_all | done | lia]).
      cbv beta iota zeta. rewrite plot_all_app.
      cbn [Display.width Display.height Display.pixels Display.set_pixels].
      rewrite <- surjective_pairing. reflexivity. }
    destruct wrap.
    + unfold py_mod. destruct (Z.eqb_spec (Display.height d) 0) as [|_]; [lia|].
      pose proof (Z.mod_pos_bound (y + row) (Display.height d) Hh) as Hyy.
      destruct (Z.geb_spec ((y + row) mod Display.height d) (Display.height d)) as [|_]; [lia|].
      rewrite Hstep by done. reflexivity.
    + cbn [stop_at].
      destruct (Z.geb_spec (y + row) (Display.height d)) as [Hclip|Hin].
      * cbn [fmap list_fmap mbind list_bind plot_all fold_left fst snd].
        by rewrite set_pixels_same.
      * rewrite Hstep by lia. reflexivity.
Qed.

(** ** Where a sprite lands *)

Lemma elem_of_stop_at {A} (stop : A -> bool) (l : list A) (a : A) :
  a ∈ stop_at stop l -> a ∈ l /\ stop a = false.
Proof.
  induction l as [|a' l IH]; cbn [stop_at]; [by rewrite elem_of_nil|].
  destruct (stop a') eqn:Hs; [by rewrite elem_of_nil|].
  rewrite !elem_of_cons. intros [->|Hin]; [auto|]. destruct (IH Hin). auto.
Qed.

Lemma NoDup_stop_at {A} (stop : A -> bool) (l : list A) :
  NoDup l -> NoDup (stop_at stop l).
Proof.
  induction 1 as [|a l Hnin Hnd IH]; cbn [stop_at]; [constructor|].
  destruct (stop a); constructor; [|done].
  intros Hin. apply Hnin. by apply elem_of_stop_at in Hin as [Hin _].
Qed.

Lemma elem_of_List_filter {A} (f : A -> bool) (l : list A) (a : A) :
  a ∈ List.filter f l <-> a ∈ l /\ f a = true.
Proof. rewrite !list_elem_of_In. apply filter_In. Qed.

Lemma NoDup_List_filter {A} (f : A -> bool) (l : list A) :
  NoDup l -> NoDup (List.filter f l).
Proof. rewrite !NoDup_ListNoDup. apply List.NoDup_filter. Qed.

Lemma mod_same_offset (m a i j : Z) :
  0 <= i < m -> 0 <= j < m -> (a + i) mod m = (a + j) mod m -> i = j.
Proof.
  intros Hi Hj Heq.
  pose proof (Z.div_mod (a + i) m ltac:(lia)) as Di.
  pose proof (Z.div_mod (a + j) m ltac:(lia)) as Dj.
  rewrite Heq in Di.
  assert ((a + i) / m = (a + j) / m) by nia. lia.
Qed.

Section Landing.
Variables (w h x y : Z) (sprite : list Z) (wrap : bool).
Hypothesis Hw : 0 < w.
Hypothesis Hh : 0 < h.
Hypothesis Hx : 0 <= x.
Hypothesis Hy : 0 <= y.

Lemma columns_drawn_spec (sprite_byte xx : Z) :
  xx ∈ columns_drawn w x sprite_byte wrap (seqZ 0 8) ->
  exists col, 0 <= col < 8 /\ bit_from_msb sprite_byte col = true
              /\ xx = (if wrap then (x + col) mod w else x + col)
              /\ 0 <= xx < w.
Proof.
  unfold columns_drawn. destruct wrap.
  - intros (col & -> & Hcol)%list_elem_of_fmap.
    apply elem_of_List_filter in Hcol as [Hcol Hbit].
    apply elem_of_seqZ in Hcol. exists col. repeat split; try done; try lia;
      apply Z.mod_pos_bound; lia.
  - intros (col & -> & Hcol)%list_elem_of_fmap.
    apply elem_of_stop_at in Hcol as [Hcol Hclip].
    apply elem_of_List_filter in Hcol as [Hcol Hbit].
    apply elem_of_seqZ in Hcol. exists col. repeat split; try done; lia.
Qed.

Lemma columns_drawn_NoDup (sprite_byte : Z) :
  (wrap = true -> 8 <= w) ->
  NoDup (columns_drawn w x sprite_byte wrap (seqZ 0 8)).
Proof.
  intros Hwide. unfold columns_drawn. destruct wrap.
  - apply NoDup_fmap_2_strong; [|apply NoDup_List_filter, NoDup_seqZ].
    intros c1 c2 [Hc1 _]%elem_of_List_filter [Hc2 _]%elem_of_List_filter Heq.
    apply elem_of_seqZ in Hc1, Hc2. specialize (Hwide eq_refl).
    apply (mod_same_offset w x); [lia|lia|done].
  - apply NoDup_fmap_2_strong; [intros; lia|].
    apply NoDup_stop_at, NoDup_List_filter, NoDup_seqZ.
Qed.

Lemma rows_drawn_spec (nrows row yy : Z) :
  (row, yy) ∈ rows_drawn h y wrap (seqZ 0 nrows) ->
  0 <= row < nrows
  /\ yy = (if wrap then (y + row) mod h else y + row)
  /\ 0 <= yy < h.
Proof.
  unfold rows_drawn. destruct wrap.
  - intros (r & [= -> ->] & Hr)%list_elem_of_fmap. apply elem_of_seqZ in Hr.
    repeat split; try lia; apply Z.mod_pos_bound; lia.
  - intros (r & [= -> ->] & Hr)%list_elem_of_fmap.
    apply elem_of_stop_at in Hr as [Hr Hclip]. apply elem_of_seqZ in Hr.
    repeat split; lia.
Qed.

Lemma rows_drawn_NoDup (nrows : Z) : NoDup (rows_drawn h y wrap (seqZ 0 nrows)).
Proof.
  unfold rows_drawn. destruct wrap.
  - apply NoDup_fmap_2_strong; [|apply NoDup_seqZ]. intros r1 r2 _ _ [= ->]. done.
  - apply NoDup_fmap_2_strong; [|apply NoDup_stop_at, NoDup_seqZ].
    intros r1 r2 _ _ [= ->]. done.
Qed.

Lemma targets_on_grid (nrows : Z) :
  Forall (on_grid w h) (targets_from w h x y sprite wrap (seqZ 0 nrows)).
Proof.
  apply Forall_forall. intros [yy xx]. unfold targets_from.
  intros ([row yy'] & Hxx & Hrow)%list_elem_of_bind.
  apply list_elem_of_fmap in Hxx as (xx' & [= -> ->] & Hxx).
  apply rows_drawn_spec in Hrow as (_ & _ & Hyy).
  apply columns_drawn_spec in Hxx as (col & _ & _ & _ & Hxx).
  by split.
Qed.

Lemma targets_NoDup (nrows : Z) :
  (wrap = true -> nrows <= h /\ 8 <= w) ->
  NoDup (targets_from w h x y sprite wrap (seqZ 0 nrows)).
Proof.
  intros Hfit. unfold targets_from. apply NoDup_bind; [| |apply rows_drawn_NoDup].
  - intros [r1 yy1] [r2 yy2] [yy xx] Hr1 Hr2 Hin1 Hin2.
    apply list_elem_of_fmap in Hin1 as (? & [= -> ->] & _).
    apply list_elem_of_fmap in Hin2 as (? & [= <- _] & _).
    apply rows_drawn_spec in Hr1 as (Hr1 & Hyy1 & _).
    apply rows_drawn_spec in Hr2 as (Hr2 & Hyy2 & _).
    f_equal. destruct wrap.
    + destruct (Hfit eq_refl). apply (mod_same_offset h y); [lia|lia|congruence].
    + lia.
  - intros [row yy] _. apply NoDup_fmap_2; [intros ?? [= ->]; done|].
    apply columns_drawn_NoDup. intros Hwrap. by destruct (Hfit Hwrap).
Qed.
End Landing.

Lemma elem_of_stop_at_seqZ (stop keep : Z -> bool) (i : Z) (n : nat) (a : Z) :
  i <= a < i + Z.of_nat n -> keep a = true ->
  (forall a', i <= a' <= a -> stop a' = false) ->
  a ∈ stop_at stop (List.filter keep (seqZ i (Z.of_nat n))).
Proof.
  revert i. induction n as [|n IH]; intros i Ha Hkeep Hgo; [lia|].
  rewrite seqZ_step. cbn [List.filter].
  destruct (decide (a = i)) as [->|Hne].
  - rewrite Hkeep. cbn [stop_at]. rewrite Hgo by lia. left.
  - assert (a ∈ stop_at stop (List.filter keep (seqZ (i + 1) (Z.of_nat n)))) as Hin.
    { apply IH; [lia|done|]. intros a' Ha'. apply Hgo. lia. }
    destruct (keep i); [|done]. cbn [stop_at]. rewrite Hgo by lia. by right.
Qed.

Lemma List_filter_true {A} (l : list A) : List.filter (fun _ => true) l = l.
Proof. induction l as [|a l IH]; [done|]. cbn. by rewrite IH. Qed.

(** The pixels a draw call touches, said without lists. *)
Lemma elem_of_targets (d : Display.t) (x y : Z) (sprite : list Z) (nrows : Z) (wrap : bool)
      (yy xx : Z) :
  0 < Display.width d -> 0 < Display.height d -> 0 <= x -> 0 <= y ->
  (yy, xx) ∈ targets d x y sprite nrows wrap
  <-> exists row col,
        0 <= row < nrows /\ 0 <= col < 8
        /\ bit_from_msb (sprite !!! Z.to_nat row) col = true
        /\ (if wrap
            then yy = (y + row) mod Display.height d
                 /\ xx = (x + col) mod Display.width d
            else yy = y + row /\ y + row < Display.height d
                 /\ xx = x + col /\ x + col < Display.width d).
Proof.
  intros Hw Hh Hx Hy. unfold targets, targets_from. rewrite list_elem_of_bind. split.
  - intros ([row yy'] & Hxx & Hrow).
    apply list_elem_of_fmap in Hxx as (xx' & [= -> ->] & Hxx).
    apply rows_drawn_spec in Hrow as (Hrow & Hyy & Hyyr); try done.
    apply columns_drawn_spec in Hxx as (col & Hcol & Hbit & Hxx & Hxxr); try done.
    exists row, col. repeat split; try done; try lia.
    destruct wrap; repeat split; lia.
  - intros (row & col & Hrow & Hcol & Hbit & Hwhere).
    exists (row, yy). split.
    + apply list_elem_of_fmap. exists xx. split; [done|].
      unfold columns_drawn. destruct wrap.
      * destruct Hwhere as [_ ->].
        apply (list_elem_of_fmap_2 (fun col => (x + col) mod Display.width d)).
        apply elem_of_List_filter. split; [|done]. apply elem_of_seqZ. lia.
      * destruct Hwhere as (_ & _ & -> & Hclip).
        apply (list_elem_of_fmap_2 (fun col => x + col)).
        apply (elem_of_stop_at_seqZ _ _ 0 8); [lia|done|]. intros a' Ha'.
        destruct (Z.geb_spec (x + a') (Display.width d)); [lia|done].
    + unfold rows_drawn. destruct wrap.
      * destruct Hwhere as [-> _].
        apply (list_elem_of_fmap_2 (fun row => (row, (y + row) mod Display.height d))).
        apply elem_of_seqZ. lia.
      * destruct Hwhere as (-> & Hclip & _).
        apply (list_elem_of_fmap_2 (fun row => (row, y + row))).
        rewrite <- (List_filter_true (seqZ 0 nrows)).
        rewrite <- (Z2Nat.id nrows) by lia.
        apply elem_of_stop_at_seqZ; [lia|done|]. intros a' Ha'.
        destruct (Z.geb_spec (y + a') (Display.height d)); [lia|done].
Qed.

(** A run of touches reports a collision exactly when one of them finds
    its pixel set by then. *)
Lemma collision_iff_a_touch_hits (ts : list (Z * Z)) (c : bool) (px : list (list Z)) :
  fst (plot_all ts (c, px)) = true
  <-> c = true
      \/ exists before t after,
           ts = before ++ t :: after
           /\ pixel (snd (plot_all before (c, px))) (fst t) (snd t) = 1.
Proof.
  revert c px. induction ts as [|t0 ts IH]; intros c px.
  - cbn. split; [by left|]. intros [Hc|(before & t & after & Heq & _)]; [done|].
    by destruct before.
  - rewrite plot_all_cons. unfold plot at 1. cbn [fst snd]. rewrite IH. split.
    + intros [Hc|(before & t & after & -> & Hhit)].
      * destruct (Z.eqb_spec (pixel px (fst t0) (snd t0)) 1) as [Hset|_]; [|by left].
        right. by exists [], t0, ts.
      * right. by exists (t0 :: before), t, after.
    + intros [->|(before & t & after & Heq & Hhit)].
      * left. by destruct (_ =? 1).
      * destruct before as [|t0' before]; cbn in Heq; injection Heq as <- ->.
        -- left. cbn in Hhit. by rewrite Hhit.
        -- right. by exists before, t, after.
Qed.

(** [draw_sprite] raises nothing on a well-formed call and ends as the
    specified draw does. *)
Lemma draw_sprite_spec (d : Display.t) (x y : Z) (sprite : list Z) (nrows : Z) (wrap : bool) :
  grid_ok d = true ->
  0 <= x -> 0 <= y ->
  nrows <= Z.of_nat (length sprite) ->
  Display.draw_sprite x y sprite nrows wrap d
  = (Ok (fst (draw_spec d x y sprite nrows wrap)),
     Display.set_draw_flag true
       (Display.set_pixels (snd (draw_spec d x y sprite nrows wrap)) d)).
Proof.
  intros Hd Hx Hy Hn. unfold Display.draw_sprite, draw_spec, targets.
  unfold bind at 1. rewrite draw_rows_spec by (done || lia). cbv zeta.
  destruct (Z.le_gt_cases 0 nrows) as [Hpos|Hneg].
  - rewrite Z2Nat.id by done. reflexivity.
  - assert (Z.to_nat nrows = 0%nat) as -> by lia.
    assert (seqZ 0 nrows = []) as ->.
    { unfold seqZ. by assert (Z.to_nat nrows = 0%nat) as -> by lia. }
    reflexivity.
Qed.

(** C4. For every draw call on a display whose grid has its declared
    size, with coordinates that are not negative and a sprite list that
    holds the rows asked for, [draw_sprite] raises nothing and does what the
    specification says: rows in order, each targeting line (y + row) mod
    height when wrapping, else the sprite ends at the first row with
    y + row >= height; bits most significant first, zero bits skipped, each
    set bit targeting column (x + col) mod width when wrapping, else the row
    ends at the first set bit with x + col >= width; every touch XORs its
    pixel; the call returns true exactly when some touch found its pixel
    already set (and it sets draw_flag).  The last part says which pixels
    are touched without the lists: the clipped ones are exactly those with
    y + row < height and x + col < width. *)
Theorem draw_sprite_is_the_specified_draw (d : Display.t) (x y : Z) (sprite : list Z)
        (nrows : Z) (wrap : bool) :
  grid_ok d = true ->
  0 <= x -> 0 <= y ->
  nrows <= Z.of_nat (length sprite) ->
  Display.draw_sprite x y sprite nrows wrap d
  = (Ok (fst (draw_spec d x y sprite nrows wrap)),
     Display.set_draw_flag true
       (Display.set_pixels (snd (draw_spec d x y sprite nrows wrap)) d))
  /\ (fst (draw_spec d x y sprite nrows wrap) = true
      <-> exists before t after,
            targets d x y sprite nrows wrap = before ++ t :: after
            /\ pixel (snd (plot_all before (false, Display.pixels d))) (fst t) (snd t) = 1)
  /\ (forall yy xx,
        (yy, xx) ∈ targets d x y sprite nrows wrap
        <-> exists row col,
              0 <= row < nrows /\ 0 <= col < 8
              /\ bit_from_msb (sprite !!! Z.to_nat row) col = true
              /\ (if wrap
                  then yy = (y + row) mod Display.height d
                       /\ xx = (x + col) mod Display.width d
                  else yy = y + row /\ y + row < Display.height d
                       /\ xx = x + col /\ x + col < Display.width d)).
Proof.
  intros Hd Hx Hy Hn. split; [|split].
  - by apply draw_sprite_spec.
  - unfold draw_spec. rewrite collision_iff_a_touch_hits. split; [|by right].
    by intros [?|?].
  - intros yy xx. destruct (grid_ok_spec d Hd) as (Hw & Hh & _).
    by apply elem_of_targets.
Qed.

(** ** Drawing twice *)

Lemma shaped_of_grid_ok (d : Display.t) :
  grid_ok d = true -> shaped (Display.width d) (Display.height d) (Display.pixels d).
Proof. intros Hd. apply grid_ok_spec in Hd as (_ & _ & Hlen & Hall). by split. Qed.

Lemma shaped_toggle (w h : Z) (px : list (list Z)) (yy xx : Z) :
  shaped w h px -> shaped w h (toggle px yy xx).
Proof.
  intros [Hlen Hall]. split; unfold toggle.
  - by rewrite length_insert.
  - intros i line. destruct (decide (i = Z.to_nat yy)) as [->|Hne].
    + intros Hl. apply list_lookup_insert_Some in Hl as [(_ & <- & Hlt)|[? _]]; [|done].
      rewrite length_insert. apply (Hall (Z.to_nat yy)).
      by apply list_lookup_lookup_total_lt.
    + rewrite list_lookup_insert_ne by done. apply Hall.
Qed.

Lemma pixel_toggle_same (w h : Z) (px : list (list Z)) (yy xx : Z) :
  shaped w h px -> on_grid w h (yy, xx) ->
  pixel (toggle px yy xx) yy xx = Z.lxor (pixel px yy xx) 1.
Proof.
  intros [Hlen Hall] [Hyy Hxx]. cbn in Hyy, Hxx. unfold toggle, pixel at 1.
  rewrite list_lookup_total_insert_eq by lia.
  rewrite list_lookup_total_insert_eq; [done|].
  assert (px !! Z.to_nat yy = Some (px !!! Z.to_nat yy)) as Hline
    by (apply list_lookup_lookup_total_lt; lia).
  specialize (Hall _ _ Hline). lia.
Qed.

Lemma pixel_toggle_other (px : list (list Z)) (yy xx r c : Z) :
  0 <= yy -> 0 <= xx -> 0 <= r -> 0 <= c ->
  (r, c) <> (yy, xx) ->
  pixel (toggle px yy xx) r c = pixel px r c.
Proof.
  intros Hyy Hxx Hr Hc Hne. unfold toggle, pixel at 1 3.
  destruct (decide (Z.to_nat yy = Z.to_nat r)) as [Heq|Hrow].
  - assert (yy = r) as -> by lia.
    destruct (decide (Z.to_nat r < length px)%nat) as [Hin|Hout].
    + rewrite list_lookup_total_insert_eq by done.
      rewrite list_lookup_total_insert_ne; [done|].
      intros Hcol. apply Hne. f_equal. lia.
    + by rewrite list_insert_ge by lia.
  - by rewrite list_lookup_total_insert_ne.
Qed.

Lemma grid_ext (w h : Z) (px1 px2 : list (list Z)) :
  shaped w h px1 -> shaped w h px2 ->
  (forall r c, 0 <= r < h -> 0 <= c < w -> pixel px1 r c = pixel px2 r c) ->
  px1 = px2.
Proof.
  intros [Hlen1 Hall1] [Hlen2 Hall2] Hpx. apply list_eq. intros i.
  destruct (decide (Z.of_nat i < h)) as [Hi|Hi].
  - destruct (lookup_lt_is_Some_2 px1 i ltac:(lia)) as [l1 Hl1].
    destruct (lookup_lt_is_Some_2 px2 i ltac:(lia)) as [l2 Hl2].
    rewrite Hl1, Hl2. f_equal. apply list_eq. intros j.
    pose proof (Hall1 _ _ Hl1) as Hw1. pose proof (Hall2 _ _ Hl2) as Hw2.
    destruct (decide (Z.of_nat j < w)) as [Hj|Hj].
    + specialize (Hpx (Z.of_nat i) (Z.of_nat j) ltac:(lia) ltac:(lia)).
      unfold pixel in Hpx. rewrite !Nat2Z.id in Hpx.
      rewrite (list_lookup_total_correct _ _ _ Hl1) in Hpx.
      rewrite (list_lookup_total_correct _ _ _ Hl2) in Hpx.
      destruct (lookup_lt_is_Some_2 l1 j ltac:(lia)) as [p1 Hp1].
      destruct (lookup_lt_is_Some_2 l2 j ltac:(lia)) as [p2 Hp2].
      rewrite (list_lookup_total_correct _ _ _ Hp1) in Hpx.
      rewrite (list_lookup_total_correct _ _ _ Hp2) in Hpx.
      by rewrite Hp1, Hp2, Hpx.
    + by rewrite !lookup_ge_None_2 by lia.
  - by rewrite !lookup_ge_None_2 by lia.
Qed.

Lemma lxor_1_twice (p : Z) : Z.lxor (Z.lxor p 1) 1 = p.
Proof. by rewrite Z.lxor_assoc, Z.lxor_nilpotent, Z.lxor_0_r. Qed.

Lemma shaped_plot_all (w h : Z) (ts : list (Z * Z)) (b : bool) (px : list (list Z)) :
  shaped w h px -> shaped w h (snd (plot_all ts (b, px))).
Proof.
  revert b px. induction ts as [|[yy xx] ts IH]; intros b px Hpx; [done|].
  rewrite plot_all_cons. unfold plot at 1. apply IH. by apply shaped_toggle.
Qed.

(** A pixel after a run of touches: flipped when touched an odd number of
    times. *)
Lemma pixel_plot_all (w h : Z) (ts : list (Z * Z)) (b : bool) (px : list (list Z)) (r c : Z) :
  shaped w h px -> Forall (on_grid w h) ts -> 0 <= r -> 0 <= c ->
  pixel (snd (plot_all ts (b, px))) r c
  = if flips ts (r, c) then Z.lxor (pixel px r c) 1 else pixel px r c.
Proof.
  intros Hpx Hts Hr Hc. revert b px Hpx.
  induction Hts as [|[yy xx] ts Ht _ IH]; intros b px Hpx; [done|].
  rewrite plot_all_cons. unfold plot at 1. cbn [fst snd flips].
  rewrite IH by (by apply shaped_toggle).
  destruct Ht as [Hyy Hxx]. cbn in Hyy, Hxx.
  destruct (decide ((yy, xx) = (r, c))) as [Heq|Hne].
  - injection Heq as -> ->. rewrite bool_decide_eq_true_2 by done.
    rewrite (pixel_toggle_same w h) by done.
    destruct (flips ts (r, c)); cbn [xorb negb]; [by rewrite lxor_1_twice|done].
  - rewrite bool_decide_eq_false_2 by done.
    rewrite pixel_toggle_other by (lia || congruence).
    by destruct (flips ts (r, c)).
Qed.

(** Touching the same pixels a second time restores the grid. *)
Lemma plot_all_twice (w h : Z) (ts : list (Z * Z)) (b b' : bool) (px : list (list Z)) :
  shaped w h px -> Forall (on_grid w h) ts ->
  snd (plot_all ts (b', snd (plot_all ts (b, px)))) = px.
Proof.
  intros Hpx Hts. apply (grid_ext w h); [by do 2 apply shaped_plot_all|done|].
  intros r c Hr Hc.
  rewrite (pixel_plot_all w h) by (done || lia || by apply shaped_plot_all).
  rewrite (pixel_plot_all w h) by (done || lia).
  destruct (flips ts (r, c)); [apply lxor_1_twice|done].
Qed.

Lemma flips_not_touched (ts : list (Z * Z)) (t : Z * Z) : t ∉ ts -> flips ts t = false.
Proof.
  induction ts as [|t' ts IH]; [done|]. rewrite not_elem_of_cons. intros [Hne Hnin].
  cbn. rewrite bool_decide_eq_false_2 by congruence. by rewrite IH.
Qed.

Lemma flips_touched_once (ts : list (Z * Z)) (t : Z * Z) :
  NoDup ts -> t ∈ ts -> flips ts t = true.
Proof.
  induction 1 as [|t' ts Hnin Hnd IH]; [by rewrite elem_of_nil|].
  rewrite elem_of_cons. cbn. intros [->|Hin].
  - rewrite bool_decide_eq_true_2 by done. by rewrite flips_not_touched.
  - rewrite bool_decide_eq_false_2; [by rewrite IH|]. intros ->. done.
Qed.

Lemma collision_sticks (ts : list (Z * Z)) (px : list (list Z)) :
  fst (plot_all ts (true, px)) = true.
Proof.
  revert px. induction ts as [|t ts IH]; intros px; [done|].
  rewrite plot_all_cons. unfold plot at 1. cbn [fst snd].
  destruct (_ =? 1); apply IH.
Qed.

(** Touching distinct unset pixels records no collision. *)
Lemma no_collision_on_unset (w h : Z) (ts : list (Z * Z)) (px : list (list Z)) :
  shaped w h px -> Forall (on_grid w h) ts -> NoDup ts ->
  (forall t, t ∈ ts -> pixel px (fst t) (snd t) <> 1) ->
  fst (plot_all ts (false, px)) = false.
Proof.
  intros Hpx Hts Hnd. revert px Hpx.
  induction Hnd as [|[yy xx] ts Hnin Hnd IH]; intros px Hpx Hunset; [done|].
  apply Forall_cons in Hts as [[Hyy Hxx] Hts]. cbn in Hyy, Hxx.
  rewrite plot_all_cons. unfold plot at 1. cbn [fst snd].
  destruct (Z.eqb_spec (pixel px yy xx) 1) as [Hset|_].
  { exfalso. apply (Hunset (yy, xx)); [left|done]. }
  apply IH; [done|by apply shaped_toggle|].
  intros [r c] Hin. cbn [fst snd].
  apply Forall_forall with (x := (r, c)) in Hts as [Hr Hc]; [|done]. cbn in Hr, Hc.
  rewrite pixel_toggle_other; try lia.
  - apply (Hunset (r, c)). by right.
  - intros Heq. apply Hnin. by rewrite <- Heq.
Qed.


Lemma pixel_blank (w h r c : Z) :
  0 <= r < h -> 0 <= c < w -> pixel (Display.blank w h) r c = 0.
Proof.
  intros Hr Hc. unfold pixel, Display.blank.
  rewrite lookup_total_replicate_2 by lia. by rewrite lookup_total_replicate_2 by lia.
Qed.

Lemma grid_ok_set_draw_flag (b : bool) (d : Display.t) :
  grid_ok (Display.set_draw_flag b d) = grid_ok d.
Proof. reflexivity. Qed.

(** C7 (amended). On a blank display, for every position and wrap
    setting and every sprite of at most [height] rows (on a display at
    least 8 wide, when wrapping), the first draw returns collision = false
    and sets every touched pixel, the second draw at the same place returns
    collision = true exactly when the sprite touches at least one pixel
    (collision = false for a sprite with no set bit on the screen), and
    after it every touched pixel is unset and the grid is the blank grid
    again. *)
Theorem drawing_twice_restores_the_blank_screen (d : Display.t) (x y : Z) (sprite : list Z)
        (nrows : Z) (wrap : bool) :
  grid_ok d = true ->
  Display.pixels d = Display.blank (Display.width d) (Display.height d) ->
  0 <= x -> 0 <= y ->
  nrows <= Z.of_nat (length sprite) ->
  (wrap = true -> nrows <= Display.height d /\ 8 <= Display.width d) ->
  exists d1 d2,
    Display.draw_sprite x y sprite nrows wrap d = (Ok false, d1)
    /\ Display.draw_sprite x y sprite nrows wrap d1
       = (Ok (touches_a_pixel d x y sprite nrows wrap), d2)
    /\ Display.pixels d2 = Display.pixels d
    /\ (forall t, t ∈ targets d x y sprite nrows wrap ->
                  pixel (Display.pixels d1) (fst t) (snd t) = 1
                  /\ pixel (Display.pixels d2) (fst t) (snd t) = 0)
    /\ (touches_a_pixel d x y sprite nrows wrap = false ->
        Display.pixels d1 = Display.pixels d).
Proof.
  intros Hd Hblank Hx Hy Hn Hfit.
  pose proof (grid_ok_spec d Hd) as (Hw & Hh & _).
  pose proof (shaped_of_grid_ok d Hd) as Hshape.
  assert (Hon : Forall (on_grid (Display.width d) (Display.height d))
                       (targets d x y sprite nrows wrap))
    by (by apply targets_on_grid).
  assert (Hnd : NoDup (targets d x y sprite nrows wrap))
    by (by apply targets_NoDup).
  set (ts := targets d x y sprite nrows wrap) in *.
  set (px1 := snd (plot_all ts (false, Display.pixels d))).
  set (d1 := Display.set_draw_flag true (Display.set_pixels px1 d)).
  assert (Hset : forall t, t ∈ ts -> pixel px1 (fst t) (snd t) = 1).
  { intros [r c] Hin. cbn [fst snd]. unfold px1.
    pose proof (proj1 (Forall_forall _ _) Hon _ Hin) as [Hr Hc]. cbn in Hr, Hc.
    rewrite (pixel_plot_all (Display.width d) (Display.height d)) by (done || lia).
    rewrite flips_touched_once by done. rewrite Hblank, pixel_blank by done. done. }
  assert (Hd1 : grid_ok d1 = true).
  { unfold d1. rewrite grid_ok_set_draw_flag. by apply grid_ok_plot_all. }
  assert (Hback : snd (plot_all ts (false, px1)) = Display.pixels d).
  { unfold px1. by apply (plot_all_twice (Display.width d) (Display.height d)). }
  exists d1, (Display.set_draw_flag true (Display.set_pixels (Display.pixels d) d1)).
  split; [|split; [|split; [|split]]].
  - rewrite draw_sprite_spec by done.
    unfold draw_spec. fold ts. fold px1.
    f_equal. f_equal.
    apply (no_collision_on_unset (Display.width d) (Display.height d)); try done.
    intros [r c] Hin. cbn [fst snd].
    pose proof (proj1 (Forall_forall _ _) Hon _ Hin) as [Hr Hc]. cbn in Hr, Hc.
    rewrite Hblank, pixel_blank by done. done.
  - rewrite draw_sprite_spec by done.
    unfold draw_spec.
    change (targets d1 x y sprite nrows wrap) with ts.
    change (Display.pixels d1) with px1. rewrite Hback.
    f_equal. f_equal. unfold touches_a_pixel. fold ts.
    destruct ts as [|t ts'] eqn:Hts; [done|].
    rewrite plot_all_cons. unfold plot at 1. cbn [fst snd].
    rewrite (Hset t) by left. cbn. apply collision_sticks.
  - reflexivity.
  - intros t Hin. split; [by apply Hset|].
    cbn [Display.pixels Display.set_pixels Display.set_draw_flag].
    pose proof (proj1 (Forall_forall _ _) Hon _ Hin) as [Hr Hc].
    rewrite Hblank. by apply pixel_blank.
  - unfold touches_a_pixel. fold ts. intros Hnone. unfold d1, px1.
    destruct ts; [reflexivity|discriminate].
Qed.

(** The clipping and wrapping example of the specification: the row 0xFF
    at (60, 0) touches columns 60 to 63 when clipping, and goes on with
    columns 0 to 3 when wrapping. *)
Example full_row_at_the_right_edge :
  targets (Display.init 64 32) 60 0 [0xFF] 1 false
  = [(0, 60); (0, 61); (0, 62); (0, 63)]
  /\ targets (Display.init 64 32) 60 0 [0xFF] 1 true
    = [(0, 60); (0, 61); (0, 62); (0, 63); (0, 0); (0, 1); (0, 2); (0, 3)].
Proof. split; reflexivity. Qed.

(** C4 at work: two rows drawn across the bottom right corner, wrapping. *)
Lemma draw_across_the_corner :
  Display.draw_sprite 60 31 [0xFF; 0x81] 2 true (Display.init 64 32)
  = (Ok (fst (draw_spec (Display.init 64 32) 60 31 [0xFF; 0x81] 2 true)),
     Display.set_draw_flag true
       (Display.set_pixels (snd (draw_spec (Display.init 64 32) 60 31 [0xFF; 0x81] 2 true))
                           (Display.init 64 32))).
Proof.
  apply (draw_sprite_is_the_specified_draw (Display.init 64 32) 60 31 [0xFF; 0x81] 2 true).
  - reflexivity.
  - lia.
  - lia.
  - simpl. lia.
Defined.

(** C7, the inputs at which the claim fails: a sprite row with no bit set
    touches nothing, and the second draw reports no collision either; and
    a wrapping sprite of 33 rows comes round to its first line, so that
    already the first draw on the blank screen reports a collision. *)
Lemma empty_sprite_never_collides :
  let d := Display.init 64 32 in
  fst (Display.draw_sprite 0 0 [0x00] 1 false d) = Ok false
  /\ fst (Display.draw_sprite 0 0 [0x00] 1 false
                              (snd (Display.draw_sprite 0 0 [0x00] 1 false d)))
    = Ok false
  /\ fst (Display.draw_sprite 0 0 (replicate 33 0x80) 33 true d) = Ok true.
Proof. vm_compute. repeat split. Qed.

(** C7 at work: three rows drawn twice across the corner, wrapping. *)
Lemma draw_twice_across_the_corner :
  exists d1 d2,
    Display.draw_sprite 60 30 [0xFF; 0x81; 0xFF] 3 true (Display.init 64 32) = (Ok false, d1)
    /\ Display.draw_sprite 60 30 [0xFF; 0x81; 0xFF] 3 true d1 = (Ok true, d2)
    /\ Display.pixels d2 = Display.pixels (Display.init 64 32).
Proof.
  destruct (drawing_twice_restores_the_blank_screen
              (Display.init 64 32) 60 30 [0xFF; 0x81; 0xFF] 3 true)
    as (d1 & d2 & H1 & H2 & H3 & _).
  - reflexivity.
  - reflexivity.
  - lia.
  - lia.
  - simpl. lia.
  - intros _. simpl. lia.
  - exists d1, d2. split; [exact H1|]. split; [exact H2|exact H3].
Defined.

(** C8 at work: with V3 = 0xA the glyph of digit A is at 50. *)
Lemma Fx29_on_a_digit :
  decode_and_execute 0xF329 (set_V (regs [(3%nat, 0xA)]) fresh)
  = (Ok tt, set_I 50 (set_V (regs [(3%nat, 0xA)]) fresh)).
Proof.
  destruct (Fx29_sets_I_to_five_times_Vx (set_V (regs [(3%nat, 0xA)]) fresh) 0xF329
              eq_refl eq_refl eq_refl) as [Hrun _].
  exact Hrun.
Defined.

(** C10 at work: B234 with V0 = 0x10 jumps to 0x244, with the switch on
    as with the switch off. *)
Lemma Bnnn_on_the_fresh_machine :
  let s := set_V (regs [(0%nat, 0x10)]) fresh in
  decode_and_execute 0xB234 s = (Ok tt, set_pc 0x244 s)
  /\ decode_and_execute 0xB234 (set_jump_quirk true s)
     = (Ok tt, set_jump_quirk true (set_pc 0x244 s)).
Proof.
  destruct (Bnnn_adds_V0_whatever_the_quirk (set_V (regs [(0%nat, 0x10)]) fresh) 0xB234 true
              eq_refl eq_refl) as (Hoff & Hon & _).
  exact (conj Hoff Hon).
Defined.

(** ** The sound timer *)

Lemma update_once (self : Sound.t) :
  0 <= Sound.timer self ->
  Sound.timer (Sound.update self) = Z.max 0 (Sound.timer self - 1)
  /\ Sound.enabled (Sound.update self) = Sound.enabled self
  /\ Sound.playing (Sound.update self) = (0 <? Sound.timer self - 1).
Proof.
  intros Ht. unfold Sound.update.
  destruct (Z.ltb_spec 0 (Sound.timer self)) as [Hpos|Hneg];
    cbn [Sound.timer Sound.enabled Sound.playing].
  - split; [lia|]. split; [done|].
    destruct (Z.eqb_spec (Sound.timer self - 1) 0), (Z.ltb_spec 0 (Sound.timer self - 1));
      lia || done.
  - split; [lia|]. split; [done|].
    destruct (Z.ltb_spec 0 (Sound.timer self - 1)); lia || done.
Qed.

Lemma update_timer_after (n : nat) (self : Sound.t) :
  0 <= Sound.timer self ->
  Sound.timer (Nat.iter n Sound.update self) = Z.max 0 (Sound.timer self - Z.of_nat n).
Proof.
  intros Ht. induction n as [|n IH].
  - change (Nat.iter 0 Sound.update self) with self. lia.
  - rewrite Nat.iter_succ.
    destruct (update_once (Nat.iter n Sound.update self)) as (Hu & _); lia.
Qed.

(** X1. [n] calls of [Sound.update] take a sound timer that is not negative
    from [t] to [max 0 (t - n)], leave [enabled] alone, and after the last
    of them the sound is marked playing exactly when the timer is still
    above zero. *)
Theorem sound_timer_counts_down (n : nat) (self : Sound.t) :
  0 <= Sound.timer self ->
  Sound.timer (Nat.iter n Sound.update self) = Z.max 0 (Sound.timer self - Z.of_nat n)
  /\ Sound.enabled (Nat.iter n Sound.update self) = Sound.enabled self
  /\ (n <> 0%nat ->
      Sound.playing (Nat.iter n Sound.update self) = (0 <? Sound.timer self - Z.of_nat n)).
Proof.
  intros Ht. induction n as [|n IH].
  - change (Nat.iter 0 Sound.update self) with self. split; [lia|]. split; [done|]. done.
  - destruct IH as (IHt & IHe & _).
    rewrite Nat.iter_succ. set (u := Nat.iter n Sound.update self) in *.
    destruct (update_once u) as (Hut & Hue & Hup); [lia|].
    split; [lia|]. split; [congruence|]. intros _. rewrite Hup.
    destruct (Z.ltb_spec 0 (Sound.timer u - 1)),
             (Z.ltb_spec 0 (Sound.timer self - Z.of_nat (S n))); lia || done.
Qed.

Lemma no_bell_after_update (self : Sound.t) : rings (Sound.update self) = false.
Proof.
  unfold rings, Sound.update.
  destruct (Z.ltb_spec 0 (Sound.timer self)); cbn [Sound.timer Sound.enabled Sound.playing].
  - destruct (Z.eqb_spec (Sound.timer self - 1) 0) as [->|]; [done|].
    cbn. by rewrite andb_false_r.
  - destruct (Z.ltb_spec 0 (Sound.timer self)); [lia | done].
Qed.

Lemma bells_after_update (n : nat) (self : Sound.t) : bells n (Sound.update self) = 0%nat.
Proof.
  revert self. induction n as [|n IH]; intros self; [done|].
  cbn [bells]. by rewrite no_bell_after_update, IH.
Qed.

(** X2. A run of [update] calls prints at most one bell, at its first
    call: the calls after an [update] print none.  A disabled sound never
    rings, and setting the timer rings again only if no period was marked
    playing. *)
Theorem bell_rings_once_per_period (n : nat) (v : Z) (self : Sound.t) :
  bells n self = (if rings self && negb (Nat.eqb n 0) then 1 else 0)%nat
  /\ (Sound.enabled self = false -> bells n self = 0%nat)
  /\ (rings (Sound.set_timer v self) = true -> Sound.playing self = false).
Proof.
  assert (Hb : bells n self = (if rings self && negb (Nat.eqb n 0) then 1 else 0)%nat).
  { destruct n as [|n]; [by rewrite andb_false_r|].
    cbn [bells Nat.eqb negb]. rewrite bells_after_update, andb_true_r. lia. }
  split; [done|]. split.
  - intros He. rewrite Hb. unfold rings. by rewrite He, andb_false_r.
  - unfold rings, Sound.set_timer. cbn [Sound.timer Sound.enabled Sound.playing].
    destruct (Z.eqb_spec (Z.land v 255) 0) as [->|]; [done|].
    destruct (Sound.playing self); [|done]. cbn. by rewrite andb_false_r.
Qed.

(** X3. [Sound()], [set_timer] and [stop] leave the timer in 0..255 with
    [playing] set only while it runs, whatever value is passed to
    [set_timer]; [update] keeps this. *)
Theorem sound_timer_stays_a_byte (v : Z) (e : bool) (self : Sound.t) :
  sound_ok (Sound.init e)
  /\ sound_ok (Sound.set_timer v self)
  /\ sound_ok (Sound.stop self)
  /\ (0 <= Sound.timer self < 256 -> sound_ok (Sound.update self)).
Proof.
  unfold sound_ok. split; [|split; [|split]].
  - cbn. split; [lia | done].
  - split; [apply land_255_range|].
    cbn. pose proof (land_255_range v).
    destruct (Z.eqb_spec (Z.land v 255) 0); [done | lia].
  - cbn. split; [lia | done].
  - intros Ht. unfold Sound.update.
    destruct (Z.ltb_spec 0 (Sound.timer self)); cbn; [|split; [lia | done]].
    split; [lia|]. destruct (Z.eqb_spec (Sound.timer self - 1) 0); [done | lia].
Qed.

(** ** Fetching, loading and the frame loop *)

Lemma lor_shiftl_8 (hi lo : Z) : 0 <= lo < 256 -> Z.lor (Z.shiftl hi 8) lo = hi * 256 + lo.
Proof.
  intros Hlo.
  assert (Hland : Z.land (Z.shiftl hi 8) lo = 0).
  { apply Z.bits_inj'. intros n Hn. rewrite Z.land_spec, Z.bits_0.
    destruct (Z.ltb_spec n 8).
    - by rewrite Z.shiftl_spec_low.
    - destruct (Z.eq_dec lo 0) as [->|]; [by rewrite Z.bits_0, andb_false_r|].
      rewrite (Z.bits_above_log2 lo n), andb_false_r; [done | lia |].
      assert (Z.log2 lo < 8) by (apply Z.log2_lt_pow2; lia). lia. }
  rewrite <- (Z.add_0_r (Z.lor _ _)), <- Hland, Z.add_lor_land, Z.shiftl_mul_pow2 by lia.
  reflexivity.
Qed.

Lemma opcode_fields (hi lo : Z) :
  0 <= hi < 256 -> 0 <= lo < 256 ->
  let opcode := hi * 256 + lo in
  op_class opcode = hi / 16
  /\ x_field opcode = hi mod 16
  /\ y_field opcode = lo / 16
  /\ n_field opcode = lo mod 16
  /\ nn_field opcode = lo
  /\ nnn_field opcode = (hi mod 16) * 256 + lo.
Proof.
  intros Hhi Hlo opcode.
  unfold op_class, x_field, y_field, n_field, nn_field, nnn_field.
  rewrite !Z.shiftr_land.
  change (Z.shiftr 0xF000 12) with (Z.ones 4).
  change (Z.shiftr 0x0F00 8) with (Z.ones 4).
  change (Z.shiftr 0x00F0 4) with (Z.ones 4).
  change 0x000F with (Z.ones 4).
  change 0x00FF with (Z.ones 8).
  change 0x0FFF with (Z.ones 12).
  rewrite !Z.land_ones, !Z.shiftr_div_pow2 by lia.
  change (2 ^ 4) with 16. change (2 ^ 8) with 256. change (2 ^ 12) with 4096.
  subst opcode.
  repeat apply conj; Z.to_euclidean_division_equations; lia.
Qed.

Ltac cmp_cases :=
  repeat match goal with
  | |- context [Z.leb ?a ?b] => destruct (Z.leb_spec a b)
  | |- context [Z.ltb ?a ?b] => destruct (Z.ltb_spec a b)
  end; cbn [andb]; first [reflexivity | lia].

Section MoreEngineFacts.
Context {K R : Type} `{!Host K R}.

Lemma is_array_lookup (bound len : Z) (a : list Z) (i : Z) :
  is_array bound len a = true -> 0 <= i < len ->
  0 <= a !!! Z.to_nat i < bound.
Proof.
  intros Ha Hi. apply is_array_spec in Ha as [Hlen Hall].
  rewrite forallb_forall in Hall.
  apply in_range_spec, Hall, list_elem_of_In, list_elem_of_lookup_total_2. lia.
Qed.

Lemma fetch_opcode_ok (s : Chip8 K R) :
  length (memory s) = Z.to_nat MEMORY_SIZE ->
  0 <= pc s < MEMORY_SIZE - 1 ->
  0 <= memory s !!! Z.to_nat (pc s + 1) < 256 ->
  fetch_opcode s
  = (Ok (memory s !!! Z.to_nat (pc s) * 256 + memory s !!! Z.to_nat (pc s + 1)),
     set_pc (pc s + 2) s).
Proof.
  intros Hlen Hpc Hlo.
  unfold fetch_opcode, bind, get, readMem, modify, ret.
  destruct (Z.geb_spec (pc s) MEMORY_SIZE); [lia|].
  destruct (Z.geb_spec (pc s + 1) MEMORY_SIZE); [lia|].
  cbn [orb]. unfold MEMORY_SIZE in *. rewrite !getitem_lookup by lia.
  by rewrite lor_shiftl_8.
Qed.

(** X4. With PC at most MEMORY_SIZE - 2, [fetch_opcode] returns the byte at
    PC as the high byte and the byte at PC + 1 as the low byte of a 16-bit
    word and advances PC by 2; the fields [decode_and_execute] extracts
    are the nibbles of these two bytes.  From PC = MEMORY_SIZE - 1 on it
    sets [halted] and raises, PC unchanged. *)
Theorem fetch_opcode_reads_a_big_endian_word (s : Chip8 K R) :
  (is_array B_bound MEMORY_SIZE (memory s) = true ->
   0 <= pc s < MEMORY_SIZE - 1 ->
   let hi := memory s !!! Z.to_nat (pc s) in
   let lo := memory s !!! Z.to_nat (pc s + 1) in
   fetch_opcode s = (Ok (hi * 256 + lo), set_pc (pc s + 2) s)
   /\ 0 <= hi * 256 + lo < 65536
   /\ op_class (hi * 256 + lo) = hi / 16
   /\ x_field (hi * 256 + lo) = hi mod 16
   /\ y_field (hi * 256 + lo) = lo / 16
   /\ n_field (hi * 256 + lo) = lo mod 16
   /\ nn_field (hi * 256 + lo) = lo
   /\ nnn_field (hi * 256 + lo) = (hi mod 16) * 256 + lo)
  /\ (MEMORY_SIZE - 1 <= pc s ->
      fetch_opcode s = (Raise (RuntimeError (FetchOutOfBounds (pc s))), set_halted true s)).
Proof.
  split.
  - intros Hmem Hpc hi lo.
    assert (Hhi : 0 <= hi < 256) by (apply (is_array_lookup _ _ _ _ Hmem); unfold MEMORY_SIZE in *; lia).
    assert (Hlo : 0 <= lo < 256) by (apply (is_array_lookup _ _ _ _ Hmem); unfold MEMORY_SIZE in *; lia).
    split; [|split; [lia | by apply opcode_fields]].
    apply is_array_spec in Hmem as [Hlen _].
    apply fetch_opcode_ok; [unfold MEMORY_SIZE in *; lia | done | done].
  - intros Hpc. unfold fetch_opcode, bind, get, modify, raise.
    destruct (Z.geb_spec (pc s) MEMORY_SIZE); [done|].
    destruct (Z.geb_spec (pc s + 1) MEMORY_SIZE); [done | lia].
Qed.

(** X5. A step of a machine that is not halted polls the keys first: if the
    poll raises, nothing is fetched; else the instruction at PC is executed
    with PC already advanced by 2 (so a call pushes the address of the next
    instruction), or the fetch faults. *)
Theorem step_executes_the_instruction_at_PC (s : Chip8 K R) :
  halted s = false ->
  (forall h k, update_keys (input_handler s) = (inl h, k) ->
               step s = (Raise (HostError h), set_input_handler k s))
  /\ (forall k, update_keys (input_handler s) = (inr tt, k) ->
                MEMORY_SIZE - 1 <= pc s ->
                step s = (Raise (RuntimeError (FetchOutOfBounds (pc s))),
                          set_halted true (set_input_handler k s)))
  /\ (forall k, update_keys (input_handler s) = (inr tt, k) ->
                is_array B_bound MEMORY_SIZE (memory s) = true ->
                0 <= pc s < MEMORY_SIZE - 1 ->
                step s
                = decode_and_execute
                    (memory s !!! Z.to_nat (pc s) * 256 + memory s !!! Z.to_nat (pc s + 1))
                    (set_pc (pc s + 2) (set_input_handler k s))).
Proof.
  intros Hh. split; [|split].
  - intros h k Hk. unfold step. unfold bind at 1. unfold get at 1. rewrite Hh.
    unfold bind at 1. unfold on_input. by rewrite Hk.
  - intros k Hk Hpc. unfold step. unfold bind at 1. unfold get at 1. rewrite Hh.
    unfold bind at 1. unfold on_input. rewrite Hk.
    unfold bind at 1. unfold fetch_opcode, bind, get, modify, raise.
    change (pc (set_input_handler k s)) with (pc s).
    destruct (Z.geb_spec (pc s) MEMORY_SIZE); [done|].
    destruct (Z.geb_spec (pc s + 1) MEMORY_SIZE); [done | lia].
  - intros k Hk Hmem Hpc. unfold step. unfold bind at 1. unfold get at 1. rewrite Hh.
    unfold bind at 1. unfold on_input. rewrite Hk.
    unfold bind at 1.
    assert (Hlo : 0 <= memory s !!! Z.to_nat (pc s + 1) < 256)
      by (apply (is_array_lookup _ _ _ _ Hmem); unfold MEMORY_SIZE in *; lia).
    apply is_array_spec in Hmem as [Hlen _].
    rewrite fetch_opcode_ok; [reflexivity | | done | done].
    change (memory (set_input_handler k s)) with (memory s). unfold MEMORY_SIZE in *. lia.
Qed.

Lemma copy_writes (src : list Z) (base : Z) (count : nat) (i : Z) (s : Chip8 K R) :
  Forall (fun b => 0 <= b < 256) src ->
  0 <= i -> i + Z.of_nat count <= Z.of_nat (length src) ->
  0 <= base -> base + i + Z.of_nat count <= Z.of_nat (length (memory s)) ->
  exists mem,
    for_range_from i count
      (fun i => let* byte := lift (getitem src i) in writeMem (base + i) byte) s
    = (Ok tt, set_memory mem s)
    /\ length mem = length (memory s)
    /\ forall j : Z,
         0 <= j ->
         mem !! Z.to_nat j
         = if (base + i <=? j) && (j <? base + i + Z.of_nat count)
           then src !! Z.to_nat (j - base) else memory s !! Z.to_nat j.
Proof.
  intros Hsrc. revert i s. induction count as [|count IH]; intros i s Hi Hlen Hbase Hmem.
  - exists (memory s). split; [by destruct s|]. split; [done|].
    intros j Hj. cmp_cases.
  - cbn [for_range_from]. unfold bind at 1. unfold bind at 1. unfold lift at 1.
    rewrite getitem_lookup by lia.
    assert (Hb : 0 <= src !!! Z.to_nat i < 256).
    { apply (Forall_lookup_1 (fun b => 0 <= b < 256) src (Z.to_nat i)); [done|].
      apply list_lookup_lookup_total_lt. lia. }
    unfold writeMem at 1. rewrite array_setitem_in_range by (unfold B_bound; lia).
    set (s1 := set_memory _ s).
    destruct (IH (i + 1) s1) as (mem & Hrun & Hl & Hlk); try lia.
    { subst s1; cbn [memory set_memory]. rewrite length_insert. lia. }
    exists mem. split; [|split].
    + rewrite Hrun. subst s1. reflexivity.
    + rewrite Hl. subst s1; cbn [memory set_memory]. by rewrite length_insert.
    + intros j Hj. rewrite Hlk by done. subst s1; cbn [memory set_memory].
      destruct (Z.eq_dec j (base + i)) as [->|Hne].
      * rewrite list_lookup_insert_eq by lia.
        replace (base + i - base) with i by lia.
        rewrite (list_lookup_lookup_total_lt src (Z.to_nat i)) by lia.
        cmp_cases.
      * rewrite list_lookup_insert_ne by lia. cmp_cases.
Qed.

Lemma load_rom_ok (rom : list Z) (s : Chip8 K R) :
     (Forall (fun b => 0 <= b < 256) rom ->
      Z.of_nat (length rom) <= MEMORY_SIZE - 0x200 ->
      length (memory s) = Z.to_nat MEMORY_SIZE ->
      exists mem,
        load_rom rom s
        = (Ok tt, set_rom_loaded true (set_halted false (set_pc 0x200 (set_memory mem s))))
        /\ length mem = Z.to_nat MEMORY_SIZE
        /\ (forall k, 0 <= k < Z.of_nat (length rom) ->
                      mem !!! Z.to_nat (0x200 + k) = rom !!! Z.to_nat k)
        /\ (forall j, 0 <= j < 0x200 \/ 0x200 + Z.of_nat (length rom) <= j < MEMORY_SIZE ->
                      mem !!! Z.to_nat j = memory s !!! Z.to_nat j)).
Proof.
  - intros Hrom Hfit Hmem. unfold load_rom. cbv zeta.
    destruct (Z.gtb_spec (Z.of_nat (length rom)) (MEMORY_SIZE - 512)); [lia|].
    unfold for_range. rewrite Nat2Z.id.
    destruct (copy_writes rom 0x200 (length rom) 0 s) as (mem & Hrun & Hl & Hlk);
      try done; try (unfold MEMORY_SIZE in *; lia).
    exists mem. split; [|split; [congruence|split]].
    + unfold bind at 1. rewrite Hrun. reflexivity.
    + intros k Hk. apply list_lookup_total_correct.
      rewrite Hlk by lia.
      replace (512 + k - 512) with k by lia.
      rewrite (list_lookup_lookup_total_lt rom (Z.to_nat k)) by lia. cmp_cases.
    + intros j Hj. unfold MEMORY_SIZE in *.
      apply list_lookup_total_correct. rewrite Hlk by lia.
      rewrite (list_lookup_lookup_total_lt (memory s) (Z.to_nat j)) by lia. cmp_cases.
Qed.

(** X6. [load_rom] refuses a ROM of more than MEMORY_SIZE - 0x200 bytes
    with ValueError before touching the machine.  Otherwise the ROM bytes
    are at 0x200 and following, every other memory byte is as before (the
    tail of a longer program loaded earlier stays), PC is 0x200, [halted]
    is cleared, and registers, stack, SP, I, timers and display are left
    as they were. *)
Theorem load_rom_overlays_the_program (rom : list Z) (s : Chip8 K R) :
  (MEMORY_SIZE - 0x200 < Z.of_nat (length rom) -> load_rom rom s = (Raise ValueError, s))
  /\ (Forall (fun b => 0 <= b < 256) rom ->
      Z.of_nat (length rom) <= MEMORY_SIZE - 0x200 ->
      length (memory s) = Z.to_nat MEMORY_SIZE ->
      exists mem,
        load_rom rom s
        = (Ok tt, set_rom_loaded true (set_halted false (set_pc 0x200 (set_memory mem s))))
        /\ length mem = Z.to_nat MEMORY_SIZE
        /\ (forall k, 0 <= k < Z.of_nat (length rom) ->
                      mem !!! Z.to_nat (0x200 + k) = rom !!! Z.to_nat k)
        /\ (forall j, 0 <= j < 0x200 \/ 0x200 + Z.of_nat (length rom) <= j < MEMORY_SIZE ->
                      mem !!! Z.to_nat j = memory s !!! Z.to_nat j)).
Proof.
  split; [|apply load_rom_ok].
  intros Hbig. unfold load_rom. cbv zeta.
  destruct (Z.gtb_spec (Z.of_nat (length rom)) (MEMORY_SIZE - 512)); [done | lia].
Qed.

(** X7. After [load_rom] the first fetch returns the first two ROM bytes as
    a big-endian word and leaves PC at 0x202. *)
Theorem first_fetch_after_load_rom (rom : list Z) (s : Chip8 K R) :
  Forall (fun b => 0 <= b < 256) rom ->
  2 <= Z.of_nat (length rom) <= MEMORY_SIZE - 0x200 ->
  length (memory s) = Z.to_nat MEMORY_SIZE ->
  exists s',
    (load_rom rom ;; fetch_opcode) s
    = (Ok (rom !!! 0%nat * 256 + rom !!! 1%nat), s')
    /\ pc s' = 0x202 /\ halted s' = false.
Proof.
  intros Hrom Hlen Hmem.
  destruct (load_rom_ok rom s) as (mem & Hrun & Hl & Hin & Hout); [done | lia | done |].
  assert (H0 : mem !!! Z.to_nat 512 = rom !!! 0%nat) by (apply (Hin 0); lia).
  assert (H1 : mem !!! Z.to_nat (512 + 1) = rom !!! 1%nat) by (apply (Hin 1); lia).
  eexists. unfold bind at 1. rewrite Hrun.
  rewrite fetch_opcode_ok.
  - change (memory (set_rom_loaded _ _)) with mem.
    change (pc (set_rom_loaded _ _)) with 512.
    rewrite H0, H1. done.
  - done.
  - done.
  - change (memory (set_rom_loaded _ _)) with mem.
    change (pc (set_rom_loaded _ _)) with 512.
    rewrite H1.
    apply (Forall_lookup_1 (fun b => 0 <= b < 256) rom 1); [done|].
    apply list_lookup_lookup_total_lt. lia.
Qed.

Lemma run_steps_unrolls (todo : nat) (s : Chip8 K R) :
  run_steps todo s = for_range_from 0 todo (fun _ => step) s.
Proof.
  assert (Hgen : forall i, run_steps todo s = for_range_from i todo (fun _ => step) s).
  { revert s. induction todo as [|todo IH]; intros s i; [done|].
    cbn [run_steps for_range_from]. unfold bind at 1. unfold get at 1.
    destruct (halted s) eqn:Hh.
    - unfold bind. rewrite step_when_halted by done.
      rewrite <- (IH s (i + 1)). destruct todo; cbn [run_steps]; unfold bind, get, ret; [done|].
      by rewrite Hh.
    - unfold bind. destruct (step s) as [[[] | e] s1]; [apply IH | done]. }
  apply Hgen.
Qed.

(** X8. The instruction loop of [run_frame] is [cycles_per_frame] steps in
    sequence: its own test of [halted] only skips steps that would do
    nothing.  With [cycles_per_frame] zero or negative, or on a halted
    machine, it does nothing. *)
Theorem frame_loop_is_steps_in_sequence (todo : nat) (s : Chip8 K R) :
  run_steps todo s = for_range_from 0 todo (fun _ => step) s
  /\ (cycles_per_frame s <= 0 -> run_steps (Z.to_nat (cycles_per_frame s)) s = (Ok tt, s))
  /\ (halted s = true -> run_steps todo s = (Ok tt, s)).
Proof.
  split; [apply run_steps_unrolls|]. split.
  - intros Hc. by replace (Z.to_nat (cycles_per_frame s)) with 0%nat by lia.
  - intros Hh. destruct todo; [done|]. cbn [run_steps]. unfold bind, get. by rewrite Hh.
Qed.

Lemma halted_frame (s : Chip8 K R) :
  halted s = true -> run_frame s = (Ok tt, ticked_and_presented s).
Proof.
  intros Hh. unfold run_frame. unfold bind at 1. unfold get at 1. rewrite Hh.
  apply update_timers_then_render.
Qed.

Lemma ticks_count_down (n : nat) (s : Chip8 K R) :
  0 <= delay_timer s ->
  let s' := Nat.iter n ticked_and_presented s in
  delay_timer s' = Z.max 0 (delay_timer s - Z.of_nat n)
  /\ sound s' = Nat.iter n Sound.update (sound s)
  /\ halted s' = halted s
  /\ (memory s', V s', stack s', sp s', pc s', I s', input_handler s')
     = (memory s, V s, stack s, sp s, pc s, I s, input_handler s).
Proof.
  intros Hd. induction n as [|n IH].
  - change (Nat.iter 0 ticked_and_presented s) with s. cbv zeta.
    split; [lia|]. done.
  - cbv zeta in *. rewrite !Nat.iter_succ.
    destruct IH as (IHd & IHs & IHh & IHf).
    set (u := Nat.iter n ticked_and_presented s) in *.
    unfold ticked_and_presented.
    destruct (Z.gtb_spec (delay_timer u) 0); cbn; (split; [lia|]); rewrite IHs; done.
Qed.

Lemma halted_frames (n : nat) (s : Chip8 K R) :
  halted s = true ->
  Nat.iter n (fun t => snd (run_frame t)) s = Nat.iter n ticked_and_presented s.
Proof.
  intros Hh. induction n as [|n IH]; [done|].
  rewrite !Nat.iter_succ, IH. rewrite halted_frame; [done|].
  clear IH. induction n as [|n IH]; [done|].
  rewrite Nat.iter_succ. unfold ticked_and_presented.
  by destruct (delay_timer _ >? 0).
Qed.

(** X9. [run_frame] called again and again on a halted machine, as a
    caller that catches the fault may do ([main] does not: the fault that
    halts the machine ends it): after any number of calls the next one
    returns normally, both timers have counted down towards zero by one
    for each call, the machine is still halted, and memory, registers,
    stack, SP, PC, I and the input backend are untouched (events are not
    polled). *)
Theorem halted_machine_keeps_ticking (n : nat) (s : Chip8 K R) :
  halted s = true ->
  0 <= delay_timer s ->
  0 <= Sound.timer (sound s) ->
  let s' := Nat.iter n (fun t => snd (run_frame t)) s in
  fst (run_frame s') = Ok tt
  /\ delay_timer s' = Z.max 0 (delay_timer s - Z.of_nat n)
  /\ Sound.timer (sound s') = Z.max 0 (Sound.timer (sound s) - Z.of_nat n)
  /\ halted s' = true
  /\ (memory s', V s', stack s', sp s', pc s', I s', input_handler s')
     = (memory s, V s, stack s, sp s, pc s, I s, input_handler s).
Proof.
  intros Hh Hd Ht. cbv zeta. rewrite halted_frames by done.
  destruct (ticks_count_down n s Hd) as (Hd' & Hs' & Hh' & Hf').
  split; [|split; [done|split; [|split; [congruence | done]]]].
  - rewrite halted_frame; [done|congruence].
  - rewrite Hs'. by apply update_timer_after.
Qed.



Lemma fontset_loaded (fontset : list Z) (s : Chip8 K R) :
  Forall (fun b => 0 <= b < 256) fontset ->
  Z.of_nat (length fontset) <= Z.of_nat (length (memory s)) ->
  exists mem,
    load_fontset fontset s = (Ok tt, set_memory mem s)
    /\ length mem = length (memory s)
    /\ forall j : Z,
         0 <= j ->
         mem !! Z.to_nat j
         = if j <? Z.of_nat (length fontset) then fontset !! Z.to_nat j
           else memory s !! Z.to_nat j.
Proof.
  intros Hf Hlen. unfold load_fontset, for_range. rewrite Nat2Z.id.
  destruct (copy_writes fontset 0 (length fontset) 0 s) as (mem & Hrun & Hl & Hlk);
    try done; try lia.
  exists mem. split; [exact Hrun|]. split; [done|].
  intros j Hj. rewrite Hlk by done. replace (j - 0) with j by lia. cmp_cases.
Qed.

(** X11. [Chip8(...)] with a font of at most MEMORY_SIZE bytes returns a
    well-formed machine: the font at address 0, zero elsewhere, registers
    and stack zero, SP, I and timers 0, PC 0x200, not halted, a blank
    64 x 32 display.  When a config is passed, its [cycles_per_frame] is
    used and the [cycles_per_frame] argument is ignored. *)
Theorem new_machine_is_well_formed (cycles : Z) (cfg : option EmulatorConfig.t)
        (fontset : list Z) (tk_there pygame_up : bool) (input : K) (rand : R) :
  Forall (fun b => 0 <= b < 256) fontset ->
  Z.of_nat (length fontset) <= MEMORY_SIZE ->
  let out := new cycles cfg fontset tk_there pygame_up input rand in
  let s := snd out in
  fst out = Ok tt
  /\ well_formed s
  /\ (forall i, 0 <= i < Z.of_nat (length fontset) ->
                memory s !!! Z.to_nat i = fontset !!! Z.to_nat i)
  /\ (forall i, Z.of_nat (length fontset) <= i < MEMORY_SIZE -> memory s !!! Z.to_nat i = 0)
  /\ V s = replicate 16 0
  /\ stack s = replicate 16 0
  /\ (sp s, pc s, I s, delay_timer s, Sound.timer (sound s)) = (0, 0x200, 0, 0, 0)
  /\ (halted s, rom_loaded s) = (false, false)
  /\ display s = Display.init SCREEN_WIDTH SCREEN_HEIGHT
  /\ cycles_per_frame s
     = match cfg with Some c => EmulatorConfig.cycles_per_frame c | None => cycles end.
Proof.
  intros Hf Hlen out s. subst s out. unfold new.
  match goal with |- context [load_fontset fontset ?s0] => set (s0' := s0) end.
  destruct (fontset_loaded fontset s0') as (mem & Hrun & Hl & Hlk); [done | |].
  { subst s0'. cbn [memory]. rewrite length_replicate. unfold MEMORY_SIZE in *. lia. }
  rewrite Hrun. cbn [fst snd].
  assert (Hl' : length mem = 4096%nat).
  { rewrite Hl. subst s0'. cbn [memory]. by rewrite length_replicate. }
  assert (Hfont : forall i, 0 <= i < Z.of_nat (length fontset) ->
                            mem !!! Z.to_nat i = fontset !!! Z.to_nat i).
  { intros i Hi. apply list_lookup_total_correct. rewrite Hlk by lia.
    rewrite (list_lookup_lookup_total_lt fontset (Z.to_nat i)) by lia. cmp_cases. }
  assert (Hzero : forall i, Z.of_nat (length fontset) <= i < MEMORY_SIZE ->
                            mem !!! Z.to_nat i = 0).
  { intros i Hi. unfold MEMORY_SIZE in *. apply list_lookup_total_correct. rewrite Hlk by lia.
    subst s0'. cbn [memory]. rewrite lookup_replicate_2 by lia. cmp_cases. }
  split; [done|]. split; [|split; [exact Hfont|split; [exact Hzero|]]].
  - unfold well_formed. split; [|split; [|split; [|split]]].
    + unfold arrays_typed. cbn [memory V stack set_memory].
      rewrite andb_true_iff. split; [rewrite andb_true_iff; split|].
      * unfold is_array. rewrite andb_true_iff. split; [unfold MEMORY_SIZE; lia|].
        apply forallb_forall. intros b Hb.
        apply list_elem_of_In, list_elem_of_lookup in Hb as [k Hk].
        apply in_range_spec. unfold B_bound.
        pose proof (lookup_lt_Some _ _ _ Hk) as Hklt.
        destruct (Z.ltb_spec (Z.of_nat k) (Z.of_nat (length fontset))).
        -- specialize (Hfont (Z.of_nat k) ltac:(lia)). rewrite Nat2Z.id in Hfont.
           rewrite (list_lookup_total_correct _ _ _ Hk) in Hfont. rewrite Hfont.
           apply (Forall_lookup_1 (fun b => 0 <= b < 256) fontset k); [done|].
           apply list_lookup_lookup_total_lt. lia.
        -- specialize (Hzero (Z.of_nat k) ltac:(unfold MEMORY_SIZE; lia)).
           rewrite Nat2Z.id in Hzero.
           rewrite (list_lookup_total_correct _ _ _ Hk) in Hzero. lia.
      * subst s0'. vm_compute. reflexivity.
      * subst s0'. vm_compute. reflexivity.
    + subst s0'. vm_compute. reflexivity.
    + subst s0'. unfold sp_ok, STACK_SIZE. cbn. lia.
    + subst s0'. cbn. lia.
    + subst s0'. vm_compute. reflexivity.
  - subst s0'. cbn. repeat apply conj; try reflexivity. by destruct cfg.
Qed.
End MoreEngineFacts.

(** ** More instructions *)

Section Instructions.
Context {K R : Type} `{!Host K R}.

Lemma writeMem_ok (s : Chip8 K R) (i v : Z) :
  0 <= i < Z.of_nat (length (memory s)) -> 0 <= v < 256 ->
  writeMem i v s = (Ok tt, set_memory (<[Z.to_nat i := v]> (memory s)) s).
Proof.
  intros Hi Hv. unfold writeMem. by rewrite array_setitem_in_range.
Qed.

Lemma readMem_ok (s : Chip8 K R) (i : Z) :
  0 <= i < Z.of_nat (length (memory s)) ->
  readMem i s = (Ok (memory s !!! Z.to_nat i), s).
Proof. intros Hi. unfold readMem. by rewrite getitem_lookup. Qed.

(** X12. Fx33 with I + 2 inside memory writes the hundreds, tens and units
    digit of Vx at I, I + 1 and I + 2 and nothing else; the three digits
    are decimal digits and give Vx back. *)
Theorem Fx33_stores_the_decimal_digits (s : Chip8 K R) (opcode : Z) :
  op_class opcode = 0xF -> nn_field opcode = 0x33 ->
  length (V s) = 16%nat ->
  0 <= reg s (x_field opcode) < 256 ->
  0 <= I s -> I s + 2 < Z.of_nat (length (memory s)) ->
  let v := reg s (x_field opcode) in
  decode_and_execute opcode s
  = (Ok tt,
     set_memory (<[Z.to_nat (I s + 2) := v mod 10]>
                   (<[Z.to_nat (I s + 1) := (v / 10) mod 10]>
                      (<[Z.to_nat (I s) := v / 100]> (memory s)))) s)
  /\ v = 100 * (v / 100) + 10 * ((v / 10) mod 10) + v mod 10
  /\ 0 <= v / 100 <= 2 /\ 0 <= (v / 10) mod 10 <= 9 /\ 0 <= v mod 10 <= 9.
Proof.
  intros Hop Hnn HV Hv HI0 HI2 v. subst v.
  set (v := reg s (x_field opcode)) in *.
  split; [|Z.to_euclidean_division_equations; lia].
  unfold op_class in Hop. unfold nn_field in Hnn.
  unfold decode_and_execute; cbv zeta; rewrite Hop, Hnn; closed_eqb.
  fold (x_field opcode).
  unfold bind at 1. rewrite readV_ok by (done || apply x_field_range). fold v.
  unfold bind at 1. unfold get at 1.
  unfold bind at 1. rewrite writeMem_ok by (lia || (Z.to_euclidean_division_equations; lia)).
  unfold bind at 1.
  rewrite writeMem_ok;
    [|cbn [memory set_memory]; rewrite length_insert; lia
     |Z.to_euclidean_division_equations; lia].
  rewrite writeMem_ok;
    [|cbn [memory set_memory]; rewrite !length_insert; lia
     |Z.to_euclidean_division_equations; lia].
  reflexivity.
Qed.

Lemma store_writes (count : nat) (i : Z) (s : Chip8 K R) :
  length (V s) = 16%nat ->
  Forall (fun b => 0 <= b < 256) (V s) ->
  0 <= i -> i + Z.of_nat count <= 16 ->
  0 <= I s -> I s + i + Z.of_nat count <= Z.of_nat (length (memory s)) ->
  exists mem,
    for_range_from i count
      (fun i => let* vi := readV i in let* s := get in writeMem (I s + i) vi) s
    = (Ok tt, set_memory mem s)
    /\ length mem = length (memory s)
    /\ forall j : Z,
         0 <= j ->
         mem !! Z.to_nat j
         = if (I s + i <=? j) && (j <? I s + i + Z.of_nat count)
           then V s !! Z.to_nat (j - I s) else memory s !! Z.to_nat j.
Proof.
  revert i s. induction count as [|count IH]; intros i s HV Hb Hi Hlen HI Hmem.
  - exists (memory s). split; [by destruct s|]. split; [done|].
    intros j Hj. cmp_cases.
  - cbn [for_range_from]. unfold bind at 1. unfold bind at 1.
    rewrite readV_ok by (done || lia).
    unfold bind at 1. unfold get at 1.
    assert (Hr : 0 <= reg s i < 256).
    { apply (Forall_lookup_1 (fun b => 0 <= b < 256) (V s) (Z.to_nat i)); [done|].
      apply list_lookup_lookup_total_lt. lia. }
    rewrite writeMem_ok by lia.
    set (s1 := set_memory _ s).
    destruct (IH (i + 1) s1) as (mem & Hrun & Hl & Hlk); try done; try lia.
    { subst s1; cbn [memory set_memory I]. rewrite length_insert. lia. }
    exists mem. split; [|split].
    + rewrite Hrun. subst s1. reflexivity.
    + rewrite Hl. subst s1; cbn [memory set_memory]. by rewrite length_insert.
    + intros j Hj. rewrite Hlk by done. subst s1; cbn [memory set_memory I V].
      destruct (Z.eq_dec j (I s + i)) as [->|Hne].
      * rewrite list_lookup_insert_eq by lia.
        replace (I s + i - I s) with i by lia.
        unfold reg. rewrite (list_lookup_lookup_total_lt (V s) (Z.to_nat i)) by lia.
        cmp_cases.
      * rewrite list_lookup_insert_ne by lia. cmp_cases.
Qed.

Lemma load_writes (count : nat) (i : Z) (s : Chip8 K R) :
  length (V s) = 16%nat ->
  Forall (fun b => 0 <= b < 256) (memory s) ->
  0 <= i -> i + Z.of_nat count <= 16 ->
  0 <= I s -> I s + i + Z.of_nat count <= Z.of_nat (length (memory s)) ->
  exists v,
    for_range_from i count
      (fun i => let* s := get in let* b := readMem (I s + i) in writeV i b) s
    = (Ok tt, set_V v s)
    /\ length v = 16%nat
    /\ forall j : Z,
         0 <= j ->
         v !! Z.to_nat j
         = if (i <=? j) && (j <? i + Z.of_nat count)
           then memory s !! Z.to_nat (I s + j) else V s !! Z.to_nat j.
Proof.
  revert i s. induction count as [|count IH]; intros i s HV Hb Hi Hlen HI Hmem.
  - exists (V s). split; [by destruct s|]. split; [done|].
    intros j Hj. cmp_cases.
  - cbn [for_range_from]. unfold bind at 1. unfold bind at 1. unfold get at 1.
    unfold bind at 1. rewrite readMem_ok by lia.
    assert (Hr : 0 <= memory s !!! Z.to_nat (I s + i) < 256).
    { apply (Forall_lookup_1 (fun b => 0 <= b < 256) (memory s) (Z.to_nat (I s + i))); [done|].
      apply list_lookup_lookup_total_lt. lia. }
    rewrite writeV_ok by (done || lia).
    set (s1 := set_V _ s).
    destruct (IH (i + 1) s1) as (v & Hrun & Hl & Hlk); try done; try lia.
    { subst s1; cbn [V set_V]. by rewrite length_insert. }
    { subst s1; cbn [I memory set_V]. lia. }
    exists v. split; [|split; [done|]].
    + rewrite Hrun. subst s1. reflexivity.
    + intros j Hj. rewrite Hlk by done. subst s1; cbn [memory set_V I V].
      destruct (Z.eq_dec j i) as [->|Hne].
      * rewrite list_lookup_insert_eq by lia.
        rewrite (list_lookup_lookup_total_lt (memory s) (Z.to_nat (I s + i))) by lia.
        cmp_cases.
      * rewrite list_lookup_insert_ne by lia. cmp_cases.
Qed.

Lemma Fx55_ok (s : Chip8 K R) (opcode : Z) :
  op_class opcode = 0xF -> nn_field opcode = 0x55 ->
  length (V s) = 16%nat ->
  Forall (fun b => 0 <= b < 256) (V s) ->
  0 <= I s -> I s + x_field opcode < Z.of_nat (length (memory s)) ->
  exists mem,
    decode_and_execute opcode s
    = (Ok tt,
       if QuirkConfig.load_store_increment_i (EmulatorConfig.quirks (config s))
       then set_I (I s + (x_field opcode + 1)) (set_memory mem s)
       else set_memory mem s)
    /\ length mem = length (memory s)
    /\ forall j : Z,
         0 <= j ->
         mem !! Z.to_nat j
         = if (I s <=? j) && (j <? I s + (x_field opcode + 1))
           then V s !! Z.to_nat (j - I s) else memory s !! Z.to_nat j.
Proof.
  intros Hop Hnn HV Hb HI Hfit.
  pose proof (x_field_range opcode) as Hx.
  destruct (store_writes (Z.to_nat (x_field opcode + 1)) 0 s) as (mem & Hrun & Hl & Hlk);
    try done; try lia.
  exists mem. split; [|split; [done|]].
  - unfold op_class in Hop. unfold nn_field in Hnn.
    unfold decode_and_execute; cbv zeta; rewrite Hop, Hnn; closed_eqb.
    fold (x_field opcode). unfold for_range.
    unfold bind at 1. rewrite Hrun. unfold bind, get. cbn [config set_memory].
    by destruct (QuirkConfig.load_store_increment_i _).
  - intros j Hj. rewrite Hlk by done.
    replace (I s + 0) with (I s) by lia.
    replace (Z.of_nat (Z.to_nat (x_field opcode + 1))) with (x_field opcode + 1) by lia.
    reflexivity.
Qed.

Lemma Fx65_ok (s : Chip8 K R) (opcode : Z) :
  op_class opcode = 0xF -> nn_field opcode = 0x65 ->
  length (V s) = 16%nat ->
  Forall (fun b => 0 <= b < 256) (memory s) ->
  0 <= I s -> I s + x_field opcode < Z.of_nat (length (memory s)) ->
  exists v,
    decode_and_execute opcode s
    = (Ok tt,
       if QuirkConfig.load_store_increment_i (EmulatorConfig.quirks (config s))
       then set_I (I s + (x_field opcode + 1)) (set_V v s)
       else set_V v s)
    /\ length v = 16%nat
    /\ forall j : Z,
         0 <= j ->
         v !! Z.to_nat j
         = if j <? x_field opcode + 1
           then memory s !! Z.to_nat (I s + j) else V s !! Z.to_nat j.
Proof.
  intros Hop Hnn HV Hb HI Hfit.
  pose proof (x_field_range opcode) as Hx.
  destruct (load_writes (Z.to_nat (x_field opcode + 1)) 0 s) as (v & Hrun & Hl & Hlk);
    try done; try lia.
  exists v. split; [|split; [done|]].
  - unfold op_class in Hop. unfold nn_field in Hnn.
    unfold decode_and_execute; cbv zeta; rewrite Hop, Hnn; closed_eqb.
    fold (x_field opcode). unfold for_range.
    unfold bind at 1. rewrite Hrun. unfold bind, get. cbn [config set_V].
    by destruct (QuirkConfig.load_store_increment_i _).
  - intros j Hj. rewrite Hlk by done.
    replace (0 + Z.of_nat (Z.to_nat (x_field opcode + 1))) with (x_field opcode + 1) by lia.
    destruct (Z.leb_spec 0 j); [done | lia].
Qed.

(** X13. Fx55 with I + x inside memory copies V0..Vx to memory[I..I+x],
    leaves the rest of memory and the registers alone, and advances I by
    x + 1 exactly when load_store_increment_i is set. *)
Theorem Fx55_stores_V0_to_Vx (s : Chip8 K R) (opcode : Z) :
  op_class opcode = 0xF -> nn_field opcode = 0x55 ->
  length (V s) = 16%nat ->
  Forall (fun b => 0 <= b < 256) (V s) ->
  0 <= I s -> I s + x_field opcode < Z.of_nat (length (memory s)) ->
  exists mem,
    decode_and_execute opcode s
    = (Ok tt,
       if QuirkConfig.load_store_increment_i (EmulatorConfig.quirks (config s))
       then set_I (I s + (x_field opcode + 1)) (set_memory mem s)
       else set_memory mem s)
    /\ length mem = length (memory s)
    /\ (forall k, 0 <= k <= x_field opcode -> mem !!! Z.to_nat (I s + k) = reg s k)
    /\ (forall j, 0 <= j < Z.of_nat (length (memory s)) ->
                  ~ (I s <= j <= I s + x_field opcode) ->
                  mem !!! Z.to_nat j = memory s !!! Z.to_nat j).
Proof.
  intros Hop Hnn HV Hb HI Hfit.
  pose proof (x_field_range opcode) as Hx.
  destruct (Fx55_ok s opcode) as (mem & Hrun & Hl & Hlk); try done.
  exists mem. split; [done|]. split; [done|]. split.
  - intros k Hk. apply list_lookup_total_correct. rewrite Hlk by lia.
    replace (I s + k - I s) with k by lia.
    unfold reg. rewrite (list_lookup_lookup_total_lt (V s) (Z.to_nat k)) by lia. cmp_cases.
  - intros j Hj Hout. apply list_lookup_total_correct. rewrite Hlk by lia.
    rewrite (list_lookup_lookup_total_lt (memory s) (Z.to_nat j)) by lia. cmp_cases.
Qed.

(** X14. Fx65 with I + x inside memory copies memory[I..I+x] to V0..Vx,
    leaves the registers above Vx and memory alone, and advances I by
    x + 1 exactly when load_store_increment_i is set. *)
Theorem Fx65_loads_V0_to_Vx (s : Chip8 K R) (opcode : Z) :
  op_class opcode = 0xF -> nn_field opcode = 0x65 ->
  length (V s) = 16%nat ->
  Forall (fun b => 0 <= b < 256) (memory s) ->
  0 <= I s -> I s + x_field opcode < Z.of_nat (length (memory s)) ->
  exists v,
    decode_and_execute opcode s
    = (Ok tt,
       if QuirkConfig.load_store_increment_i (EmulatorConfig.quirks (config s))
       then set_I (I s + (x_field opcode + 1)) (set_V v s)
       else set_V v s)
    /\ length v = 16%nat
    /\ (forall k, 0 <= k <= x_field opcode ->
                  v !!! Z.to_nat k = memory s !!! Z.to_nat (I s + k))
    /\ (forall k, x_field opcode < k < 16 -> v !!! Z.to_nat k = reg s k).
Proof.
  intros Hop Hnn HV Hb HI Hfit.
  pose proof (x_field_range opcode) as Hx.
  destruct (Fx65_ok s opcode) as (v & Hrun & Hl & Hlk); try done.
  exists v. split; [done|]. split; [done|]. split.
  - intros k Hk. apply list_lookup_total_correct. rewrite Hlk by lia.
    rewrite (list_lookup_lookup_total_lt (memory s) (Z.to_nat (I s + k))) by lia. cmp_cases.
  - intros k Hk. apply list_lookup_total_correct. rewrite Hlk by lia.
    unfold reg. rewrite (list_lookup_lookup_total_lt (V s) (Z.to_nat k)) by lia. cmp_cases.
Qed.

Lemma set_V_same (s : Chip8 K R) : set_V (V s) s = s.
Proof. by destruct s. Qed.

Lemma set_memory_same (s : Chip8 K R) : set_memory (memory s) s = s.
Proof. by destruct s. Qed.

Lemma lookup_Z_ext (l1 l2 : list Z) :
  (forall j : Z, 0 <= j -> l1 !! Z.to_nat j = l2 !! Z.to_nat j) -> l1 = l2.
Proof.
  intros Hj. apply list_eq. intros k. specialize (Hj (Z.of_nat k) ltac:(lia)).
  by rewrite Nat2Z.id in Hj.
Qed.

(** X15. With load_store_increment_i off, Fx55 followed by Fx65 for the
    same x leaves the registers as they were, and Fx65 followed by Fx55
    leaves memory as it was. *)
Theorem store_then_load_round_trips (s : Chip8 K R) (store load : Z) :
  op_class store = 0xF -> nn_field store = 0x55 ->
  op_class load = 0xF -> nn_field load = 0x65 ->
  x_field load = x_field store ->
  QuirkConfig.load_store_increment_i (EmulatorConfig.quirks (config s)) = false ->
  length (V s) = 16%nat ->
  Forall (fun b => 0 <= b < 256) (V s) ->
  Forall (fun b => 0 <= b < 256) (memory s) ->
  0 <= I s -> I s + x_field store < Z.of_nat (length (memory s)) ->
  (exists s1,
      decode_and_execute store s = (Ok tt, s1)
      /\ decode_and_execute load s1 = (Ok tt, s1)
      /\ V s1 = V s)
  /\ (exists s2,
         decode_and_execute load s = (Ok tt, s2)
         /\ decode_and_execute store s2 = (Ok tt, s2)
         /\ memory s2 = memory s).
Proof.
  intros Hs1 Hs2 Hl1 Hl2 Hx Hq HV HbV Hbm HI Hfit.
  pose proof (x_field_range store) as Hxr.
  split.
  - destruct (Fx55_ok s store) as (mem & Hrun & Hlen & Hlk); try done.
    rewrite Hq in Hrun. exists (set_memory mem s). split; [done|]. split; [|done].
    destruct (Fx65_ok (set_memory mem s) load) as (v & Hrun' & Hlen' & Hlk'); try done.
    { cbn [memory set_memory]. apply Forall_lookup_2. intros k b Hk.
      specialize (Hlk (Z.of_nat k) ltac:(lia)). rewrite Nat2Z.id, Hk in Hlk.
      destruct (_ && _).
      - by apply (Forall_lookup_1 _ _ _ _ HbV (eq_sym Hlk)).
      - by apply (Forall_lookup_1 _ _ _ _ Hbm (eq_sym Hlk)). }
    { cbn [memory set_memory I]. lia. }
    cbn [config set_memory] in Hrun'. rewrite Hq in Hrun'. rewrite Hrun'.
    f_equal. rewrite <- (set_V_same (set_memory mem s)) at 2. f_equal.
    apply lookup_Z_ext. intros j Hj. rewrite Hlk' by done.
    cbn [memory set_memory I V]. rewrite Hx.
    destruct (Z.ltb_spec j (x_field store + 1)); [|done].
    rewrite Hlk by lia. replace (I s + j - I s) with j by lia. cmp_cases.
  - destruct (Fx65_ok s load) as (v & Hrun & Hlen & Hlk); try done; [lia|].
    rewrite Hq in Hrun. exists (set_V v s). split; [done|]. split; [|done].
    destruct (Fx55_ok (set_V v s) store) as (mem & Hrun' & Hlen' & Hlk'); try done.
    { cbn [V set_V]. apply Forall_lookup_2. intros k b Hk.
      specialize (Hlk (Z.of_nat k) ltac:(lia)). rewrite Nat2Z.id, Hk in Hlk.
      destruct (_ <? _).
      - by apply (Forall_lookup_1 _ _ _ _ Hbm (eq_sym Hlk)).
      - by apply (Forall_lookup_1 _ _ _ _ HbV (eq_sym Hlk)). }
    cbn [config set_V] in Hrun'. rewrite Hq in Hrun'. rewrite Hrun'.
    f_equal. rewrite <- (set_memory_same (set_V v s)) at 2. f_equal.
    apply lookup_Z_ext. intros j Hj. rewrite Hlk' by done.
    cbn [memory set_V I V].
    destruct (Z.leb_spec (I s) j), (Z.ltb_spec j (I s + (x_field store + 1))); cbn [andb]; try done.
    rewrite Hlk by lia. rewrite Hx.
    replace (I s + (j - I s)) with j by lia. cmp_cases.
Qed.

Lemma sprite_read (count : nat) (i base : Z) (s : Chip8 K R) :
  0 <= base + i -> base + i + Z.of_nat count <= Z.of_nat (length (memory s)) ->
  list_comp_from i count (fun i => readMem (base + i)) s
  = (Ok (take count (drop (Z.to_nat (base + i)) (memory s))), s).
Proof.
  revert i. induction count as [|count IH]; intros i Hi Hfit; [done|].
  cbn [list_comp_from]. unfold bind at 1. rewrite readMem_ok by lia.
  unfold bind at 1. rewrite IH by lia. unfold ret.
  rewrite (drop_S (memory s) (memory s !!! Z.to_nat (base + i)) (Z.to_nat (base + i)))
    by (apply list_lookup_lookup_total_lt; lia).
  cbn [take]. by replace (Z.to_nat (base + (i + 1))) with (S (Z.to_nat (base + i))) by lia.
Qed.

Lemma Dxyn_ok (s : Chip8 K R) (opcode : Z) :
  op_class opcode = 0xD ->
  length (V s) = 16%nat ->
  0 <= reg s (x_field opcode) -> 0 <= reg s (y_field opcode) ->
  0 <= I s -> I s + n_field opcode <= MEMORY_SIZE ->
  length (memory s) = Z.to_nat MEMORY_SIZE ->
  grid_ok (display s) = true ->
  let sprite := take (Z.to_nat (n_field opcode)) (drop (Z.to_nat (I s)) (memory s)) in
  let out := draw_spec (display s) (reg s (x_field opcode)) (reg s (y_field opcode)) sprite
                       (n_field opcode)
                       (QuirkConfig.draw_wrap (EmulatorConfig.quirks (config s))) in
  decode_and_execute opcode s
  = (Ok tt,
     set_V (<[15%nat := if fst out then 1 else 0]> (V s))
       (set_display (Display.set_draw_flag true (Display.set_pixels (snd out) (display s))) s)).
Proof.
  intros Hop HV Hx Hy HI Hfit Hmem Hgrid sprite out.
  pose proof (n_field_range opcode) as Hn.
  unfold op_class in Hop.
  unfold decode_and_execute; cbv zeta; rewrite Hop; closed_eqb.
  fold (x_field opcode) (y_field opcode) (n_field opcode).
  unfold bind at 1. rewrite readV_ok by (done || apply x_field_range).
  unfold bind at 1. rewrite readV_ok by (done || apply y_field_range).
  unfold bind at 1. unfold get at 1.
  destruct (Z.gtb_spec (I s + n_field opcode) MEMORY_SIZE); [lia|].
  unfold bind at 1. rewrite sprite_read by (unfold MEMORY_SIZE in *; lia).
  replace (Z.to_nat (I s + 0)) with (Z.to_nat (I s)) by lia. fold sprite.
  unfold bind at 1. unfold zoom.
  rewrite draw_sprite_spec; [|done..|].
  - fold out. rewrite writeV_ok; [reflexivity|done|lia|by destruct (fst out)].
  - subst sprite. rewrite length_take, length_drop. unfold MEMORY_SIZE in *. lia.
Qed.

(** X16. Dxyn with I + n inside memory draws the n bytes at I as a sprite
    at (Vx, Vy) under the draw_wrap switch, as the display's draw call
    does, and sets VF to 1 if the draw collided and to 0 otherwise; the
    grid keeps its size. *)
Theorem Dxyn_draws_the_sprite_at_I (s : Chip8 K R) (opcode : Z) :
  op_class opcode = 0xD ->
  length (V s) = 16%nat ->
  0 <= reg s (x_field opcode) -> 0 <= reg s (y_field opcode) ->
  0 <= I s -> I s + n_field opcode <= MEMORY_SIZE ->
  length (memory s) = Z.to_nat MEMORY_SIZE ->
  grid_ok (display s) = true ->
  let sprite := take (Z.to_nat (n_field opcode)) (drop (Z.to_nat (I s)) (memory s)) in
  let out := draw_spec (display s) (reg s (x_field opcode)) (reg s (y_field opcode)) sprite
                       (n_field opcode)
                       (QuirkConfig.draw_wrap (EmulatorConfig.quirks (config s))) in
  decode_and_execute opcode s
  = (Ok tt,
     set_V (<[15%nat := if fst out then 1 else 0]> (V s))
       (set_display (Display.set_draw_flag true (Display.set_pixels (snd out) (display s))) s))
  /\ (forall k, 0 <= k < n_field opcode -> sprite !!! Z.to_nat k = memory s !!! Z.to_nat (I s + k))
  /\ grid_ok (Display.set_draw_flag true (Display.set_pixels (snd out) (display s))) = true.
Proof.
  intros Hop HV Hx Hy HI Hfit Hmem Hgrid sprite out.
  split; [by apply Dxyn_ok|]. split.
  - intros k Hk. subst sprite. unfold MEMORY_SIZE in *.
    rewrite lookup_total_take, decide_True by lia. rewrite lookup_total_drop.
    f_equal. lia.
  - rewrite grid_ok_set_draw_flag. apply grid_ok_plot_all. done.
Qed.

(** X17. After 00E0 a draw reports no collision: VF is 0, for every sprite,
    position and wrap setting (on a display at least 8 wide and 15 high). *)
Theorem draw_on_a_cleared_screen_never_collides (s : Chip8 K R) (opcode : Z) :
  op_class opcode = 0xD ->
  length (V s) = 16%nat ->
  0 <= reg s (x_field opcode) -> 0 <= reg s (y_field opcode) ->
  0 <= I s -> I s + n_field opcode <= MEMORY_SIZE ->
  length (memory s) = Z.to_nat MEMORY_SIZE ->
  8 <= Display.width (display s) -> 15 <= Display.height (display s) ->
  exists s',
    execute_all [0x00E0; opcode] s = (Ok tt, s')
    /\ reg s' 0xF = 0.
Proof.
  intros Hop HV Hx Hy HI Hfit Hmem Hw Hh.
  pose proof (n_field_range opcode) as Hn.
  cbn [execute_all]. unfold bind at 1.
  change (decode_and_execute 0x00E0 s)
    with (Ok tt, set_display (Display.clear (display s)) s).
  set (s0 := set_display (Display.clear (display s)) s).
  assert (Hgrid : grid_ok (display s0) = true).
  { subst s0. cbn [display set_display]. apply grid_ok_intro; cbn; [lia|lia| |].
    - unfold Display.blank. rewrite length_replicate. lia.
    - unfold Display.blank. intros i line Hl. apply lookup_replicate in Hl as [-> _].
      rewrite length_replicate. lia. }
  unfold bind at 1. rewrite Dxyn_ok by done.
  eexists. unfold ret. split; [reflexivity|].
  unfold reg in Hx, Hy |- *. cbn [V set_V]. change (Z.to_nat 15) with 15%nat.
  rewrite list_lookup_total_insert_eq by (subst s0; cbn [V set_display]; lia).
  match goal with |- (if fst ?o then _ else _) = _ => assert (Hno : fst o = false) end;
    [|by rewrite Hno].
  unfold draw_spec, targets.
  subst s0. cbn [display set_display Display.clear Display.pixels Display.width Display.height
                 config V].
  apply (no_collision_on_unset (Display.width (display s)) (Display.height (display s))).
  - split.
    + unfold Display.blank. rewrite length_replicate. lia.
    + unfold Display.blank. intros i line Hl. apply lookup_replicate in Hl as [-> _].
      rewrite length_replicate. lia.
  - apply targets_on_grid; lia.
  - apply targets_NoDup; lia.
  - intros [r c] Hin. cbn [fst snd].
    assert (Hon : on_grid (Display.width (display s)) (Display.height (display s)) (r, c)).
    { apply list_elem_of_lookup in Hin as [k Hk].
      eapply (Forall_lookup_1 (on_grid _ _)); [|exact Hk].
      apply targets_on_grid; lia. }
    destruct Hon as [Hr Hc]. cbn [fst snd] in Hr, Hc.
    rewrite pixel_blank by done. done.
Qed.

(** X18. Cxnn stores [byte & nn] in Vx, which lies between 0 and nn and has
    no bit outside nn, whatever the generator returns; the instruction
    cannot fail on the value. *)
Theorem Cxnn_stays_within_the_mask (s : Chip8 K R) (opcode : Z) :
  op_class opcode = 0xC ->
  length (V s) = 16%nat ->
  let byte := fst (getrandbits8 (_rand s)) in
  decode_and_execute opcode s
  = (Ok tt,
     set_V (<[Z.to_nat (x_field opcode) := Z.land byte (nn_field opcode)]> (V s))
       (set_rand (snd (getrandbits8 (_rand s))) s))
  /\ 0 <= Z.land byte (nn_field opcode) <= nn_field opcode
  /\ Z.land (Z.land byte (nn_field opcode)) (nn_field opcode) = Z.land byte (nn_field opcode).
Proof.
  intros Hop HV byte.
  pose proof (nn_field_range opcode) as Hnn.
  assert (Hr : 0 <= Z.land byte (nn_field opcode) <= nn_field opcode).
  {
    apply Z.ldiff_le; [lia|].
    by rewrite Z.ldiff_land, <- Z.land_assoc, Z.land_lnot_diag, Z.land_0_r. }
  split; [|split; [done|]].
  - unfold op_class in Hop.
    unfold decode_and_execute; cbv zeta; rewrite Hop; closed_eqb.
    fold (x_field opcode) (nn_field opcode).
    unfold bind, rand_byte. subst byte.
    destruct (getrandbits8 (_rand s)) as [b r]. cbn [fst snd] in *.
    rewrite writeV_ok; [reflexivity|done|apply x_field_range|lia].
  - by rewrite <- Z.land_assoc, Z.land_diag.
Qed.

Lemma add_immediate (s : Chip8 K R) (opcode : Z) :
  op_class opcode = 0x7 ->
  length (V s) = 16%nat ->
  decode_and_execute opcode s
  = (Ok tt,
     set_V (<[Z.to_nat (x_field opcode) := (reg s (x_field opcode) + nn_field opcode) mod 256]>
              (V s)) s).
Proof.
  intros Hop HV. unfold op_class in Hop.
  unfold decode_and_execute; cbv zeta; rewrite Hop; closed_eqb.
  fold (x_field opcode) (nn_field opcode).
  unfold bind. rewrite readV_ok by (done || apply x_field_range).
  rewrite writeV_ok by (done || apply x_field_range || apply land_255_range).
  change 255 with (Z.ones 8). by rewrite Z.land_ones.
Qed.

(** X19. 7xnn adds modulo 256 and sets no flag: two of them in a row add
    the sum of their constants, and VF is left alone unless x is F. *)
Theorem additions_of_constants_accumulate (s : Chip8 K R) (a b : Z) :
  op_class a = 0x7 -> op_class b = 0x7 ->
  x_field b = x_field a ->
  length (V s) = 16%nat ->
  execute_all [a; b] s
  = (Ok tt,
     set_V (<[Z.to_nat (x_field a) :=
                (reg s (x_field a) + (nn_field a + nn_field b)) mod 256]> (V s)) s)
  /\ (x_field a <> 0xF -> reg (snd (execute_all [a; b] s)) 0xF = reg s 0xF).
Proof.
  intros Ha Hb Hx HV.
  pose proof (x_field_range a) as Hxr.
  assert (Hrun : execute_all [a; b] s
                 = (Ok tt,
                    set_V (<[Z.to_nat (x_field a) :=
                               (reg s (x_field a) + (nn_field a + nn_field b)) mod 256]> (V s)) s)).
  { cbn [execute_all]. unfold bind at 1. rewrite add_immediate by done.
    unfold bind at 1. rewrite add_immediate by (done || (cbn [V set_V]; by rewrite length_insert)).
    unfold ret. rewrite Hx. unfold reg at 1. cbn [V set_V].
    rewrite list_lookup_total_insert_eq by lia. rewrite list_insert_insert_eq.
    rewrite Zplus_mod_idemp_l. by rewrite Z.add_assoc. }
  split; [done|]. intros Hne. rewrite Hrun. cbn [snd]. unfold reg. cbn [V set_V].
  rewrite list_lookup_total_insert_ne; [done|]. change (Z.to_nat 15) with 15%nat. lia.
Qed.

Lemma reg_set_V (v : list Z) (s : Chip8 K R) (i : Z) : reg (set_V v s) i = v !!! Z.to_nat i.
Proof. reflexivity. Qed.

(** X20. For x other than F the result of an arithmetic instruction and
    its flag give the exact value: 8xy4 the sum, 8xy6 and 8xyE the shifted
    source.  8xy5 and 8xy7 (y other than F) give the difference modulo
    256 with VF = 1 only when the minuend is strictly greater; equal
    operands give 0 with VF = 0. *)
Theorem ALU_results_are_exact (s : Chip8 K R) (opcode : Z) :
  op_class opcode = 0x8 ->
  length (V s) = 16%nat ->
  x_field opcode <> 0xF ->
  let vx := reg s (x_field opcode) in
  let vy := reg s (y_field opcode) in
  let source := reg s (if QuirkConfig.shift_legacy (EmulatorConfig.quirks (config s))
                       then y_field opcode else x_field opcode) in
  let s' := snd (decode_and_execute opcode s) in
  0 <= vx < 256 -> 0 <= vy < 256 ->
  (n_field opcode = 0x4 -> reg s' (x_field opcode) + 256 * reg s' 0xF = vx + vy)
  /\ (n_field opcode = 0x6 -> 2 * reg s' (x_field opcode) + reg s' 0xF = source)
  /\ (n_field opcode = 0xE -> reg s' (x_field opcode) + 256 * reg s' 0xF = 2 * source)
  /\ (n_field opcode = 0x5 -> y_field opcode <> 0xF ->
      reg s' 0xF = (if vx >? vy then 1 else 0)
      /\ reg s' (x_field opcode) = vx - vy + (if vx >=? vy then 0 else 256))
  /\ (n_field opcode = 0x7 -> y_field opcode <> 0xF ->
      reg s' 0xF = (if vy >? vx then 1 else 0)
      /\ reg s' (x_field opcode) = vy - vx + (if vy >=? vx then 0 else 256)).
Proof.
  intros Hop HV Hxf vx vy source s' Hvx Hvy.
  pose proof (x_field_range opcode) as Hxr.
  pose proof (y_field_range opcode) as Hyr.
  assert (Hsrc : 0 <= source < 256) by (subst source; by destruct (QuirkConfig.shift_legacy _)).
  split; [|split; [|split; [|split]]].
  - intros Hn. subst s'. rewrite add_writes_the_flag_last by done. cbn [snd].
    rewrite !reg_set_V. change (Z.to_nat 15) with 15%nat. fold vx vy.
    rewrite list_lookup_total_insert_ne by lia.
    rewrite list_lookup_total_insert_eq by lia.
    rewrite list_lookup_total_insert_eq by (rewrite length_insert; lia).
    change 255 with (Z.ones 8) at 1. rewrite Z.land_ones by lia. change (2 ^ 8) with 256.
    destruct (Z.gtb_spec (vx + vy) 255); Z.to_euclidean_division_equations; lia.
  - intros Hn. subst s'.
    destruct (shifts_write_the_flag_first s opcode Hop HV) as [Hr _]. rewrite (Hr Hn). cbn [snd].
    rewrite !reg_set_V. change (Z.to_nat 15) with 15%nat. fold source.
    rewrite list_lookup_total_insert_eq by (rewrite length_insert; lia).
    rewrite list_lookup_total_insert_ne by lia.
    rewrite list_lookup_total_insert_eq by lia.
    change 255 with (Z.ones 8). change (Z.land source 1) with (Z.land source (Z.ones 1)).
    rewrite !Z.land_ones, Z.shiftr_div_pow2 by lia. change (2 ^ 8) with 256. change (2 ^ 1) with 2.
    Z.to_euclidean_division_equations; lia.
  - intros Hn. subst s'.
    destruct (shifts_write_the_flag_first s opcode Hop HV) as [_ Hl]. rewrite (Hl Hn). cbn [snd].
    rewrite !reg_set_V. change (Z.to_nat 15) with 15%nat. fold source.
    rewrite list_lookup_total_insert_eq by (rewrite length_insert; lia).
    rewrite list_lookup_total_insert_ne by lia.
    rewrite list_lookup_total_insert_eq by lia.
    rewrite Z.shiftr_land. change (Z.shiftr 128 7) with (Z.ones 1). change 255 with (Z.ones 8).
    rewrite !Z.land_ones, Z.shiftr_div_pow2, Z.shiftl_mul_pow2 by lia.
    change (2 ^ 8) with 256. change (2 ^ 1) with 2. change (2 ^ 7) with 128.
    Z.to_euclidean_division_equations; lia.
  - intros Hn Hyf. subst s'. rewrite sub_writes_the_flag_first by done. cbn [snd].
    cbv zeta. rewrite !reg_set_V. cbn [V set_V]. change (Z.to_nat 15) with 15%nat.
    rewrite list_lookup_total_insert_ne by lia.
    rewrite list_lookup_total_insert_eq by lia.
    rewrite list_lookup_total_insert_eq by (rewrite length_insert; lia).
    rewrite !list_lookup_total_insert_ne by lia.
    fold (reg s (x_field opcode)) (reg s (y_field opcode)). fold vx vy.
    split; [done|].
    change 255 with (Z.ones 8). rewrite Z.land_ones by lia. change (2 ^ 8) with 256.
    destruct (Z.geb_spec vx vy); Z.to_euclidean_division_equations; lia.
  - intros Hn Hyf. subst s'. rewrite subn_writes_the_flag_first by done. cbn [snd].
    cbv zeta. rewrite !reg_set_V. cbn [V set_V]. change (Z.to_nat 15) with 15%nat.
    rewrite list_lookup_total_insert_ne by lia.
    rewrite list_lookup_total_insert_eq by lia.
    rewrite list_lookup_total_insert_eq by (rewrite length_insert; lia).
    rewrite !list_lookup_total_insert_ne by lia.
    fold (reg s (x_field opcode)) (reg s (y_field opcode)). fold vx vy.
    split; [done|].
    change 255 with (Z.ones 8). rewrite Z.land_ones by lia. change (2 ^ 8) with 256.
    destruct (Z.geb_spec vy vx); Z.to_euclidean_division_equations; lia.
Qed.

(** X21. An opcode that matches no instruction (0nnn other than 00E0 and
    00EE, 5xyn and 9xyn with n not 0, 8xyn with n in 8..D or F, the
    unassigned Exnn and Fxnn) is executed as a no-op: no exception, no
    change of state. *)
Theorem unrecognised_opcodes_do_nothing (s : Chip8 K R) (opcode : Z) :
  unrecognised opcode = true -> decode_and_execute opcode s = (Ok tt, s).
Proof.
  intros Hun. unfold unrecognised in Hun. cbv zeta in Hun. cbn [existsb] in Hun.
  rewrite ?orb_true_iff, ?andb_true_iff, ?negb_true_iff, ?orb_false_iff,
    ?Z.eqb_eq, ?Z.eqb_neq, ?Z.leb_gt in Hun.
  unfold decode_and_execute; cbv zeta.
  fold (op_class opcode) (n_field opcode) (nn_field opcode).
  repeat lazymatch goal with
  | |- (if Z.eqb ?a ?b then _ else _) s = _ => destruct (Z.eqb_spec a b)
  end;
  first [reflexivity | exfalso; lia].
Qed.
(** X22. A call followed at once by a return restores PC and SP; the only
    trace is the return address left in the stack slot. *)
Theorem call_then_return_comes_back (s : Chip8 K R) (opcode : Z) :
  op_class opcode = 0x2 ->
  length (stack s) = 16%nat ->
  0 <= sp s < STACK_SIZE ->
  0 <= pc s < 65536 ->
  execute_all [opcode; 0x00EE] s
  = (Ok tt, set_stack (<[Z.to_nat (sp s) := pc s]> (stack s)) s).
Proof.
  intros Hop Hst Hsp Hpc. unfold STACK_SIZE in *.
  cbn [execute_all]. unfold bind at 1. rewrite call_pushes by done.
  unfold bind at 1. rewrite return_pops.
  - unfold ret. simpl. replace (sp s + 1 - 1) with (sp s) by lia.
    rewrite list_lookup_total_insert_eq by lia. by destruct s.
  - simpl. by rewrite length_insert.
  - simpl. unfold STACK_SIZE. lia.
Qed.
End Instructions.

(** ** What every operation keeps *)

Lemma forallb_Forall {A} (f : A -> bool) (l : list A) :
  forallb f l = true <-> Forall (fun a => f a = true) l.
Proof.
  induction l as [|a l IH]; cbn; [by split|].
  rewrite andb_true_iff, Forall_cons, IH. done.
Qed.

Lemma getitem_elem_of {A} (l : list A) (i : Z) (a : A) : getitem l i = Ok a -> a ∈ l.
Proof.
  unfold getitem. destruct (py_index _ _) as [k|]; [|done].
  destruct (l !! k) eqn:Hk; [|done]. intros [= <-]. by eapply list_elem_of_lookup_2.
Qed.

Lemma is_array_getitem (bound len : Z) (a : list Z) (i v : Z) :
  is_array bound len a = true -> getitem a i = Ok v -> 0 <= v < bound.
Proof.
  intros Ha Hg. apply is_array_spec in Ha as [_ Hall].
  apply forallb_Forall in Hall. rewrite Forall_forall in Hall.
  apply in_range_spec, Hall. by eapply getitem_elem_of.
Qed.

Lemma is_array_setitem (bound len : Z) (a a' : list Z) (i v : Z) :
  is_array bound len a = true -> array_setitem bound a i v = Ok a' ->
  is_array bound len a' = true.
Proof.
  intros Ha. unfold array_setitem. destruct (py_index _ _) as [k|]; [|done].
  destruct ((0 <=? v) && (v <? bound)) eqn:Hv; [|done]. intros [= <-].
  unfold is_array in *. apply andb_true_iff in Ha as [Hlen Hall].
  rewrite length_insert, Hlen. cbn [andb].
  apply forallb_Forall, Forall_insert; [by apply forallb_Forall | done].
Qed.

Lemma grid_ok_clear (d : Display.t) : grid_ok d = true -> grid_ok (Display.clear d) = true.
Proof.
  intros Hd. apply grid_ok_spec in Hd as (Hw & Hh & _ & _).
  apply grid_ok_intro; cbn; [lia|lia| |].
  - unfold Display.blank. rewrite length_replicate. lia.
  - unfold Display.blank. intros i line Hl. apply lookup_replicate in Hl as [-> _].
    rewrite length_replicate. lia.
Qed.

Lemma grid_ok_render (d : Display.t) : grid_ok d = true -> grid_ok (Display.render d) = true.
Proof. unfold Display.render. by destruct (Display.draw_flag d). Qed.

Lemma ok_upto_mono {K R} (b b' : Z) (s : Chip8 K R) : b <= b' -> ok_upto b s -> ok_upto b' s.
Proof. intros Hb (Ha & Hd & Hs & Hi & Hg & Hp). repeat split; try done; lia. Qed.

Ltac ok_side :=
  let s := fresh "s" in
  let Ha := fresh "Ha" in let Hd := fresh "Hd" in let Hs := fresh "Hs" in
  let Hi := fresh "Hi" in let Hg := fresh "Hg" in let Hp := fresh "Hp" in
  intros s (Ha & Hd & Hs & Hi & Hg & Hp);
  cbv beta in *;
  unfold ok_upto;
  repeat apply conj;
  first [ assumption
        | simpl; lia
        | simpl; match goal with |- context [Z.land ?v 255] =>
                   pose proof (land_255_range v); lia end
        | apply grid_ok_clear; assumption
        | apply grid_ok_render; assumption ].

Section Invariant.
Context {K R : Type} `{!Host K R}.
Implicit Types s : Chip8 K R.

Lemma yields_bind {A B} (b : Z) (post : A -> Prop) (post' : B -> Prop)
      (m : M (Chip8 K R) A) (k : A -> M (Chip8 K R) B) :
  yields b post m -> (forall a, post a -> yields b post' (k a)) -> yields b post' (bind m k).
Proof.
  intros Hm Hk s Hs. unfold bind. destruct (Hm s Hs) as [Hok Hpost].
  destruct (m s) as [[a|e] s1]; cbn [fst snd] in *; [|by split].
  apply Hk; [by apply Hpost | done].
Qed.

Lemma ends_bind {A B} (b b' : Z) (post : A -> Prop)
      (m : M (Chip8 K R) A) (k : A -> M (Chip8 K R) B) :
  yields b post m -> (forall a, post a -> ends b b' (k a)) -> b <= b' -> ends b b' (bind m k).
Proof.
  intros Hm Hk Hb s Hs. unfold bind. destruct (Hm s Hs) as [Hok Hpost].
  destruct (m s) as [[a|e] s1]; cbn [fst snd] in *; [|by eapply ok_upto_mono].
  apply Hk; [by apply Hpost | done].
Qed.

Lemma ends_of_yields {A} (b b' : Z) (post : A -> Prop) (m : M (Chip8 K R) A) :
  b <= b' -> yields b post m -> ends b b' m.
Proof. intros Hb Hm s Hs. eapply ok_upto_mono; [done|]. by apply Hm. Qed.

Lemma ends_ret {A} (b b' : Z) (a : A) : b <= b' -> ends (K := K) (R := R) b b' (ret a).
Proof. intros Hb s Hs. by eapply ok_upto_mono. Qed.

Lemma ends_raise {A} (b b' : Z) (e : exn) :
  b <= b' -> ends (K := K) (R := R) (A := A) b b' (raise e).
Proof. intros Hb s Hs. by eapply ok_upto_mono. Qed.

Lemma ends_modify (b b' : Z) (f : Chip8 K R -> Chip8 K R) :
  (forall s, ok_upto b s -> ok_upto b' (f s)) -> ends b b' (modify f).
Proof. intros Hf s Hs. by apply Hf. Qed.

Lemma ends_when (b b' : Z) (c : bool) (body : M (Chip8 K R) unit) :
  b <= b' -> ends b b' body -> ends b b' (when c body).
Proof. intros Hb Hbody. destruct c; [done|]. by apply ends_ret. Qed.

Lemma ends_halt_and_raise {A} (b b' : Z) (f : fault) :
  b <= b' ->
  ends (K := K) (R := R) (A := A) b b' (modify (set_halted true) ;; raise (RuntimeError f)).
Proof. intros Hb s Hs. by eapply ok_upto_mono. Qed.

Lemma yields_ret {A} (b : Z) (a : A) : yields (K := K) (R := R) b (fun _ => True) (ret a).
Proof. intros s Hs. by split. Qed.

Lemma yields_lift {A} (b : Z) (r : result A) : yields (K := K) (R := R) b (fun _ => True) (lift r).
Proof. intros s Hs. by split. Qed.

Lemma yields_get (b : Z) : yields (K := K) (R := R) b (ok_upto b) get.
Proof. intros s Hs. split; [done|]. by intros a [= <-]. Qed.

Lemma yields_modify (b : Z) (f : Chip8 K R -> Chip8 K R) :
  (forall s, ok_upto b s -> ok_upto b (f s)) -> yields b (fun _ => True) (modify f).
Proof. intros Hf s Hs. split; [by apply Hf | done]. Qed.

Lemma yields_when (b : Z) (c : bool) (body : M (Chip8 K R) unit) :
  yields b (fun _ => True) body -> yields b (fun _ => True) (when c body).
Proof. intros Hbody. destruct c; [done|]. apply yields_ret. Qed.

Lemma yields_readV (b i : Z) : yields (K := K) (R := R) b (fun a => 0 <= a < 256) (readV i).
Proof.
  intros s Hs. split; [done|]. intros a Ha. cbn in Ha.
  destruct Hs as (Harr & _). unfold arrays_typed in Harr.
  apply andb_true_iff in Harr as [Harr _]. apply andb_true_iff in Harr as [_ HV].
  by eapply is_array_getitem.
Qed.

Lemma yields_readMem (b i : Z) : yields (K := K) (R := R) b (fun a => 0 <= a < 256) (readMem i).
Proof.
  intros s Hs. split; [done|]. intros a Ha. cbn in Ha.
  destruct Hs as (Harr & _). unfold arrays_typed in Harr.
  apply andb_true_iff in Harr as [Harr _]. apply andb_true_iff in Harr as [Hm _].
  by eapply is_array_getitem.
Qed.

Lemma yields_readStack (b i : Z) :
  yields (K := K) (R := R) b (fun a => 0 <= a < 65536) (readStack i).
Proof.
  intros s Hs. split; [done|]. intros a Ha. cbn in Ha.
  destruct Hs as (Harr & _). unfold arrays_typed in Harr.
  apply andb_true_iff in Harr as [_ Hst].
  by eapply is_array_getitem.
Qed.

Lemma yields_writeV (b i v : Z) : yields (K := K) (R := R) b (fun _ => True) (writeV i v).
Proof.
  intros s Hs. split; [|done]. unfold writeV.
  destruct (array_setitem B_bound (V s) i v) as [a|e] eqn:Hset; [|done].
  destruct Hs as (Harr & Hrest). split; [|exact Hrest].
  unfold arrays_typed in *. cbn [memory V stack set_V snd].
  apply andb_true_iff in Harr as [Harr Hst]. apply andb_true_iff in Harr as [Hm HV].
  rewrite Hm, Hst, (is_array_setitem _ _ _ _ _ _ HV Hset). done.
Qed.

Lemma yields_writeMem (b i v : Z) : yields (K := K) (R := R) b (fun _ => True) (writeMem i v).
Proof.
  intros s Hs. split; [|done]. unfold writeMem.
  destruct (array_setitem B_bound (memory s) i v) as [a|e] eqn:Hset; [|done].
  destruct Hs as (Harr & Hrest). split; [|exact Hrest].
  unfold arrays_typed in *. cbn [memory V stack set_memory snd].
  apply andb_true_iff in Harr as [Harr Hst]. apply andb_true_iff in Harr as [Hm HV].
  rewrite HV, Hst, (is_array_setitem _ _ _ _ _ _ Hm Hset). done.
Qed.

Lemma yields_writeStack (b i v : Z) :
  yields (K := K) (R := R) b (fun _ => True) (writeStack i v).
Proof.
  intros s Hs. split; [|done]. unfold writeStack.
  destruct (array_setitem H_bound (stack s) i v) as [a|e] eqn:Hset; [|done].
  destruct Hs as (Harr & Hrest). split; [|exact Hrest].
  unfold arrays_typed in *. cbn [memory V stack set_stack snd].
  apply andb_true_iff in Harr as [Harr Hst]. apply andb_true_iff in Harr as [Hm HV].
  rewrite Hm, HV, (is_array_setitem _ _ _ _ _ _ Hst Hset). done.
Qed.

Lemma yields_on_input {A} (b : Z) (m : HM K A) :
  yields (R := R) b (fun _ => True) (on_input m).
Proof.
  intros s Hs. split; [|done]. unfold on_input.
  by destruct (m (input_handler s)) as [[h|a] k].
Qed.

Lemma yields_rand_byte (b : Z) : yields (K := K) (R := R) b (fun _ => True) rand_byte.
Proof.
  intros s Hs. split; [|done]. unfold rand_byte. by destruct (getrandbits8 (_rand s)).
Qed.

Lemma yields_for_range_from (b i : Z) (count : nat) (body : Z -> M (Chip8 K R) unit) :
  (forall j, yields b (fun _ => True) (body j)) ->
  yields b (fun _ => True) (for_range_from i count body).
Proof.
  intros Hbody. revert i. induction count as [|count IH]; intros i; [apply yields_ret|].
  cbn [for_range_from]. eapply yields_bind; [apply Hbody|]. intros _ _. apply IH.
Qed.

Lemma yields_list_comp_from {A} (b i : Z) (count : nat) (post : A -> Prop)
      (f : Z -> M (Chip8 K R) A) :
  (forall j, yields b post (f j)) ->
  yields b (fun l => length l = count) (list_comp_from i count f).
Proof.
  intros Hf. revert i. induction count as [|count IH]; intros i.
  - intros s Hs. split; [done|]. by intros a [= <-].
  - cbn [list_comp_from]. eapply yields_bind; [apply Hf|]. intros a _.
    eapply yields_bind; [apply IH|]. intros l Hl.
    intros s Hs. split; [done|]. intros l' [= <-]. cbn. by rewrite Hl.
Qed.

Lemma yields_draw (b x y : Z) (sprite : list Z) (nrows : Z) (wrap : bool) :
  0 <= x -> 0 <= y -> nrows <= Z.of_nat (length sprite) ->
  yields (K := K) (R := R) b (fun _ => True)
         (zoom display set_display (Display.draw_sprite x y sprite nrows wrap)).
Proof.
  intros Hx Hy Hn s Hs. split; [|done]. unfold zoom.
  destruct Hs as (Ha & Hd & Hsn & Hi & Hg & Hp).
  rewrite draw_sprite_spec by done. cbn [snd].
  split; [exact Ha|]. split; [exact Hd|]. split; [exact Hsn|]. split; [exact Hi|].
  split; [|exact Hp].
  cbn [display set_display].
  change (grid_ok (Display.set_draw_flag true ?d)) with (grid_ok d).
  by apply grid_ok_plot_all.
Qed.

Ltac inv_walk :=
  repeat lazymatch goal with
  | |- ends _ _ (if ?c then _ else _) => destruct c
  | |- yields _ _ (if ?c then _ else _) => destruct c
  | |- ends _ _ (bind (modify (set_halted true)) (fun _ => raise _)) =>
      apply ends_halt_and_raise; lia
  | |- ends _ _ (bind _ _) => eapply ends_bind; [|intros ? ?|lia]
  | |- yields _ _ (bind _ _) => eapply yields_bind; [|intros ? ?]
  | |- ends _ _ (ret _) => apply ends_ret; lia
  | |- ends _ _ (raise _) => apply ends_raise; lia
  | |- ends _ _ (when _ _) => apply ends_when; [lia|]
  | |- ends _ _ skip => unfold skip
  | |- ends _ _ (modify _) => apply ends_modify; ok_side
  | |- ends _ _ _ => eapply ends_of_yields; [lia|]
  | |- yields _ _ get => apply yields_get
  | |- yields _ _ (ret _) => apply yields_ret
  | |- yields _ _ (lift _) => apply yields_lift
  | |- yields _ _ (when _ _) => apply yields_when
  | |- yields _ _ (readV _) => apply yields_readV
  | |- yields _ _ (readMem _) => apply yields_readMem
  | |- yields _ _ (readStack _) => apply yields_readStack
  | |- yields _ _ (writeV _ _) => apply yields_writeV
  | |- yields _ _ (writeMem _ _) => apply yields_writeMem
  | |- yields _ _ (writeStack _ _) => apply yields_writeStack
  | |- yields _ _ (on_input _) => apply yields_on_input
  | |- yields _ _ rand_byte => apply yields_rand_byte
  | |- yields _ _ (for_range _ _) => unfold for_range
  | |- yields _ _ (for_range_from _ _ _) => apply yields_for_range_from; intros ?
  | |- yields _ _ (list_comp_from _ _ _) => eapply yields_list_comp_from; intros ?
  | |- yields _ _ (zoom display set_display (Display.draw_sprite _ _ _ _ _)) =>
      cbv beta in *; apply yields_draw; lia
  | |- yields _ _ (modify _) => apply yields_modify; ok_side
  end.

Lemma decode_and_execute_ends (opcode : Z) :
  ends (K := K) (R := R) 4096 65535 (decode_and_execute opcode).
Proof.
  pose proof (nnn_field_range opcode) as Hnnn.
  pose proof (n_field_range opcode) as Hn.
  pose proof (x_field_range opcode) as Hx.
  unfold decode_and_execute; cbv zeta.
  fold (nnn_field opcode) (n_field opcode) (x_field opcode).
  inv_walk.
Qed.

Lemma fetch_opcode_yields : 
  forall s, ok_upto 65535 s ->
            match fetch_opcode s with
            | (Ok _, s') => ok_upto 4096 s'
            | (Raise _, s') => ok_upto 65535 s'
            end.
Proof.
  intros s Hs. unfold fetch_opcode, bind, get, modify, raise, readMem, ret.
  destruct (Z.geb_spec (pc s) MEMORY_SIZE); [done|].
  destruct (Z.geb_spec (pc s + 1) MEMORY_SIZE); [done|]. cbn [orb].
  destruct (getitem (memory s) (pc s)) as [hi|e]; [|done].
  destruct (getitem (memory s) (pc s + 1)) as [lo|e]; [|done].
  unfold MEMORY_SIZE in *. destruct Hs as (Ha & Hd & Hsn & Hi & Hg & Hp).
  split; [exact Ha|]. split; [exact Hd|]. split; [exact Hsn|]. split; [exact Hi|].
  split; [exact Hg|]. simpl. lia.
Qed.

Lemma step_ends : ends (K := K) (R := R) 65535 65535 step.
Proof.
  intros s Hs. unfold step. unfold bind at 1. unfold get at 1.
  destruct (halted s); [done|].
  unfold bind at 1.
  destruct (yields_on_input 65535 update_keys s Hs) as [Hs1 _].
  destruct (on_input update_keys s) as [[[]|e] s1]; cbn [fst snd] in *; [|done].
  unfold bind. pose proof (fetch_opcode_yields s1 Hs1) as Hf.
  destruct (fetch_opcode s1) as [[opcode|e] s2]; [|done].
  by apply decode_and_execute_ends.
Qed.

Lemma run_steps_ends (todo : nat) : ends (K := K) (R := R) 65535 65535 (run_steps todo).
Proof.
  induction todo as [|todo IH]; intros s Hs; [done|].
  cbn [run_steps]. unfold bind at 1. unfold get at 1.
  destruct (halted s); [done|].
  unfold bind. pose proof (step_ends s Hs) as Hstep.
  destruct (step s) as [[[]|e] s1]; cbn [snd] in *; [by apply IH | done].
Qed.

Lemma update_timers_ends : ends (K := K) (R := R) 65535 65535 update_timers.
Proof.
  intros s (Ha & Hd & Hsn & Hi & Hg & Hp).
  assert (Hsound : 0 <= Sound.timer (Sound.update (sound s)) < 256).
  { unfold Sound.update. destruct (Z.ltb_spec 0 (Sound.timer (sound s))); simpl; lia. }
  unfold update_timers, bind, get, when, modify, ret.
  destruct (Z.gtb_spec (delay_timer s) 0); cbn [snd];
    (split; [exact Ha|]); (split; [simpl; lia|]); (split; [exact Hsound|]); done.
Qed.

Lemma render_ends : ends (K := K) (R := R) 65535 65535 render.
Proof. unfold render. apply ends_modify. ok_side. Qed.

Lemma run_frame_ends : ends (K := K) (R := R) 65535 65535 run_frame.
Proof.
  assert (Htail : ends (K := K) (R := R) 65535 65535 (update_timers ;; render)).
  { intros s Hs. unfold bind. pose proof (update_timers_ends s Hs) as Hu.
    destruct (update_timers s) as [[[]|e] s1]; cbn [snd] in *; [by apply render_ends | done]. }
  intros s Hs. unfold run_frame. unfold bind at 1. unfold get at 1.
  destruct (halted s); [by apply Htail|].
  unfold bind at 1.
  assert (Hp : ok_upto 65535 (snd (when (using_pygame s) (on_input pump_events) s))).
  { destruct (using_pygame s); [|done]. by apply yields_on_input. }
  destruct (when (using_pygame s) (on_input pump_events) s) as [[[]|e] s1]; cbn [snd] in *;
    [|done].
  unfold bind at 1. unfold get at 1. unfold bind at 1.
  pose proof (run_steps_ends (Z.to_nat (cycles_per_frame s1)) s1 Hp) as Hr.
  destruct (run_steps _ s1) as [[[]|e] s2]; cbn [snd] in *; [by apply Htail | done].
Qed.

Lemma reset_ends : ends (K := K) (R := R) 65535 65535 reset.
Proof.
  intros s Hs. unfold reset. unfold bind at 1.
  destruct (yields_for_range_from 65535 0 (Z.to_nat V_COUNT) (fun i => writeV i 0)
              (fun j => yields_writeV 65535 j 0) s Hs) as [Hs1 _].
  unfold for_range.
  destruct (for_range_from 0 (Z.to_nat V_COUNT) _ s) as [[[]|e] s1]; cbn [snd] in *; [|done].
  unfold bind, modify. cbn [snd]. revert s1 Hs1. ok_side.
Qed.

Lemma load_rom_ends (rom : list Z) : ends (K := K) (R := R) 65535 65535 (load_rom rom).
Proof.
  unfold load_rom. cbv zeta. inv_walk.
Qed.

Lemma well_formed_split s : well_formed s <-> ok_upto 65535 s /\ sp_ok s.
Proof.
  unfold well_formed, ok_upto, scalars_fit, sp_ok, STACK_SIZE.
  rewrite !andb_true_iff, !in_range_spec. intuition lia.
Qed.

Lemma reset_keeps_sp_ok : keeps_sp_ok (K := K) (R := R) reset.
Proof.
  intros s Hs. unfold reset. unfold bind at 1. unfold for_range.
  pose proof (tame_for_range_from 0 (Z.to_nat V_COUNT) (fun i => writeV i 0)
                (fun j => tame_writeV j 0) s) as [Hsp _].
  destruct (for_range_from 0 (Z.to_nat V_COUNT) _ s) as [[[]|e] s1]; cbn [snd] in *.
  - unfold bind, modify. cbn. unfold sp_ok, STACK_SIZE. cbn. lia.
  - unfold sp_ok in *. by rewrite Hsp.
Qed.

Lemma load_rom_keeps_sp_ok (rom : list Z) : keeps_sp_ok (K := K) (R := R) (load_rom rom).
Proof.
  intros s Hs. unfold load_rom. cbv zeta.
  destruct (_ >? _); [done|]. unfold for_range. unfold bind at 1.
  match goal with |- context [for_range_from 0 ?n ?body s] =>
    assert (Ht : tame (for_range_from 0 n body)) end.
  { apply tame_for_range_from. intros j. apply tame_bind; [apply tame_lift, getitem_no_fault|].
    intros b. apply tame_writeMem. }
  destruct (Ht s) as [Hsp _].
  destruct (for_range_from 0 _ _ s) as [[[]|e] s1]; cbn [snd] in *.
  - unfold bind, modify. cbn [snd]. unfold sp_ok in *. simpl. by rewrite Hsp.
  - unfold sp_ok in *. by rewrite Hsp.
Qed.

(** X23. Whatever the outcome (return or exception), [step], [run_frame],
    [reset], [load_rom] and the frame loop of [main] take a well-formed
    machine to a well-formed machine, and so does [decode_and_execute]
    when PC is at most MEMORY_SIZE.  The I register is the only scalar
    without an upper bound. *)
Theorem well_formed_is_kept (s : Chip8 K R) (opcode : Z) (rom : list Z) (frames : nat) :
  well_formed s ->
  well_formed (snd (step s))
  /\ well_formed (snd (run_frame s))
  /\ well_formed (snd (reset s))
  /\ well_formed (snd (load_rom rom s))
  /\ well_formed (snd (main_loop frames s))
  /\ (pc s <= MEMORY_SIZE -> well_formed (snd (decode_and_execute opcode s))).
Proof.
  intros Hwf. apply well_formed_split in Hwf as [Hok Hsp].
  split; [|split; [|split; [|split; [|split]]]].
  - apply well_formed_split. split; [by apply step_ends | by apply step_keeps_sp_ok].
  - apply well_formed_split. split; [by apply run_frame_ends | by apply run_frame_keeps_sp_ok].
  - apply well_formed_split. split; [by apply reset_ends | by apply reset_keeps_sp_ok].
  - apply well_formed_split. split; [by apply load_rom_ends | by apply load_rom_keeps_sp_ok].
  - revert s Hok Hsp. induction frames as [|frames IH]; intros s Hok Hsp.
    + by apply well_formed_split.
    + cbn [main_loop].
      pose proof (run_frame_ends s Hok) as Hok1.
      pose proof (run_frame_keeps_sp_ok s Hsp) as Hsp1.
      destruct (run_frame s) as [[[]|e] s1]; cbn [snd] in *; [by apply IH|].
      assert (Hstop : well_formed (set_sound (Sound.stop (sound s1)) s1)).
      { apply well_formed_split. split; [|done]. revert s1 Hok1 Hsp1. clear.
        intros s1 Hok1 _. revert s1 Hok1. ok_side. }
      assert (Hsame : well_formed s1) by by apply well_formed_split.
      destruct e as [| | | | |[]]; done.
  - intros Hpc. apply well_formed_split.
    split; [|by apply decode_and_execute_keeps_sp_ok].
    apply decode_and_execute_ends. destruct Hok as (Ha & Hd & Hsn & Hi & Hg & Hp).
    unfold MEMORY_SIZE in *. repeat split; try done; lia.
Qed.
End Invariant.

(** ** The input backends *)

Lemma customary_keymap_ok : keymap_ok customary_keymap.
Proof.
  unfold keymap_ok. refine (bool_decide_unpack _ _). vm_compute. constructor.
Qed.

Section PygameInput.
Import PygameInputHandler.

Lemma set_key_ok (code : Z) (b : bool) (self : t) :
  length (keys self) = 16%nat -> 0 <= code < 16 ->
  set_key code b self = Ok (Build (keymap self) (<[Z.to_nat code := b]> (keys self))).
Proof. intros Hl Hc. unfold set_key. rewrite setitem_in_range by lia. done. Qed.

Lemma last_filter_cons {A} (f : A -> bool) (a : A) (l : list A) :
  last (List.filter f (a :: l))
  = match last (List.filter f l) with
    | Some x => Some x
    | None => if f a then Some a else None
    end.
Proof.
  cbn [List.filter]. destruct (f a); [|by destruct (last _)].
  destruct (List.filter f l) as [|x l']; [done|]. rewrite last_cons.
  by destruct (last (x :: l')).
Qed.

(** X24. Routing a batch of events to the pygame handler never fails when
    the key map holds only codes 0..15, and afterwards each key is down
    exactly when the last event of the batch that concerns it is a
    KEYDOWN; a key no event concerns keeps its state. *)
Theorem the_last_event_of_a_key_decides (events : list pygame_event) (self : t) (code : Z) :
  keymap_ok (keymap self) ->
  length (keys self) = 16%nat ->
  0 <= code < 16 ->
  exists self',
    handle_events events self = (Ok tt, self')
    /\ keymap self' = keymap self
    /\ length (keys self') = 16%nat
    /\ keys self' !!! Z.to_nat code
       = match last (List.filter (concerns (keymap self) code) events) with
         | Some (KEYDOWN _) => true
         | Some _ => false
         | None => keys self !!! Z.to_nat code
         end.
Proof.
  intros Hmap. revert self Hmap. induction events as [|event events IH]; intros self Hmap Hl Hc.
  - by exists self.
  - assert (Hstep : exists self1,
              handle_event event self = Ok self1
              /\ keymap self1 = keymap self
              /\ length (keys self1) = 16%nat
              /\ keys self1 !!! Z.to_nat code
                 = if concerns (keymap self) code event
                   then match event with KEYDOWN _ => true | _ => false end
                   else keys self !!! Z.to_nat code).
    { destruct event as [name|name| |]; cbn [handle_event concerns]; try by exists self.
      - destruct (keymap self !! name) as [c|] eqn:Hn.
        + pose proof (Hmap name c Hn) as Hcr. cbn beta in Hcr.
          rewrite set_key_ok by done. eexists. split; [done|]. cbn [keymap keys].
          split; [done|]. split; [by rewrite length_insert|].
          destruct (bool_decide_reflect (Some c = Some code)) as [[= ->]|Hne].
          * by rewrite list_lookup_total_insert_eq by lia.
          * rewrite list_lookup_total_insert_ne; [done|]. intros Heq. apply Hne. f_equal. lia.
        + exists self. rewrite bool_decide_eq_false_2 by done. done.
      - destruct (keymap self !! name) as [c|] eqn:Hn.
        + pose proof (Hmap name c Hn) as Hcr. cbn beta in Hcr.
          rewrite set_key_ok by done. eexists. split; [done|]. cbn [keymap keys].
          split; [done|]. split; [by rewrite length_insert|].
          destruct (bool_decide_reflect (Some c = Some code)) as [[= ->]|Hne].
          * by rewrite list_lookup_total_insert_eq by lia.
          * rewrite list_lookup_total_insert_ne; [done|]. intros Heq. apply Hne. f_equal. lia.
        + exists self. rewrite bool_decide_eq_false_2 by done. done. }
    destruct Hstep as (self1 & Hev & Hk1 & Hl1 & Hc1).
    destruct (IH self1) as (self' & Hrun & Hk' & Hl' & Hc'); [by rewrite Hk1 | done | done |].
    exists self'. cbn [handle_events]. rewrite Hev. split; [done|].
    split; [congruence|]. split; [done|].
    rewrite Hc', Hk1, last_filter_cons.
    destruct (last (List.filter (concerns (keymap self) code) events)) as [last_event|]; [done|].
    rewrite Hc1. destruct (concerns (keymap self) code event) eqn:Hcon; [|done].
    destruct event; done.
Qed.

(** X25. The pygame [wait_for_key] skips every event that is neither QUIT
    nor the press of a mapped key, key releases included (a key released
    meanwhile stays marked as down); it raises KeyboardInterrupt on QUIT
    and otherwise returns the code of the first mapped key going down,
    marked as down. *)
Theorem wait_for_key_takes_the_first_mapped_key_down
        (before after : list pygame_event) (self : t) (name : string) (code : Z) :
  length (keys self) = 16%nat ->
  Forall (fun event => ends_the_wait (keymap self) event = false) before ->
  (wait_for_key before self = None)
  /\ (wait_for_key (before ++ QUIT :: after) self
      = Some (Raise (HostError KeyboardInterrupt), self, after))
  /\ (keymap self !! name = Some code -> 0 <= code < 16 ->
      wait_for_key (before ++ KEYDOWN name :: after) self
      = Some (Ok code, Build (keymap self) (<[Z.to_nat code := true]> (keys self)), after)).
Proof.
  intros Hl Hbefore.
  assert (Hskip : forall tail, wait_for_key (before ++ tail) self = wait_for_key tail self).
  { intros tail. induction Hbefore as [|event before Hev _ IH]; [done|].
    cbn [app wait_for_key]. destruct event as [n|n| |]; try done.
    cbn in Hev. destruct (keymap self !! n) eqn:Hn; [|done].
    by rewrite bool_decide_eq_true_2 in Hev. }
  split; [|split].
  - rewrite <- (app_nil_r before). by rewrite Hskip.
  - by rewrite Hskip.
  - intros Hn Hc. rewrite Hskip. cbn [wait_for_key]. rewrite Hn, set_key_ok by done. done.
Qed.
End PygameInput.

Section TtyInput.
Import TtyInputHandler.

(** [update_keys] is the loop of the source: while [select] finds a read
    ready, one [read(1)] and the body of the loop on its character. *)
Lemma update_keys_is_the_loop (stdin : Stdin.t) (self : t) :
  update_keys stdin self
  = if Stdin.select stdin then
      match Stdin.read1 stdin with
      | Some (key, stdin') =>
        match on_key key self with
        | Ok self' => update_keys stdin' self'
        | Raise e => (Raise e, self, stdin')
        end
      | None => (Ok tt, self, stdin)
      end
    else (Ok tt, self, stdin).
Proof.
  destruct stdin as [buffered [|chunk later]]; [done|].
  unfold update_keys, Stdin.select, Stdin.read1. cbn [Stdin.pending Stdin.buffered].
  destruct buffered as [|key rest].
  - cbn [update_keys_from]. destruct (Stdin.first_of chunk) as [key rest].
    by destruct (on_key key self).
  - cbn [update_keys_from]. destruct (on_key key self); [|done].
    by destruct rest.
Qed.

(** When [select] finds a read ready, [read(1)] does not wait. *)
Lemma select_gives_a_read (stdin : Stdin.t) :
  Stdin.select stdin = true -> is_Some (Stdin.read1 stdin).
Proof.
  destruct stdin as [[|key rest] [|chunk later]]; try done.
  intros _. unfold Stdin.read1. cbn. by destruct (Stdin.first_of chunk).
Qed.

Lemma on_key_keeps (key : string) (self self' : t) (code : Z) :
  0 <= code < 16 ->
  length (keys self) = 16%nat ->
  keys self !!! Z.to_nat code = true ->
  on_key key self = Ok self' ->
  length (keys self') = 16%nat /\ keys self' !!! Z.to_nat code = true.
Proof.
  intros Hc Hl Hp. unfold on_key. destruct (keymap self !! key) as [c|].
  - unfold setitem. destruct (py_index _ c) as [k|] eqn:Hk; [|done].
    intros [= <-]. cbn [keys]. split; [by rewrite length_insert|].
    destruct (decide (k = Z.to_nat code)) as [->|Hne].
    + rewrite list_lookup_total_insert_eq; [done|]. lia.
    + by rewrite list_lookup_total_insert_ne.
  - destruct (String.eqb key ESC); [done|]. by intros [= <-].
Qed.

Lemma update_keys_from_keeps (code : Z) (pending : list (list string)) :
  0 <= code < 16 ->
  forall buffered self,
    length (keys self) = 16%nat ->
    keys self !!! Z.to_nat code = true ->
    keys (snd (fst (update_keys_from pending buffered self))) !!! Z.to_nat code = true.
Proof.
  intros Hc. induction pending as [|chunk later IH]; [done|].
  induction buffered as [|key rest IHb]; intros self Hl Hp.
  - cbn [update_keys_from]. destruct (Stdin.first_of chunk) as [key rest].
    destruct (on_key key self) as [self'|e] eqn:Hk; [|done].
    destruct (on_key_keeps key self self' code) as [Hl' Hp']; try done.
    by apply IH.
  - cbn [update_keys_from]. destruct (on_key key self) as [self'|e] eqn:Hk; [|done].
    destruct (on_key_keeps key self self' code) as [Hl' Hp']; try done.
    by apply IHb.
Qed.

(** X26. On a terminal a key once marked as pressed stays so: neither
    [update_keys], whatever Python has buffered and the terminal has
    ready, nor [wait_for_key] ever clears a key. *)
Theorem terminal_keys_are_never_released
    (stdin : Stdin.t) (chars : list string) (self : t) (code : Z) :
  length (keys self) = 16%nat ->
  0 <= code < 16 ->
  keys self !!! Z.to_nat code = true ->
  keys (snd (fst (update_keys stdin self))) !!! Z.to_nat code = true
  /\ (forall out, wait_for_key chars self = Some out ->
                  keys (snd (fst out)) !!! Z.to_nat code = true).
Proof.
  intros Hl Hc Hp. split.
  - by apply update_keys_from_keeps.
  - revert self Hl Hp. induction chars as [|key rest IH]; intros self Hl Hp out; [done|].
    cbn [wait_for_key]. destruct (keymap self !! key) as [c|].
    + unfold setitem. destruct (py_index _ c) as [k|] eqn:Hk; [|by intros [= <-]].
      intros [= <-]. cbn [fst snd keys].
      destruct (decide (k = Z.to_nat code)) as [->|Hne].
      * rewrite list_lookup_total_insert_eq; [done|]. lia.
      * by rewrite list_lookup_total_insert_ne.
    + destruct (String.eqb key ESC); [by intros [= <-]|]. by apply IH.
Qed.



End TtyInput.

(** ** Snapshot files, and the end of a session *)

Lemma pair_induction {A} (P : list A -> Prop) :
  P [] -> (forall x, P [x]) -> (forall x y l, P l -> P (x :: y :: l)) -> forall l, P l.
Proof.
  intros H0 H1 H2. fix IH 1. intros [|x [|y l]]; [exact H0 | apply H1 | apply H2, IH].
Qed.

Lemma H_frombytes_parity (big : bool) (b : list Z) :
  if Nat.even (length b)
  then exists a, H_frombytes big b = Ok a /\ (2 * length a = length b)%nat
  else H_frombytes big b = Raise ValueError.
Proof.
  induction b as [|x|x y l IH] using pair_induction.
  - by exists [].
  - done.
  - cbn [length Nat.even H_frombytes]. destruct (Nat.even (length l)).
    + destruct IH as (a & -> & Hl). eexists. split; [done|]. cbn [length]. lia.
    + by rewrite IH.
Qed.

Lemma file_slice_read (off len : Z) (file : list Z) :
  0 <= off -> 0 <= len ->
  read len (drop (Z.to_nat off) file)
  = (file_slice off len file, drop (Z.to_nat (off + len)) file).
Proof.
  intros Hoff Hlen. unfold read, file_slice. rewrite drop_drop.
  by rewrite Z2Nat.inj_add by lia.
Qed.

Lemma length_file_slice (off len : Z) (file : list Z) :
  0 <= off -> 0 <= len ->
  Z.of_nat (length (file_slice off len file))
  = Z.min len (Z.max 0 (Z.of_nat (length file) - off)).
Proof.
  intros Hoff Hlen. unfold file_slice. rewrite length_take, length_drop. lia.
Qed.

Section Files.
Context {K R : Type}.
Implicit Types s t : Chip8 K R.

(** X28. [load_state] does not check the file.  Memory and V become the
    first 4096 and the next 16 bytes, or as many as there are.  If the
    stack part has an even number of bytes the call succeeds, missing
    scalars read as 0 and a missing sound byte leaves the sound alone; a
    file shorter than 4144 bytes then leaves an array of the wrong size.
    If the stack part has an odd number of bytes the call raises ValueError
    with memory and V already replaced. *)
Theorem load_state_accepts_any_file (big : bool) (file : list Z) t :
  let out := load_state big file t in
  let stack_bytes := file_slice 4112 32 file in
  memory (snd out) = file_slice 0 4096 file
  /\ V (snd out) = file_slice 4096 16 file
  /\ (Nat.even (length stack_bytes) = true ->
      fst out = Ok tt
      /\ 2 * Z.of_nat (length (stack (snd out))) = Z.of_nat (length stack_bytes)
      /\ pc (snd out) = from_bytes (file_slice 4144 2 file)
      /\ I (snd out) = from_bytes (file_slice 4146 2 file)
      /\ sp (snd out) = from_bytes (file_slice 4148 1 file)
      /\ delay_timer (snd out) = from_bytes (file_slice 4149 1 file)
      /\ (Z.of_nat (length file) <= 4150 -> sound (snd out) = sound t)
      /\ (Z.of_nat (length file) < 4144 -> arrays_typed (snd out) = false))
  /\ (Nat.even (length stack_bytes) = false ->
      out = (Raise ValueError,
             set_V (file_slice 4096 16 file) (set_memory (file_slice 0 4096 file) t))).
Proof.
  intros out stack_bytes.
  assert (Hout : out = load_state big file t) by reflexivity. clearbody out.
  unfold load_state in Hout.
  unfold MEMORY_SIZE, V_COUNT, STACK_SIZE in Hout. change (16 * 2) with 32 in Hout.
  change file with (drop (Z.to_nat 0) file) in Hout at 1.
  rewrite file_slice_read in Hout by lia. cbv iota in Hout.
  rewrite file_slice_read in Hout by lia. cbv iota in Hout.
  rewrite file_slice_read in Hout by lia. cbv iota in Hout.
  rewrite file_slice_read in Hout by lia. cbv iota in Hout.
  rewrite file_slice_read in Hout by lia. cbv iota in Hout.
  rewrite file_slice_read in Hout by lia. cbv iota in Hout.
  rewrite file_slice_read in Hout by lia. cbv iota in Hout.
  rewrite file_slice_read in Hout by lia. cbv iota in Hout.
  change (0 + 4096) with 4096 in Hout. change (4096 + 16) with 4112 in Hout.
  change (4112 + 32) with 4144 in Hout. change (4144 + 2) with 4146 in Hout.
  change (4146 + 2) with 4148 in Hout. change (4148 + 1) with 4149 in Hout.
  change (4149 + 1) with 4150 in Hout.
  fold stack_bytes in Hout.
  unfold bind at 1, modify at 1 in Hout. unfold bind at 1, modify at 1 in Hout.
  unfold bind at 1, lift at 1 in Hout.
  pose proof (H_frombytes_parity big stack_bytes) as Hpar.
  destruct (Nat.even (length stack_bytes)).
  - destruct Hpar as (a & Ha & Hla). rewrite Ha in Hout.
    unfold bind, modify, when in Hout.
    assert (Hshort : Z.of_nat (length file) < 4144 ->
                     forall s, memory s = file_slice 0 4096 file ->
                               V s = file_slice 4096 16 file ->
                               stack s = a -> arrays_typed s = false).
    { intros Hlen s Hm HV Hst. unfold arrays_typed, is_array.
      rewrite Hm, HV, Hst. rewrite !length_file_slice by lia.
      assert (Hs : Z.of_nat (length stack_bytes) = Z.min 32 (Z.max 0 (Z.of_nat (length file) - 4112)))
        by (apply length_file_slice; lia).
      unfold MEMORY_SIZE, V_COUNT, STACK_SIZE.
      destruct (Z.eqb_spec (Z.min 4096 (Z.max 0 (Z.of_nat (length file) - 0))) 4096); [|reflexivity].
      destruct (Z.eqb_spec (Z.min 16 (Z.max 0 (Z.of_nat (length file) - 4096))) 16);
        [|by rewrite andb_false_r].
      destruct (Z.eqb_spec (Z.of_nat (length a)) 16); [lia|].
      by rewrite !andb_false_r. }
    assert (Htimer : Z.of_nat (length file) <= 4150 -> length (file_slice 4150 1 file) = 0%nat).
    { intros Hlen. pose proof (length_file_slice 4150 1 file ltac:(lia) ltac:(lia)). lia. }
    destruct (Nat.eqb_spec (length (file_slice 4150 1 file)) 0) as [Hnone|Hsome];
      cbn [negb] in Hout; subst out; cbn [fst snd].
    + split; [reflexivity|]. split; [reflexivity|]. split; [|intros [=]].
      intros _. split; [reflexivity|]. split; [change (2 * Z.of_nat (length a) = Z.of_nat (length stack_bytes)); lia|].
      split; [reflexivity|]. split; [reflexivity|]. split; [reflexivity|].
      split; [reflexivity|]. split; [reflexivity|].
      intros Hlen. by apply Hshort.
    + split; [reflexivity|]. split; [reflexivity|]. split; [|intros [=]].
      intros _. split; [reflexivity|]. split; [change (2 * Z.of_nat (length a) = Z.of_nat (length stack_bytes)); lia|].
      split; [reflexivity|]. split; [reflexivity|]. split; [reflexivity|].
      split; [reflexivity|]. split.
      * intros Hlen. exfalso. by apply Hsome, Htimer.
      * intros Hlen. by apply Hshort.
  - rewrite Hpar in Hout. subst out. cbn [fst snd].
    split; [reflexivity|]. split; [reflexivity|]. split; [intros [=]|]. reflexivity.
Qed.

(** X29. When [save_state] fails on I, the file already holds memory, V,
    stack and PC (4146 bytes), and [load_state] accepts it: these four are
    restored while I, SP and the delay timer silently become 0 and the
    sound timer is left as it is. *)
Theorem failed_save_leaves_a_loadable_file (big : bool) s t :
  arrays_typed s = true ->
  0 <= pc s < 65536 ->
  ~ 0 <= I s < 65536 ->
  exists file t',
    save_state big s = (Raise OverflowError, file)
    /\ length file = 4146%nat
    /\ load_state big file t = (Ok tt, t')
    /\ (memory t', V t', stack t', pc t') = (memory s, V s, stack s, pc s)
    /\ (I t', sp t', delay_timer t') = (0, 0, 0)
    /\ sound t' = sound t.
Proof.
  unfold arrays_typed. rewrite !andb_true_iff.
  intros [[Hmem HV] Hstk] Hpc HI.
  apply is_array_spec in Hmem as [Hmem _].
  apply is_array_spec in HV as [HV _].
  apply is_array_spec in Hstk as [Hstk _].
  unfold MEMORY_SIZE, V_COUNT, STACK_SIZE in *.
  unfold save_state.
  rewrite (to_bytes_fits 2 (pc s)) by (cbn; lia).
  rewrite (to_bytes_overflows 2 (I s)) by (cbn; lia).
  eexists. eexists. split; [reflexivity|].
  split. { rewrite !length_app, H_tobytes_length. cbn [be_bytes length app]. lia. }
  rewrite <- !app_assoc. unfold load_state.
  rewrite read_app by (unfold MEMORY_SIZE; lia). cbv iota. unfold bind at 1, modify at 1.
  rewrite read_app by (unfold V_COUNT; lia). cbv iota. unfold bind at 1, modify at 1.
  rewrite read_app by (rewrite H_tobytes_length; unfold STACK_SIZE; lia).
  cbv iota. unfold bind at 1, lift at 1. rewrite H_frombytes_tobytes.
  unfold bind at 1, modify at 1.
  rewrite read_all by reflexivity. cbv iota. unfold bind at 1, modify at 1.
  change (read 2 []) with (@nil Z, @nil Z). cbv iota. unfold bind at 1, modify at 1.
  change (read 1 []) with (@nil Z, @nil Z). cbv iota. unfold bind at 1, modify at 1.
  unfold bind at 1, modify at 1. cbn [length Nat.eqb negb when]. unfold ret.
  split; [reflexivity|].
  split; [|split; reflexivity].
  cbn -[from_bytes be_bytes]. by rewrite from_bytes_2.
Qed.
End Files.

(** X30. With the pygame backend, a QUIT among the events polled at the
    start of a frame ends [main]: no instruction of that frame runs, the
    timers are not ticked, the other events of the batch are not routed,
    and the sound is stopped. *)
Theorem closing_the_window_stops_the_emulator
        (s : Chip8 PygameSession.t Tape.t) (pending : list pygame_event)
        (later : list (list pygame_event)) (frames : nat) :
  halted s = false ->
  using_pygame s = true ->
  PygameSession.batches (input_handler s) = pending :: later ->
  QUIT ∈ pending ->
  main_loop (S frames) s
  = (Stopped,
     set_sound (Sound.stop (sound s))
       (set_input_handler
          (PygameSession.Build (PygameSession.handler (input_handler s)) later) s)).
Proof.
  intros Hh Hp Hb Hq.
  assert (Hpoll : PygameDisplay.poll_events pending = Raise (HostError KeyboardInterrupt)).
  { unfold PygameDisplay.poll_events.
    replace (existsb _ pending) with true; [done|].
    symmetry. apply existsb_exists. exists QUIT. split; [|done]. by apply list_elem_of_In. }
  cbn [main_loop]. unfold run_frame. unfold bind at 1. unfold get at 1. rewrite Hh.
  unfold bind at 1. rewrite Hp. unfold when, on_input.
  cbn [pump_events pygame_host]. unfold PygameSession.pump_events. rewrite Hb.
  unfold poll_and_route. rewrite Hpoll. cbn [PygameSession.to_host]. reflexivity.
Qed.

(** ** The properties at concrete machines *)

Lemma bytes_of_forallb (l : list Z) :
  forallb (in_range 256) l = true -> Forall (fun b => 0 <= b < 256) l.
Proof.
  intros Hl. apply forallb_Forall in Hl. eapply Forall_impl; [exact Hl|].
  intros b Hb. by apply in_range_spec.
Qed.

Lemma sound_counts_down_from_five :
  Sound.timer (Nat.iter 3 Sound.update (Sound.Build 5 false true))
  = Z.max 0 (Sound.timer (Sound.Build 5 false true) - Z.of_nat 3)
  /\ Sound.enabled (Nat.iter 3 Sound.update (Sound.Build 5 false true))
     = Sound.enabled (Sound.Build 5 false true)
  /\ (3%nat <> 0%nat ->
      Sound.playing (Nat.iter 3 Sound.update (Sound.Build 5 false true))
      = (0 <? Sound.timer (Sound.Build 5 false true) - Z.of_nat 3)).
Proof. apply (sound_timer_counts_down 3 (Sound.Build 5 false true)). simpl. lia. Defined.

Lemma step_on_the_loaded_program :
  halted loaded = false
  /\ step loaded
     = decode_and_execute
         (memory loaded !!! Z.to_nat (pc loaded) * 256
          + memory loaded !!! Z.to_nat (pc loaded + 1))
         (set_pc (pc loaded + 2) (set_input_handler (input_handler loaded) loaded)).
Proof.
  assert (Hh : halted loaded = false) by (vm_compute; reflexivity).
  split; [exact Hh|].
  apply (proj2 (proj2 (step_executes_the_instruction_at_PC loaded Hh))).
  - reflexivity.
  - vm_compute; reflexivity.
  - vm_compute. split; [discriminate | reflexivity].
Defined.

Lemma fetch_on_the_loaded_program :
  let hi := memory loaded !!! Z.to_nat (pc loaded) in
  let lo := memory loaded !!! Z.to_nat (pc loaded + 1) in
  fetch_opcode loaded = (Ok (hi * 256 + lo), set_pc (pc loaded + 2) loaded)
  /\ 0 <= hi * 256 + lo < 65536
  /\ op_class (hi * 256 + lo) = hi / 16
  /\ x_field (hi * 256 + lo) = hi mod 16
  /\ y_field (hi * 256 + lo) = lo / 16
  /\ n_field (hi * 256 + lo) = lo mod 16
  /\ nn_field (hi * 256 + lo) = lo
  /\ nnn_field (hi * 256 + lo) = (hi mod 16) * 256 + lo.
Proof.
  apply (proj1 (fetch_opcode_reads_a_big_endian_word loaded)).
  - vm_compute; reflexivity.
  - vm_compute. split; [discriminate | reflexivity].
Defined.

Lemma load_rom_on_the_fresh_machine :
  exists mem,
    load_rom [0x60; 0x2A] fresh
    = (Ok tt, set_rom_loaded true (set_halted false (set_pc 0x200 (set_memory mem fresh))))
    /\ length mem = Z.to_nat MEMORY_SIZE
    /\ (forall k, 0 <= k < Z.of_nat (length [0x60; 0x2A]) ->
                  mem !!! Z.to_nat (0x200 + k) = [0x60; 0x2A] !!! Z.to_nat k)
    /\ (forall j, 0 <= j < 0x200 \/ 0x200 + Z.of_nat (length [0x60; 0x2A]) <= j < MEMORY_SIZE ->
                  mem !!! Z.to_nat j = memory fresh !!! Z.to_nat j).
Proof.
  apply (proj2 (load_rom_overlays_the_program [0x60; 0x2A] fresh)).
  - repeat constructor; lia.
  - vm_compute. discriminate.
  - vm_compute; reflexivity.
Defined.

Lemma first_fetch_of_the_loaded_program :
  exists s',
    (load_rom [0x60; 0x2A] ;; fetch_opcode) fresh
    = (Ok ([0x60; 0x2A] !!! 0%nat * 256 + [0x60; 0x2A] !!! 1%nat), s')
    /\ pc s' = 0x202 /\ halted s' = false.
Proof.
  apply (first_fetch_after_load_rom [0x60; 0x2A] fresh).
  - repeat constructor; lia.
  - vm_compute. split; discriminate.
  - vm_compute; reflexivity.
Defined.

Lemma underflowed_machine_ticks_down :
  let s' := Nat.iter 12 (fun t => snd (run_frame t)) underflowed in
  fst (run_frame s') = Ok tt
  /\ delay_timer s' = Z.max 0 (delay_timer underflowed - Z.of_nat 12)
  /\ Sound.timer (sound s') = Z.max 0 (Sound.timer (sound underflowed) - Z.of_nat 12)
  /\ halted s' = true
  /\ (memory s', V s', stack s', sp s', pc s', I s', input_handler s')
     = (memory underflowed, V underflowed, stack underflowed, sp underflowed,
        pc underflowed, I underflowed, input_handler underflowed).
Proof.
  apply (halted_machine_keeps_ticking 12 underflowed).
  - vm_compute. reflexivity.
  - vm_compute. discriminate.
  - vm_compute. discriminate.
Defined.


Lemma console_machine_is_well_formed :
  let out := new 700 None customary_font false false InputHandler.init ([] : Tape.t) in
  let s := snd out in
  fst out = Ok tt
  /\ well_formed s
  /\ (forall i, 0 <= i < Z.of_nat (length customary_font) ->
                memory s !!! Z.to_nat i = customary_font !!! Z.to_nat i)
  /\ (forall i, Z.of_nat (length customary_font) <= i < MEMORY_SIZE -> memory s !!! Z.to_nat i = 0)
  /\ V s = replicate 16 0
  /\ stack s = replicate 16 0
  /\ (sp s, pc s, I s, delay_timer s, Sound.timer (sound s)) = (0, 0x200, 0, 0, 0)
  /\ (halted s, rom_loaded s) = (false, false)
  /\ display s = Display.init SCREEN_WIDTH SCREEN_HEIGHT
  /\ cycles_per_frame s
     = match (None : option EmulatorConfig.t) with
       | Some c => EmulatorConfig.cycles_per_frame c
       | None => 700
       end.
Proof.
  apply (new_machine_is_well_formed 700 None customary_font false false InputHandler.init
           ([] : Tape.t)).
  - apply bytes_of_forallb. vm_compute; reflexivity.
  - vm_compute. discriminate.
Defined.

Lemma primed_facts :
  length (V primed) = 16%nat
  /\ Forall (fun b => 0 <= b < 256) (V primed)
  /\ Forall (fun b => 0 <= b < 256) (memory primed)
  /\ length (memory primed) = Z.to_nat MEMORY_SIZE.
Proof.
  split; [vm_compute; reflexivity|].
  split; [apply bytes_of_forallb; vm_compute; reflexivity|].
  split; [apply bytes_of_forallb; vm_compute; reflexivity|].
  vm_compute; reflexivity.
Qed.

Lemma Fx33_on_254 :
  let v := reg primed (x_field 0xF033) in
  decode_and_execute 0xF033 primed
  = (Ok tt,
     set_memory (<[Z.to_nat (I primed + 2) := v mod 10]>
                   (<[Z.to_nat (I primed + 1) := (v / 10) mod 10]>
                      (<[Z.to_nat (I primed) := v / 100]> (memory primed)))) primed)
  /\ v = 100 * (v / 100) + 10 * ((v / 10) mod 10) + v mod 10
  /\ 0 <= v / 100 <= 2 /\ 0 <= (v / 10) mod 10 <= 9 /\ 0 <= v mod 10 <= 9.
Proof.
  apply (Fx33_stores_the_decimal_digits primed 0xF033).
  - reflexivity.
  - reflexivity.
  - vm_compute; reflexivity.
  - vm_compute. split; [discriminate | reflexivity].
  - vm_compute. discriminate.
  - vm_compute. reflexivity.
Defined.

Lemma Fx55_on_two_registers :
  exists mem,
    decode_and_execute 0xF155 primed
    = (Ok tt,
       if QuirkConfig.load_store_increment_i (EmulatorConfig.quirks (config primed))
       then set_I (I primed + (x_field 0xF155 + 1)) (set_memory mem primed)
       else set_memory mem primed)
    /\ length mem = length (memory primed)
    /\ (forall k, 0 <= k <= x_field 0xF155 -> mem !!! Z.to_nat (I primed + k) = reg primed k)
    /\ (forall j, 0 <= j < Z.of_nat (length (memory primed)) ->
                  ~ (I primed <= j <= I primed + x_field 0xF155) ->
                  mem !!! Z.to_nat j = memory primed !!! Z.to_nat j).
Proof.
  apply (Fx55_stores_V0_to_Vx primed 0xF155).
  - reflexivity.
  - reflexivity.
  - apply primed_facts.
  - apply primed_facts.
  - vm_compute. discriminate.
  - vm_compute. reflexivity.
Defined.

Lemma Fx65_on_two_registers :
  exists v,
    decode_and_execute 0xF165 primed
    = (Ok tt,
       if QuirkConfig.load_store_increment_i (EmulatorConfig.quirks (config primed))
       then set_I (I primed + (x_field 0xF165 + 1)) (set_V v primed)
       else set_V v primed)
    /\ length v = 16%nat
    /\ (forall k, 0 <= k <= x_field 0xF165 ->
                  v !!! Z.to_nat k = memory primed !!! Z.to_nat (I primed + k))
    /\ (forall k, x_field 0xF165 < k < 16 -> v !!! Z.to_nat k = reg primed k).
Proof.
  apply (Fx65_loads_V0_to_Vx primed 0xF165).
  - reflexivity.
  - reflexivity.
  - apply primed_facts.
  - apply primed_facts.
  - vm_compute. discriminate.
  - vm_compute. reflexivity.
Defined.

Lemma store_then_load_on_two_registers :
  (exists s1,
      decode_and_execute 0xF155 primed = (Ok tt, s1)
      /\ decode_and_execute 0xF165 s1 = (Ok tt, s1)
      /\ V s1 = V primed)
  /\ (exists s2,
         decode_and_execute 0xF165 primed = (Ok tt, s2)
         /\ decode_and_execute 0xF155 s2 = (Ok tt, s2)
         /\ memory s2 = memory primed).
Proof.
  apply (store_then_load_round_trips primed 0xF155 0xF165).
  - reflexivity.
  - reflexivity.
  - reflexivity.
  - reflexivity.
  - reflexivity.
  - vm_compute; reflexivity.
  - apply primed_facts.
  - apply primed_facts.
  - apply primed_facts.
  - vm_compute. discriminate.
  - vm_compute. reflexivity.
Defined.

Lemma draw_the_glyph_of_zero :
  let sprite := take (Z.to_nat (n_field 0xD335)) (drop (Z.to_nat (I fresh)) (memory fresh)) in
  let out := draw_spec (display fresh) (reg fresh (x_field 0xD335)) (reg fresh (y_field 0xD335))
                       sprite (n_field 0xD335)
                       (QuirkConfig.draw_wrap (EmulatorConfig.quirks (config fresh))) in
  decode_and_execute 0xD335 fresh
  = (Ok tt,
     set_V (<[15%nat := if fst out then 1 else 0]> (V fresh))
       (set_display (Display.set_draw_flag true (Display.set_pixels (snd out) (display fresh)))
                    fresh))
  /\ (forall k, 0 <= k < n_field 0xD335 ->
                sprite !!! Z.to_nat k = memory fresh !!! Z.to_nat (I fresh + k))
  /\ grid_ok (Display.set_draw_flag true (Display.set_pixels (snd out) (display fresh))) = true.
Proof.
  apply (Dxyn_draws_the_sprite_at_I fresh 0xD335).
  - reflexivity.
  - vm_compute; reflexivity.
  - vm_compute. discriminate.
  - vm_compute. discriminate.
  - vm_compute. discriminate.
  - vm_compute. discriminate.
  - vm_compute; reflexivity.
  - vm_compute; reflexivity.
Defined.

Lemma clear_then_draw_the_glyph_of_zero :
  exists s',
    execute_all [0x00E0; 0xD335] fresh = (Ok tt, s')
    /\ reg s' 0xF = 0.
Proof.
  apply (draw_on_a_cleared_screen_never_collides fresh 0xD335).
  - reflexivity.
  - vm_compute; reflexivity.
  - vm_compute. discriminate.
  - vm_compute. discriminate.
  - vm_compute. discriminate.
  - vm_compute. discriminate.
  - vm_compute; reflexivity.
  - vm_compute. discriminate.
  - vm_compute. discriminate.
Defined.

Lemma add_five_then_255 :
  execute_all [0x7105; 0x71FF] primed
  = (Ok tt,
     set_V (<[Z.to_nat (x_field 0x7105) :=
                (reg primed (x_field 0x7105) + (nn_field 0x7105 + nn_field 0x71FF)) mod 256]>
              (V primed)) primed)
  /\ (x_field 0x7105 <> 0xF ->
      reg (snd (execute_all [0x7105; 0x71FF] primed)) 0xF = reg primed 0xF).
Proof.
  apply (additions_of_constants_accumulate primed 0x7105 0x71FF).
  - reflexivity.
  - reflexivity.
  - reflexivity.
  - apply primed_facts.
Defined.

Lemma add_with_carry_is_exact :
  let opcode := 0x8014 in
  let vx := reg primed (x_field opcode) in
  let vy := reg primed (y_field opcode) in
  let source := reg primed (if QuirkConfig.shift_legacy (EmulatorConfig.quirks (config primed))
                            then y_field opcode else x_field opcode) in
  let s' := snd (decode_and_execute opcode primed) in
  (n_field opcode = 0x4 -> reg s' (x_field opcode) + 256 * reg s' 0xF = vx + vy)
  /\ (n_field opcode = 0x6 -> 2 * reg s' (x_field opcode) + reg s' 0xF = source)
  /\ (n_field opcode = 0xE -> reg s' (x_field opcode) + 256 * reg s' 0xF = 2 * source)
  /\ (n_field opcode = 0x5 -> y_field opcode <> 0xF ->
      reg s' 0xF = (if vx >? vy then 1 else 0)
      /\ reg s' (x_field opcode) = vx - vy + (if vx >=? vy then 0 else 256))
  /\ (n_field opcode = 0x7 -> y_field opcode <> 0xF ->
      reg s' 0xF = (if vy >? vx then 1 else 0)
      /\ reg s' (x_field opcode) = vy - vx + (if vy >=? vx then 0 else 256)).
Proof.
  apply (ALU_results_are_exact primed 0x8014).
  - reflexivity.
  - apply primed_facts.
  - vm_compute. discriminate.
  - vm_compute. split; [discriminate | reflexivity].
  - vm_compute. split; [discriminate | reflexivity].
Defined.

Lemma machine_code_call_is_ignored :
  unrecognised 0x0123 = true /\ decode_and_execute 0x0123 fresh = (Ok tt, fresh).
Proof.
  split; [reflexivity|].
  apply (unrecognised_opcodes_do_nothing fresh 0x0123). reflexivity.
Defined.

Lemma call_then_return_on_the_fresh_machine :
  execute_all [0x2345; 0x00EE] fresh
  = (Ok tt, set_stack (<[Z.to_nat (sp fresh) := pc fresh]> (stack fresh)) fresh).
Proof.
  apply (call_then_return_comes_back fresh 0x2345).
  - reflexivity.
  - vm_compute; reflexivity.
  - vm_compute. split; [discriminate | reflexivity].
  - vm_compute. split; [discriminate | reflexivity].
Defined.

Lemma fresh_is_well_formed : well_formed fresh.
Proof.
  unfold well_formed.
  split; [vm_compute; reflexivity|].
  split; [vm_compute; reflexivity|].
  split; [vm_compute; split; discriminate|].
  split; [vm_compute; discriminate|].
  vm_compute; reflexivity.
Qed.

Lemma fresh_machine_stays_well_formed :
  well_formed (snd (step fresh))
  /\ well_formed (snd (run_frame fresh))
  /\ well_formed (snd (reset fresh))
  /\ well_formed (snd (load_rom [0x60; 0x2A] fresh))
  /\ well_formed (snd (main_loop 2 fresh))
  /\ (pc fresh <= MEMORY_SIZE -> well_formed (snd (decode_and_execute 0x2345 fresh))).
Proof.
  apply (well_formed_is_kept fresh 0x2345 [0x60; 0x2A] 2). apply fresh_is_well_formed.
Defined.

Lemma Cxnn_on_a_recorded_byte :
  let s := set_rand ([0xAB] : Tape.t) fresh in
  let byte := fst (getrandbits8 (Host := console_host) (_rand s)) in
  decode_and_execute 0xC10F s
  = (Ok tt,
     set_V (<[Z.to_nat (x_field 0xC10F) := Z.land byte (nn_field 0xC10F)]> (V s))
       (set_rand (snd (getrandbits8 (Host := console_host) (_rand s))) s))
  /\ 0 <= Z.land byte (nn_field 0xC10F) <= nn_field 0xC10F
  /\ Z.land (Z.land byte (nn_field 0xC10F)) (nn_field 0xC10F) = Z.land byte (nn_field 0xC10F).
Proof.
  apply (Cxnn_stays_within_the_mask (set_rand ([0xAB] : Tape.t) fresh) 0xC10F).
  - reflexivity.
  - vm_compute; reflexivity.
Defined.

Lemma press_release_press :
  let events := [KEYDOWN "q"; KEYUP "q"; KEYDOWN "w"; KEYUP "1"; KEYDOWN "q"]%string in
  let self := PygameInputHandler.init customary_keymap in
  exists self',
    handle_events events self = (Ok tt, self')
    /\ PygameInputHandler.keymap self' = PygameInputHandler.keymap self
    /\ length (PygameInputHandler.keys self') = 16%nat
    /\ PygameInputHandler.keys self' !!! Z.to_nat 4
       = match last (List.filter (concerns (PygameInputHandler.keymap self) 4) events) with
         | Some (KEYDOWN _) => true
         | Some _ => false
         | None => PygameInputHandler.keys self !!! Z.to_nat 4
         end.
Proof.
  apply (the_last_event_of_a_key_decides
           [KEYDOWN "q"; KEYUP "q"; KEYDOWN "w"; KEYUP "1"; KEYDOWN "q"]%string
           (PygameInputHandler.init customary_keymap) 4).
  - apply customary_keymap_ok.
  - reflexivity.
  - lia.
Defined.

Lemma wait_through_a_release :
  let before := [KEYUP "q"; OtherEvent; KEYDOWN "p"]%string in
  let after := [KEYUP "w"]%string in
  (PygameInputHandler.wait_for_key before q_down = None)
  /\ (PygameInputHandler.wait_for_key (before ++ QUIT :: after) q_down
      = Some (Raise (HostError KeyboardInterrupt), q_down, after))
  /\ (PygameInputHandler.keymap q_down !! "w"%string = Some 5 -> 0 <= 5 < 16 ->
      PygameInputHandler.wait_for_key (before ++ KEYDOWN "w" :: after) q_down
      = Some (Ok 5,
              PygameInputHandler.Build (PygameInputHandler.keymap q_down)
                (<[Z.to_nat 5 := true]> (PygameInputHandler.keys q_down)),
              after)).
Proof.
  apply (wait_for_key_takes_the_first_mapped_key_down
           [KEYUP "q"; OtherEvent; KEYDOWN "p"]%string [KEYUP "w"]%string q_down "w"%string 5).
  - reflexivity.
  - repeat constructor.
Defined.

Lemma marked_key_stays_marked :
  let chars := ["w"; "q"; "p"]%string in
  TtyInputHandler.keys (snd (fst (TtyInputHandler.update_keys burst_then_x q_marked)))
    !!! Z.to_nat 4
  = true
  /\ (forall out, TtyInputHandler.wait_for_key chars q_marked = Some out ->
                  TtyInputHandler.keys (snd (fst out)) !!! Z.to_nat 4 = true).
Proof.
  apply (terminal_keys_are_never_released burst_then_x ["w"; "q"; "p"]%string q_marked 4).
  - reflexivity.
  - lia.
  - reflexivity.
Defined.


(** The burst q, p, ESC, w in three calls of [update_keys]: the first call
    marks q and returns with p, ESC and w in Python's buffer; a call made
    while nothing new is typed does nothing; once an x is typed the next
    call takes p from the buffer, then the ESC, and raises with w still
    buffered and the x still at the terminal. *)
Lemma escape_in_a_burst_waits_for_the_next_key :
  TtyInputHandler.update_keys burst (TtyInputHandler.init customary_keymap)
  = (Ok tt, q_marked, Stdin.Build ["p"; ESC; "w"]%string [])
  /\ TtyInputHandler.update_keys (Stdin.Build ["p"; ESC; "w"]%string []) q_marked
     = (Ok tt, q_marked, Stdin.Build ["p"; ESC; "w"]%string [])
  /\ TtyInputHandler.update_keys burst_then_x q_marked
     = (Raise (HostError KeyboardInterrupt), q_marked,
        Stdin.Build ["w"]%string [["x"]%string]).
Proof. vm_compute. repeat split. Qed.

Lemma failed_save_of_the_overgrown_machine :
  exists file t',
    save_state false overgrown = (Raise OverflowError, file)
    /\ length file = 4146%nat
    /\ load_state false file loaded = (Ok tt, t')
    /\ (memory t', V t', stack t', pc t') = (memory overgrown, V overgrown, stack overgrown,
                                              pc overgrown)
    /\ (I t', sp t', delay_timer t') = (0, 0, 0)
    /\ sound t' = sound loaded.
Proof.
  apply (failed_save_leaves_a_loadable_file false overgrown loaded).
  - vm_compute; reflexivity.
  - vm_compute. split; [discriminate | reflexivity].
  - vm_compute. intros [_ H]. discriminate H.
Defined.

Lemma quit_in_the_first_batch :
  let s := fresh_pygame [[KEYDOWN "q"; QUIT]; [KEYUP "q"]]%string in
  main_loop (S 3) s
  = (Stopped,
     set_sound (Sound.stop (sound s))
       (set_input_handler
          (PygameSession.Build (PygameSession.handler (input_handler s)) [[KEYUP "q"]]%string)
          s)).
Proof.
  apply (closing_the_window_stops_the_emulator
           (fresh_pygame [[KEYDOWN "q"; QUIT]; [KEYUP "q"]]%string)
           [KEYDOWN "q"; QUIT]%string [[KEYUP "q"]]%string 3).
  - vm_compute; reflexivity.
  - vm_compute; reflexivity.
  - vm_compute; reflexivity.
  - apply elem_of_cons. right. apply elem_of_cons. by left.
Defined.
